(** * FakeStoreTesting: the test-data, schema-validation and helper layer

    A shallow embedding of the JavaScript utilities of the suite
    (utils/assertions.js, utils/schemaValidator.js, utils/responseValidator.js,
    utils/testDataGenerator.js, utils/testHelpers.js, utils/apiClient.js and
    config/environment.js) and the properties the specification states about
    them. *)

From Stdlib Require Import ZArith QArith Qround Qabs List String Ascii.
From Stdlib Require Import DecimalString Lia Lqa Bool.
From stdpp Require Import base option list gmap.

Set Default Proof Using "Type".
Local Open Scope string_scope.
Local Open Scope list_scope.
Local Open Scope Z_scope.

(** ** JavaScript values

    Strings are sequences of UTF-16 code units. Finite numbers are modelled
    as exact rationals (no rounding, a single zero); the three non-finite
    doubles are kept apart. Objects, arrays and functions live in a heap and
    are passed by reference. *)
Module JS.

Definition jsstring := list N.

Definition js (s : string) : jsstring :=
  map N_of_ascii (list_ascii_of_string s).

Fixpoint jsstring_eqb (a b : jsstring) : bool :=
  match a, b with
  | [], [] => true
  | x :: a', y :: b' => N.eqb x y && jsstring_eqb a' b'
  | _, _ => false
  end.

Inductive number :=
| NaN
| PosInfinity
| NegInfinity
| Fin (q : Q).

Definition loc := positive.

Inductive value :=
| VUndefined
| VNull
| VBool (b : bool)
| VNum (n : number)
| VStr (s : jsstring)
| VRef (l : loc).

(** An object is the list of its own enumerable properties, in the order
    Object.keys reports them. *)
Definition object := list (jsstring * value).

Inductive cell :=
| CObject (props : object)
| CArray (elems : list value)
| CFunction.

Abbreviation heap := (gmap loc cell).

Definition num (z : Z) : value := VNum (Fin (inject_Z z)).
Definition str (s : string) : value := VStr (js s).

(** [typeof v] *)
Definition typeof (h : heap) (v : value) : jsstring :=
  match v with
  | VUndefined => js "undefined"
  | VNull => js "object"
  | VBool _ => js "boolean"
  | VNum _ => js "number"
  | VStr _ => js "string"
  | VRef l => match h !! l with
              | Some CFunction => js "function"
              | _ => js "object"
              end
  end.

(** ToBoolean: the falsy values are undefined, null, false, 0, NaN and the
    empty string. *)
Definition truthy (v : value) : bool :=
  match v with
  | VUndefined | VNull => false
  | VBool b => b
  | VNum NaN => false
  | VNum (Fin q) => negb (Qeq_bool q 0)
  | VNum _ => true
  | VStr s => negb (jsstring_eqb s [])
  | VRef _ => true
  end.

Definition number_eqb (a b : number) : bool :=
  match a, b with
  | PosInfinity, PosInfinity => true
  | NegInfinity, NegInfinity => true
  | Fin p, Fin q => Qeq_bool p q
  | _, _ => false
  end.

(** [a === b] *)
Definition strict_equal (a b : value) : bool :=
  match a, b with
  | VUndefined, VUndefined => true
  | VNull, VNull => true
  | VBool x, VBool y => Bool.eqb x y
  | VNum x, VNum y => number_eqb x y
  | VStr x, VStr y => jsstring_eqb x y
  | VRef x, VRef y => Pos.eqb x y
  | _, _ => false
  end.

(** SameValueZero, the comparison of Array.prototype.includes: strict
    equality except that NaN equals itself. *)
Definition same_value_zero (a b : value) : bool :=
  match a, b with
  | VNum NaN, VNum NaN => true
  | _, _ => strict_equal a b
  end.

(** Own-property read [o[k]]; a missing key reads as undefined. *)
Fixpoint get (o : object) (k : jsstring) : value :=
  match o with
  | [] => VUndefined
  | (k', v) :: o' => if jsstring_eqb k' k then v else get o' k
  end.

Fixpoint has_own (o : object) (k : jsstring) : bool :=
  match o with
  | [] => false
  | (k', _) :: o' => jsstring_eqb k' k || has_own o' k
  end.

(** Property definition [o[k] = v]: an existing key keeps its position, a
    new key is appended. *)
Fixpoint set (o : object) (k : jsstring) (v : value) : object :=
  match o with
  | [] => [(k, v)]
  | (k', v') :: o' =>
      if jsstring_eqb k' k then (k', v) :: o' else (k', v') :: set o' k v
  end.

(** [delete o[k]] *)
Fixpoint delete_key (o : object) (k : jsstring) : object :=
  match o with
  | [] => []
  | (k', v') :: o' =>
      if jsstring_eqb k' k then o' else (k', v') :: delete_key o' k
  end.

(** Object spread [{...a, ...b}] onto an object under construction. *)
Definition spread (target src : object) : object :=
  fold_left (fun acc kv => set acc (fst kv) (snd kv)) src target.

(** The characters String.prototype.trim strips: WhiteSpace and
    LineTerminator of ECMAScript. *)
Definition is_whitespace (c : N) : bool :=
  match c with
  | 9 | 10 | 11 | 12 | 13 | 32 | 160 | 5760
  | 8192 | 8193 | 8194 | 8195 | 8196 | 8197 | 8198 | 8199 | 8200 | 8201 | 8202
  | 8232 | 8233 | 8239 | 8287 | 12288 | 65279 => true
  | _ => false
  end%N.

Fixpoint trimStart (s : jsstring) : jsstring :=
  match s with
  | [] => []
  | c :: s' => if is_whitespace c then trimStart s' else s
  end.

Definition trimEnd (s : jsstring) : jsstring := rev (trimStart (rev s)).

Definition trim (s : jsstring) : jsstring := trimEnd (trimStart s).

(** [o[k]] on an object whose prototype carries the properties [proto]:
    an own property first, an inherited one otherwise. *)
Definition member (proto o : object) (k : jsstring) : value :=
  if has_own o k then get o k else get proto k.

(** [k in o] on such an object *)
Definition has_property (proto o : object) (k : jsstring) : bool :=
  has_own o k || has_own proto k.

(** [a <= b] on numbers; every comparison with NaN is false. *)
Definition number_leb (a b : number) : bool :=
  match a, b with
  | NaN, _ => false
  | _, NaN => false
  | NegInfinity, _ => true
  | _, PosInfinity => true
  | Fin p, Fin q => Qle_bool p q
  | _, _ => false
  end.

(** [a - b] on numbers *)
Definition number_sub (a b : number) : number :=
  match a, b with
  | NaN, _ => NaN
  | _, NaN => NaN
  | PosInfinity, PosInfinity => NaN
  | NegInfinity, NegInfinity => NaN
  | PosInfinity, _ => PosInfinity
  | NegInfinity, _ => NegInfinity
  | Fin _, PosInfinity => NegInfinity
  | Fin _, NegInfinity => PosInfinity
  | Fin p, Fin q => Fin (p - q)
  end.

(** [s.startsWith(t)] *)
Fixpoint startsWith (s t : jsstring) : bool :=
  match t, s with
  | [], _ => true
  | c :: t', d :: s' => N.eqb c d && startsWith s' t'
  | _ :: _, [] => false
  end.

(** [s.indexOf(t) !== -1] *)
Fixpoint occurs (s t : jsstring) : bool :=
  startsWith s t ||
  match s with
  | [] => false
  | _ :: s' => occurs s' t
  end.

(** [Array.isArray(v)] *)
Definition isArray (h : heap) (v : value) : bool :=
  match v with
  | VRef l => match h !! l with
              | Some (CArray _) => true
              | _ => false
              end
  | _ => false
  end.

End JS.
Export JS.

Notation "s |> f" := (f s) (at level 45, left associativity, only parsing).

(** ** The schema library (Joi)

    The suite's schemas are built with the third-party library Joi and
    checked with its [validate]. The fragment the schemas use is modelled
    here after the library's documented behaviour: keys are optional unless
    marked required, keys the schema does not list are rejected, the empty
    string is not a valid [string()], numbers must be finite and within the
    safe-integer range, and the preferences default to [abortEarly: true] and
    [convert: true]. Under [convert] a [number()] accepts a string holding a
    decimal literal and validates the number it denotes. Validation works on
    a shallow clone of every keyed object; the clone, not the input, receives
    the converted values. *)
Module Joi.

Inductive code :=
| any_required
| number_base
| number_infinity
| number_unsafe
| number_integer
| number_positive
| number_min
| number_max
| string_base
| string_empty
| string_uri
| object_base
| object_unknown.

(** One entry of [error.details]: the path of the offending value and the
    rule it breaks. *)
Record detail := Detail { path : list jsstring; type : code }.

Record ValidationError := { details : list detail }.

Inductive presence := optional | required_flag.

Inductive number_rule :=
| rule_integer
| rule_positive
| rule_min (limit : Q)
| rule_max (limit : Q).

Inductive string_rule :=
| rule_uri.

#[local] Unset Elimination Schemes.
Inductive schema :=
| number_schema (rules : list number_rule) (p : presence)
| string_schema (rules : list string_rule) (p : presence)
| object_schema (keys : list (jsstring * schema)) (allow_unknown : option bool)
    (p : presence).
#[local] Set Elimination Schemes.

(** Induction over shapes, with the hypothesis for every child of a keyed
    object. *)
Fixpoint schema_ind (Q : schema -> Prop)
    (Hnumber : forall rules p, Q (number_schema rules p))
    (Hstring : forall rules p, Q (string_schema rules p))
    (Hobject : forall keys u p,
        Forall (fun kc => Q (snd kc)) keys -> Q (object_schema keys u p))
    (s : schema) : Q s :=
  match s with
  | number_schema rules p => Hnumber rules p
  | string_schema rules p => Hstring rules p
  | object_schema keys u p =>
      Hobject keys u p
        ((fix children (keys : list (jsstring * schema))
            : Forall (fun kc => Q (snd kc)) keys :=
            match keys with
            | [] => @List.Forall_nil _ _
            | kc :: rest =>
                @List.Forall_cons _ _ kc rest
                  (schema_ind Q Hnumber Hstring Hobject (snd kc))
                  (children rest)
            end) keys)
  end.

(** *** Preferences *)

Record prefs := { abortEarly : bool; convert : bool; allowUnknown : bool }.

Definition defaults : prefs :=
  {| abortEarly := true; convert := true; allowUnknown := false |}.

(** The options object [{ abortEarly: b }] merged over the defaults. *)
Definition with_abortEarly (b : bool) (P : prefs) : prefs :=
  {| abortEarly := b; convert := convert P; allowUnknown := allowUnknown P |}.

(** The preferences under which every violation is collected. *)
Definition collect_all : prefs := with_abortEarly false defaults.

(** *** Numbers *)

Definition MAX_SAFE_INTEGER : Z := 9007199254740991.

Definition is_digit (c : N) : bool := (48 <=? c)%N && (c <=? 57)%N.

Fixpoint take_digits (s : jsstring) : list N * jsstring :=
  match s with
  | [] => ([], [])
  | c :: s' =>
      if is_digit c
      then let '(ds, rest) := take_digits s' in ((c - 48)%N :: ds, rest)
      else ([], s)
  end.

Definition digits_value (ds : list N) : Z :=
  fold_left (fun acc d => 10 * acc + Z.of_N d) ds 0.

(** An optional sign: [true] for a minus. *)
Definition take_sign (s : jsstring) : bool * jsstring :=
  match s with
  | 43%N :: s' => (false, s')
  | 45%N :: s' => (true, s')
  | _ => (false, s)
  end.

Definition scale (mantissa exponent : Z) : Q :=
  if 0 <=? exponent
  then inject_Z (mantissa * 10 ^ exponent)
  else Qmake mantissa (Z.to_pos (10 ^ (- exponent))).

(** The strings a [number()] converts: optional blanks, an optional sign,
    digits with an optional fraction (or a fraction alone), an optional
    exponent, optional blanks. The result is the rational the literal
    denotes. The library reads the literal as a double and reports as unsafe
    a literal the double does not print back, so the two agree only where
    the double is exact: [Spec.short_digits] gives such texts. *)
Definition parse_number (s : jsstring) : option Q :=
  let '(neg, s1) := take_sign (trimStart s) in
  let '(ip, s2) := take_digits s1 in
  let '(fp, s3) :=
    match s2 with
    | 46%N :: s' => take_digits s'
    | _ => ([], s2)
    end in
  let mantissa_ok :=
    match ip, fp with
    | [], [] => false
    | _, _ => true
    end in
  let exponent :=
    match s3 with
    | 101%N :: s' | 69%N :: s' =>
        let '(eneg, s'') := take_sign s' in
        let '(ed, rest) := take_digits s'' in
        match ed with
        | [] => None
        | _ => Some (if eneg then - digits_value ed else digits_value ed, rest)
        end
    | _ => Some (0, s3)
    end in
  match exponent with
  | Some (e, rest) =>
      if mantissa_ok && forallb is_whitespace rest
      then
        let m := digits_value (ip ++ fp) in
        Some (scale (if neg then - m else m) (e - Z.of_nat (length fp)))
      else None
  | None => None
  end.

Definition coerce_number (v : value) : value :=
  match v with
  | VStr s => match parse_number s with
              | Some q => VNum (Fin q)
              | None => v
              end
  | _ => v
  end.

Definition is_integer (q : Q) : bool := Qeq_bool q (inject_Z (Qfloor q)).

Definition is_safe (q : Q) : bool :=
  Qle_bool (inject_Z (- MAX_SAFE_INTEGER)) q
  && Qle_bool q (inject_Z MAX_SAFE_INTEGER).

Definition number_rule_holds (r : number_rule) (q : Q) : bool :=
  match r with
  | rule_integer => is_integer q
  | rule_positive => negb (Qle_bool q 0)
  | rule_min limit => Qle_bool limit q
  | rule_max limit => Qle_bool q limit
  end.

Definition number_rule_code (r : number_rule) : code :=
  match r with
  | rule_integer => number_integer
  | rule_positive => number_positive
  | rule_min _ => number_min
  | rule_max _ => number_max
  end.

(** *** Strings *)

Definition is_alpha (c : N) : bool :=
  ((65 <=? c) && (c <=? 90) || (97 <=? c) && (c <=? 122))%N.

Definition is_hex (c : N) : bool :=
  (is_digit c || (65 <=? c) && (c <=? 70) || (97 <=? c) && (c <=? 102))%N.

(** Characters of a URI after the scheme: unreserved, sub-delims and the
    general delimiters of RFC 3986. *)
Definition is_uri_char (c : N) : bool :=
  is_alpha c || is_digit c ||
  match c with
  | 45 | 46 | 95 | 126
  | 33 | 36 | 38 | 39 | 40 | 41 | 42 | 43 | 44 | 59 | 61
  | 58 | 64 | 47 | 63 | 35 | 91 | 93 => true
  | _ => false
  end%N.

Fixpoint uri_body (s : jsstring) : bool :=
  match s with
  | [] => true
  | 37%N :: s' =>
      match s' with
      | a :: (b :: _) as s'' => is_hex a && is_hex b && uri_body s''
      | _ => false
      end
  | c :: s' => is_uri_char c && uri_body s'
  end.

Fixpoint uri_scheme_rest (s : jsstring) : bool :=
  match s with
  | [] => false
  | 58%N :: s' => negb (jsstring_eqb s' []) && uri_body s'
  | c :: s' =>
      (is_alpha c || is_digit c ||
       match c with 43 | 45 | 46 => true | _ => false end%N)
      && uri_scheme_rest s'
  end.

(** [string().uri()]: a scheme, a colon and a non-empty rest; an
    approximation of the RFC 3986 grammar by its character classes, which
    does not follow the library on the structure of the authority, on
    brackets or on the percent sign. It agrees with the library on the
    addresses of [Spec.web_address], which both accept, and on text without
    a colon, which both reject. *)
Definition is_uri (s : jsstring) : bool :=
  match s with
  | c :: s' => is_alpha c && uri_scheme_rest s'
  | [] => false
  end.

Definition string_rule_holds (r : string_rule) (s : jsstring) : bool :=
  match r with
  | rule_uri => is_uri s
  end.

Definition string_rule_code (r : string_rule) : code :=
  match r with
  | rule_uri => string_uri
  end.

(** *** Validation *)

(** The validated value: untouched values and the clones of keyed objects. *)
#[local] Unset Elimination Schemes.
Inductive tree :=
| TVal (v : value)
| TObj (props : list (jsstring * tree)).
#[local] Set Elimination Schemes.

Fixpoint tree_ind (Q : tree -> Prop)
    (Hval : forall v, Q (TVal v))
    (Hobj : forall props, Forall (fun kt => Q (snd kt)) props -> Q (TObj props))
    (t : tree) : Q t :=
  match t with
  | TVal v => Hval v
  | TObj props =>
      Hobj props
        ((fix children (props : list (jsstring * tree))
            : Forall (fun kt => Q (snd kt)) props :=
            match props with
            | [] => @List.Forall_nil _ _
            | kt :: rest =>
                @List.Forall_cons _ _ kt rest
                  (tree_ind Q Hval Hobj (snd kt)) (children rest)
            end) props)
  end.

Definition here (c : code) : detail := Detail [] c.

Definition under (k : jsstring) (d : detail) : detail :=
  Detail (k :: path d) (type d).

(** Rules run in the order they were added; the first failure ends the run
    under [abortEarly]. *)
Fixpoint run_rules {R A : Type} (holds : R -> A -> bool) (code_of : R -> code)
    (abort : bool) (rules : list R) (a : A) : list detail :=
  match rules with
  | [] => []
  | r :: rules' =>
      if holds r a then run_rules holds code_of abort rules' a
      else if abort then [here (code_of r)]
      else here (code_of r) :: run_rules holds code_of abort rules' a
  end.

Definition check_presence (p : presence) : list detail :=
  match p with
  | required_flag => [here any_required]
  | optional => []
  end.

Definition check_number (P : prefs) (rules : list number_rule) (p : presence)
    (v : value) : tree * list detail :=
  let v := if convert P then coerce_number v else v in
  (TVal v,
   match v with
   | VUndefined => check_presence p
   | VNum PosInfinity | VNum NegInfinity => [here number_infinity]
   | VNum (Fin q) =>
       if is_safe q
       then run_rules number_rule_holds number_rule_code (abortEarly P) rules q
       else [here number_unsafe]
   | _ => [here number_base]
   end).

Definition check_string (P : prefs) (rules : list string_rule) (p : presence)
    (v : value) : tree * list detail :=
  (TVal v,
   match v with
   | VUndefined => check_presence p
   | VStr [] => [here string_empty]
   | VStr s =>
       run_rules string_rule_holds string_rule_code (abortEarly P) rules s
   | _ => [here string_base]
   end).

Definition set_tree (o : list (jsstring * tree)) (k : jsstring) (t : tree)
  : list (jsstring * tree) :=
  (fix go o :=
     match o with
     | [] => [(k, t)]
     | (k', t') :: o' =>
         if jsstring_eqb k' k then (k', t) :: o' else (k', t') :: go o'
     end) o.

(** The entry of a clone under a key. *)
Fixpoint get_tree (o : list (jsstring * tree)) (k : jsstring) : option tree :=
  match o with
  | [] => None
  | (k', t) :: o' => if jsstring_eqb k' k then Some t else get_tree o' k
  end.

(** The children of a keyed object, in schema order. Each child validates
    [value[key]]; a result that is not undefined is stored in the clone. *)
Fixpoint check_children (abort : bool) (props : JS.object)
    (children : list (jsstring * (value -> tree * list detail)))
    (clone : list (jsstring * tree)) : list (jsstring * tree) * list detail :=
  match children with
  | [] => (clone, [])
  | (k, child) :: rest =>
      let '(t, errs) := child (get props k) in
      let stored :=
        match t with
        | TVal VUndefined => clone
        | _ => set_tree clone k t
        end in
      match errs with
      | [] => check_children abort props rest stored
      | _ =>
          if abort then (clone, map (under k) errs)
          else
            let '(clone', errs') := check_children abort props rest stored in
            (clone', map (under k) errs ++ errs')
      end
  end.

(** Keys of the value that no child of the schema processed. *)
Definition unprocessed (props : JS.object) (keys : list jsstring)
  : list jsstring :=
  List.filter (fun k => negb (existsb (jsstring_eqb k) keys)) (map fst props).

Definition check_unknown (abort : bool) (ks : list jsstring) : list detail :=
  match ks with
  | [] => []
  | k :: ks' =>
      if abort then [Detail [k] object_unknown]
      else map (fun k => Detail [k] object_unknown) ks
  end.

(** Unknown keys are rejected unless the schema or the preferences allow
    them. *)
Definition forbids_unknown (P : prefs) (u : option bool) : bool :=
  negb (match u with Some b => b | None => allowUnknown P end).

Definition check_object (P : prefs) (allow_unknown : option bool)
    (p : presence) (h : heap) (v : value)
    (children : list (jsstring * (value -> tree * list detail)))
  : tree * list detail :=
  match v with
  | VUndefined => (TVal v, check_presence p)
  | VRef l =>
      match h !! l with
      | Some (CObject props) =>
          let clone := map (fun kv => (fst kv, TVal (snd kv))) props in
          let '(clone', errs) :=
            check_children (abortEarly P) props children clone in
          let forbid := forbids_unknown P allow_unknown in
          let stop :=
            abortEarly P && match errs with [] => false | _ => true end in
          (TObj clone',
           if forbid && negb stop
           then errs ++ check_unknown (abortEarly P)
                          (unprocessed props (map fst children))
           else errs)
      | _ => (TVal v, [here object_base])
      end
  | _ => (TVal v, [here object_base])
  end.

Fixpoint check (P : prefs) (s : schema) (h : heap) (v : value)
  : tree * list detail :=
  match s with
  | number_schema rules p => check_number P rules p v
  | string_schema rules p => check_string P rules p v
  | object_schema keys u p =>
      check_object P u p h v
        (map (fun kc => (fst kc, check P (snd kc) h)) keys)
  end.

(** Allocation of the clones the validation made. *)
Fixpoint materialize_props (alloc : tree -> heap -> heap * JS.value)
    (props : list (jsstring * tree)) (h : heap) : heap * JS.object :=
  match props with
  | [] => (h, [])
  | (k, t) :: rest =>
      let '(h1, v) := alloc t h in
      let '(h2, rest') := materialize_props alloc rest h1 in
      (h2, (k, v) :: rest')
  end.

Fixpoint materialize (t : tree) (h : heap) : heap * JS.value :=
  match t with
  | TVal v => (h, v)
  | TObj props =>
      let '(h', props') := materialize_props materialize props h in
      let l := fresh (dom h') in
      (<[l := CObject props']> h', VRef l)
  end.

Record result := { value : JS.value; error : option ValidationError }.

(** [schema.validate(data, options)] *)
Definition validate (s : schema) (data : JS.value) (options : prefs) (h : heap)
  : heap * result :=
  let '(t, errs) := check options s h data in
  let '(h', v) := materialize t h in
  (h', {| value := v;
          error := match errs with
                   | [] => None
                   | _ => Some {| details := errs |}
                   end |}).

(** *** Schema builders, named as in the library *)

Definition number : schema := number_schema [] optional.
Definition string : schema := string_schema [] optional.
Definition object (keys : list (String.string * schema)) : schema :=
  object_schema (map (fun kc => (js (fst kc), snd kc)) keys) None optional.

Definition add_number_rule (r : number_rule) (s : schema) : schema :=
  match s with
  | number_schema rules p => number_schema (rules ++ [r]) p
  | _ => s
  end.

Definition integer : schema -> schema := add_number_rule rule_integer.
Definition positive : schema -> schema := add_number_rule rule_positive.
Definition min (limit : Q) : schema -> schema := add_number_rule (rule_min limit).
Definition max (limit : Q) : schema -> schema := add_number_rule (rule_max limit).

Definition uri (s : schema) : schema :=
  match s with
  | string_schema rules p => string_schema (rules ++ [rule_uri]) p
  | _ => s
  end.

Definition required (s : schema) : schema :=
  match s with
  | number_schema rules _ => number_schema rules required_flag
  | string_schema rules _ => string_schema rules required_flag
  | object_schema keys u _ => object_schema keys u required_flag
  end.

Definition unknown (allow : bool) (s : schema) : schema :=
  match s with
  | object_schema keys _ p => object_schema keys (Some allow) p
  | _ => s
  end.

End Joi.

(** ** Exceptions and abrupt completion

    A failed expectation throws the assertion error of the test framework;
    [Error] is the error assertSchema builds, whose message is the given
    prefix followed by the messages of the details. *)

Inductive exn :=
| JestAssertionError (matcher : String.string)
| TypeError (message : String.string)
| RangeError (message : String.string)
| Error (message : String.string) (details : list Joi.detail).

Inductive completion (A : Type) :=
| Normal (a : A)
| Throw (e : exn).
Arguments Normal {A} a.
Arguments Throw {A} e.

#[global] Instance completion_ret : MRet completion := @Normal.
#[global] Instance completion_bind : MBind completion :=
  fun A B f c =>
    match c with
    | Normal a => f a
    | Throw e => Throw e
    end.

Definition throws {A : Type} (c : completion A) : Prop :=
  exists e, c = Throw e.

(** [l.forEach(f)]: the first call that throws ends the loop. *)
Fixpoint forEach {A : Type} (f : A -> completion unit) (l : list A)
  : completion unit :=
  match l with
  | [] => Normal tt
  | x :: l' => f x;; forEach f l'
  end.

(** ** The assertion library (Jest matchers used by the helpers)

    [toBe] compares with Object.is; on the values modelled here, which have
    a single zero, that is the comparison SameValueZero. *)
Module Jest.

(** [expect(received).toBe(expected)] *)
Definition toBe (received expected : value) : completion unit :=
  if same_value_zero received expected then Normal tt
  else Throw (JestAssertionError "toBe").

(** [expect(received).not.toBe(expected)] *)
Definition not_toBe (received expected : value) : completion unit :=
  if same_value_zero received expected
  then Throw (JestAssertionError "not.toBe")
  else Normal tt.

(** [expect(received).toBeGreaterThan(expected)] on numbers *)
Definition toBeGreaterThan (received : number) (expected : Q)
  : completion unit :=
  match received with
  | PosInfinity => Normal tt
  | Fin q =>
      if negb (Qle_bool q expected) then Normal tt
      else Throw (JestAssertionError "toBeGreaterThan")
  | _ => Throw (JestAssertionError "toBeGreaterThan")
  end.

(** [expect(received).toBeGreaterThanOrEqual(expected)]: both sides must be
    numbers, the matcher throws otherwise. *)
Definition toBeGreaterThanOrEqual (received expected : value)
  : completion unit :=
  match received, expected with
  | VNum a, VNum b =>
      if number_leb b a then Normal tt
      else Throw (JestAssertionError "toBeGreaterThanOrEqual")
  | _, _ => Throw (JestAssertionError "toBeGreaterThanOrEqual")
  end.

(** [expect(received).toBeLessThanOrEqual(expected)] *)
Definition toBeLessThanOrEqual (received expected : value)
  : completion unit :=
  match received, expected with
  | VNum a, VNum b =>
      if number_leb a b then Normal tt
      else Throw (JestAssertionError "toBeLessThanOrEqual")
  | _, _ => Throw (JestAssertionError "toBeLessThanOrEqual")
  end.

(** [expect(received).toContain(expected)] on what a header read returns, a
    string or null: the expected text occurs in the string; the matcher
    throws on null. *)
Definition toContain (received : option jsstring) (expected : jsstring)
  : completion unit :=
  match received with
  | Some s =>
      if occurs s expected then Normal tt
      else Throw (JestAssertionError "toContain")
  | None => Throw (JestAssertionError "toContain")
  end.

(** [expect(received).toContain(expected)] on an array literal: some item
    is strictly equal to the expected one. *)
Definition toContain_item (received : list value) (expected : value)
  : completion unit :=
  if existsb (strict_equal expected) received then Normal tt
  else Throw (JestAssertionError "toContain").

(** [expect(received).toBeDefined()] *)
Definition toBeDefined (received : value) : completion unit :=
  if strict_equal received VUndefined
  then Throw (JestAssertionError "toBeDefined")
  else Normal tt.

(** [expect(received).toHaveProperty(name)] for the names the helpers ask
    for (id, title, price, description, category, image, rating, rate and
    count): names without path syntax, which no primitive, array or function
    carries. The property may be inherited and may hold undefined; the
    matcher throws on null and undefined. *)
Definition toHaveProperty (h : heap) (proto : object) (received : value)
    (name : jsstring) : completion unit :=
  match received with
  | VRef l =>
      match h !! l with
      | Some (CObject props) =>
          if has_property proto props name then Normal tt
          else Throw (JestAssertionError "toHaveProperty")
      | _ => Throw (JestAssertionError "toHaveProperty")
      end
  | _ => Throw (JestAssertionError "toHaveProperty")
  end.

End Jest.

(** ** utils/assertions.js *)
Module Assertions.

(** Assert string is not empty. The two reads [str.length] and [str.trim()]
    come after the type expectation, which has thrown for every value that
    is not a string. *)
Definition assertStringNotEmpty (h : heap) (str : value) : completion unit :=
  Jest.toBe (VStr (typeof h str)) (JS.str "string");;
  match str with
  | VStr s =>
      Jest.toBeGreaterThan (Fin (inject_Z (Z.of_nat (length s)))) 0;;
      Jest.not_toBe (VStr (trim s)) (JS.str "")
  | _ => Throw (TypeError "not a string")
  end.

(** What the helpers read of a response of the HTTP library: the status,
    [headers.get(name)] (null for a header that is not set) and the parsed
    body. *)
Record response := {
  status : value;
  headers_get : jsstring -> option jsstring;
  json : value
}.

(** Assert status code *)
Definition assertStatusCode (response : response) (expectedStatus : value)
  : completion unit :=
  Jest.toBe (status response) expectedStatus.

(** [v[name]] for such a name: reading a property of null or undefined
    throws; the other values that are not plain objects read as undefined. *)
Definition property (h : heap) (proto : object) (v : value) (name : jsstring)
  : completion value :=
  match v with
  | VUndefined | VNull =>
      Throw (TypeError "Cannot read properties of undefined")
  | VRef l =>
      match h !! l with
      | Some (CObject props) => Normal (member proto props name)
      | _ => Normal VUndefined
      end
  | _ => Normal VUndefined
  end.

(** Assert response has required fields *)
Definition assertRequiredFields (h : heap) (proto : object)
    (responseBody : value) (requiredFields : list jsstring)
  : completion unit :=
  forEach
    (fun field =>
       Jest.toHaveProperty h proto responseBody field;;
       v ← property h proto responseBody field;
       Jest.toBeDefined v)
    requiredFields.

(** Assert response field type *)
Definition assertFieldType (h : heap) (proto : object) (responseBody : value)
    (field : jsstring) (expectedType : value) : completion unit :=
  Jest.toHaveProperty h proto responseBody field;;
  v ← property h proto responseBody field;
  Jest.toBe (VStr (typeof h v)) expectedType.

(** [expect(typeof product.name).toBe(type)] *)
Definition expect_typeof (h : heap) (proto : object) (product : value)
    (name : jsstring) (type : String.string) : completion unit :=
  v ← property h proto product name;
  Jest.toBe (VStr (typeof h v)) (JS.str type).

(** Assert product structure *)
Definition assertProductStructure (h : heap) (proto : object)
    (product includeRating : value) : completion unit :=
  let includeRating :=
    match includeRating with VUndefined => VBool true | v => v end in
  let requiredFields :=
    [js "id"; js "title"; js "price"; js "description"; js "category";
     js "image"]
    ++ (if truthy includeRating then [js "rating"] else []) in
  assertRequiredFields h proto product requiredFields;;
  expect_typeof h proto product (js "id") "number";;
  expect_typeof h proto product (js "title") "string";;
  expect_typeof h proto product (js "price") "number";;
  expect_typeof h proto product (js "description") "string";;
  expect_typeof h proto product (js "category") "string";;
  expect_typeof h proto product (js "image") "string";;
  if truthy includeRating then
    expect_typeof h proto product (js "rating") "object";;
    rating ← property h proto product (js "rating");
    Jest.toHaveProperty h proto rating (js "rate");;
    Jest.toHaveProperty h proto rating (js "count")
  else Normal tt.

(** Assert product data matches expected. [proto] holds what the actual
    object inherits. *)
Definition assertProductData (proto : object) (actual expected : object)
  : completion unit :=
  forEach
    (fun key => Jest.toBe (member proto actual key) (get expected key))
    (map fst expected).

(** Assert array contains items. The read [arr.length] comes after the
    expectation that has thrown for every value that is not an array. *)
Definition assertArrayNotEmpty (h : heap) (arr minLength : value)
  : completion unit :=
  let minLength := match minLength with VUndefined => num 1 | v => v end in
  Jest.toBe (VBool (isArray h arr)) (VBool true);;
  match arr with
  | VRef l =>
      match h !! l with
      | Some (CArray elems) =>
          Jest.toBeGreaterThanOrEqual (num (Z.of_nat (length elems))) minLength
      | _ => Throw (TypeError "not an array")
      end
  | _ => Throw (TypeError "not an array")
  end.

(** Assert content type header *)
Definition assertContentType (response : response)
    (expectedType : option jsstring) : completion unit :=
  let expectedType := default (js "application/json") expectedType in
  let contentType := headers_get response (js "content-type") in
  Jest.toContain contentType expectedType.

(** Assert numeric value is within range *)
Definition assertInRange (value min max : value) : completion unit :=
  Jest.toBeGreaterThanOrEqual value min;;
  Jest.toBeLessThanOrEqual value max.

End Assertions.

(** ** utils/schemaValidator.js *)
Module SchemaValidator.

(** Product Rating Schema *)
Definition ratingSchema : Joi.schema :=
  Joi.object
    [("rate", Joi.number |> Joi.min 0 |> Joi.max 5 |> Joi.required);
     ("count", Joi.number |> Joi.integer |> Joi.min 0 |> Joi.required)].

(** Complete Product Schema (for GET responses with rating) *)
Definition productSchema : Joi.schema :=
  Joi.object
    [("id", Joi.number |> Joi.integer |> Joi.positive |> Joi.required);
     ("title", Joi.string |> Joi.required);
     ("price", Joi.number |> Joi.positive |> Joi.required);
     ("description", Joi.string |> Joi.required);
     ("category", Joi.string |> Joi.required);
     ("image", Joi.string |> Joi.uri |> Joi.required);
     ("rating", ratingSchema)].

(** Product Schema without Rating (for POST/PUT responses) *)
Definition productSchemaWithoutRating : Joi.schema :=
  Joi.object
    [("id", Joi.number |> Joi.integer |> Joi.positive |> Joi.required);
     ("title", Joi.string |> Joi.required);
     ("price", Joi.number |> Joi.min 0 |> Joi.required);
     ("description", Joi.string |> Joi.required);
     ("category", Joi.string |> Joi.required);
     ("image", Joi.string |> Joi.uri |> Joi.required)].

(** Product Creation Schema (request body) *)
Definition createProductSchema : Joi.schema :=
  Joi.object
    [("title", Joi.string |> Joi.required);
     ("price", Joi.number |> Joi.positive |> Joi.required);
     ("description", Joi.string |> Joi.required);
     ("category", Joi.string |> Joi.required);
     ("image", Joi.string |> Joi.uri |> Joi.required)].

(** Error Response Schema *)
Definition errorSchema : Joi.schema :=
  Joi.object
    [("message", Joi.string);
     ("error", Joi.string);
     ("statusCode", Joi.number)]
  |> Joi.unknown true.

(** Validate response against schema:
    [schema.validate(data, { abortEarly: false })] *)
Definition validateSchema (data : value) (schema : Joi.schema) (h : heap)
  : heap * Joi.result :=
  Joi.validate schema data (Joi.with_abortEarly false Joi.defaults) h.

(** Assert that data matches schema *)
Definition assertSchema (data : value) (schema : Joi.schema) (h : heap)
  : heap * completion unit :=
  let '(h', r) := validateSchema data schema h in
  (h',
   match Joi.error r with
   | Some e => Throw (Error "Schema validation failed: " (Joi.details e))
   | None => Normal tt
   end).

(** The validation of [data] reports the rule [c] at [path]. *)
Definition reports (data : value) (schema : Joi.schema) (h : heap)
    (path : list jsstring) (c : Joi.code) : Prop :=
  exists e,
    Joi.error (snd (validateSchema data schema h)) = Some e /\
    In (Joi.Detail path c) (Joi.details e).

(** The fields of a creation payload. *)
Definition creation_fields : list jsstring :=
  [js "title"; js "price"; js "description"; js "category"; js "image"].

(** The shapes of a product that carry a price. *)
Definition product_shapes : list Joi.schema :=
  [productSchema; productSchemaWithoutRating; createProductSchema].

End SchemaValidator.

(** ** utils/responseValidator.js *)
Module ResponseValidator.

Import Assertions SchemaValidator.

(** Validate successful GET response *)
Definition validateGetResponse (response : response) (validateProduct : value)
    (h : heap) : heap * completion unit :=
  let validateProduct :=
    match validateProduct with VUndefined => VBool true | v => v end in
  match
    assertStatusCode response (num 200);;
    assertContentType response (Some (js "application/json"))
  with
  | Throw e => (h, Throw e)
  | Normal _ =>
      if truthy validateProduct then
        let '(h', r) := validateSchema (json response) productSchema h in
        (h',
         match Joi.error r with
         | Some e =>
             Throw (Error "Product schema validation failed: " (Joi.details e))
         | None => Normal tt
         end)
      else (h, Normal tt)
  end.

(** Validate successful POST response *)
Definition validatePostResponse (h : heap) (proto : object)
    (response : response) : completion unit :=
  let validStatuses := [num 200; num 201] in
  Jest.toContain_item validStatuses (status response);;
  assertContentType response (Some (js "application/json"));;
  Jest.toHaveProperty h proto (json response) (js "id");;
  expect_typeof h proto (json response) (js "id") "number".

(** Validate successful PUT response *)
Definition validatePutResponse (h : heap) (proto : object)
    (response : response) : completion unit :=
  assertStatusCode response (num 200);;
  assertContentType response (Some (js "application/json"));;
  Jest.toHaveProperty h proto (json response) (js "id").

(** Validate successful DELETE response *)
Definition validateDeleteResponse (response : response) : completion unit :=
  assertStatusCode response (num 200);;
  assertContentType response (Some (js "application/json")).

(** Validate error response (4xx, 5xx) *)
Definition validateErrorResponse (response : response) (expectedStatus : value)
  : completion unit :=
  assertStatusCode response expectedStatus.

(** Validate product fields match submitted data *)
Definition validateProductMatchesSubmittedData (proto : object)
    (responseProduct submittedData : object) : completion unit :=
  forEach
    (fun key =>
       Jest.toBe (member proto responseProduct key) (get submittedData key))
    (map fst submittedData).

(** Validate array response *)
Definition validateArrayResponse (h : heap) (response : response)
    (minLength : value) : completion unit :=
  let minLength := match minLength with VUndefined => num 1 | v => v end in
  assertStatusCode response (num 200);;
  Jest.toBe (VBool (isArray h (json response))) (VBool true);;
  match json response with
  | VRef l =>
      match h !! l with
      | Some (CArray elems) =>
          Jest.toBeGreaterThanOrEqual (num (Z.of_nat (length elems))) minLength
      | _ => Throw (TypeError "not an array")
      end
  | _ => Throw (TypeError "not an array")
  end.

End ResponseValidator.

(** ** utils/testDataGenerator.js *)
Module TestDataGenerator.

(** The results of the successive calls of [Math.random()], each in [0,1). *)
Definition random_source := nat -> Q.

Definition Math_random (r : random_source) : Q * random_source :=
  (r 0%nat, fun n => r (S n)).

Definition valid_source (r : random_source) : Prop :=
  forall n, (0 <= r n)%Q /\ (r n < 1)%Q.

Definition Math_floor (x : Q) : Z := Qfloor x.

(** [s.charAt(i)]: the empty string out of range. *)
Definition charAt (s : jsstring) (i : Z) : jsstring :=
  if i <? 0 then []
  else match nth_error s (Z.to_nat i) with
       | Some c => [c]
       | None => []
       end.

Definition chars : jsstring :=
  js "ABCDEFGHIJKLMNOPQRSTUVWXYZabcdefghijklmnopqrstuvwxyz0123456789".

(** Generate random string *)
Fixpoint generateRandomString (length : nat) (r : random_source)
  : jsstring * random_source :=
  match length with
  | O => ([], r)
  | S n =>
      let '(x, r1) := Math_random r in
      let c :=
        charAt chars
          (Math_floor (x * inject_Z (Z.of_nat (List.length chars)))) in
      let '(rest, r2) := generateRandomString n r1 in
      (c ++ rest, r2)
  end.

(** The multiple of [10^-d] nearest to [x], ties away from zero. *)
Definition round_to (x : Q) (decimals : nat) : Q :=
  let p := 10 ^ Z.of_nat decimals in
  let n := Qfloor (Qabs x * inject_Z p + (1 # 2)) in
  Qmake (if Qle_bool 0 x then n else - n) (Z.to_pos p).

(** [parseFloat(x.toFixed(d))]: the number with [d] decimals nearest to
    [x]; more than 100 decimals is a RangeError. The rounding is that of the
    exact value, where the code rounds the double that holds it. *)
Definition toFixed (x : Q) (decimals : nat) : completion Q :=
  if (100 <? decimals)%nat
  then Throw (RangeError "toFixed() digits argument must be between 0 and 100")
  else Normal (round_to x decimals).

(** Generate random number within range *)
Definition generateRandomNumber (min max : Q) (decimals : nat)
    (r : random_source) : completion (Q * random_source) :=
  let '(x, r1) := Math_random r in
  let num := (x * (max - min) + min)%Q in
  n ← toFixed num decimals;
  mret (n, r1).

Definition categories : list jsstring :=
  [js "electronics"; js "jewelery"; js "men's clothing";
   js "women's clothing"].

(** [a[i]] on an array literal *)
Definition index (a : list jsstring) (i : Z) : value :=
  if i <? 0 then VUndefined
  else match nth_error a (Z.to_nat i) with
       | Some s => VStr s
       | None => VUndefined
       end.

Definition default_title (r : random_source) : value * random_source :=
  let '(s, r1) := generateRandomString 5 r in
  (VStr (js "Test Product " ++ s), r1).

(** [generateRandomNumber(1, 999, 2)]; two decimals are within what toFixed
    takes, so the call returns. *)
Definition default_price (r : random_source) : value * random_source :=
  match generateRandomNumber 1 999 2 r with
  | Normal (x, r1) => (VNum (Fin x), r1)
  | Throw _ => (VUndefined, r)
  end.

Definition default_description (r : random_source) : value * random_source :=
  let '(s, r1) := generateRandomString 20 r in
  (VStr (js "Test product description " ++ s), r1).

Definition default_image (r : random_source) : value * random_source :=
  (str "https://fakestoreapi.com/img/test.jpg", r).

Definition default_category (r : random_source) : value * random_source :=
  let '(x, r1) := Math_random r in
  (index categories
     (Math_floor (x * inject_Z (Z.of_nat (List.length categories)))), r1).

(** [a || b()], the right operand evaluated only when needed *)
Definition or_else (a : value) (b : random_source -> value * random_source)
    (r : random_source) : value * random_source :=
  if truthy a then (a, r) else b r.

(** The default of every field of the literal; the four taken through
    [||] replace any falsy override, the price only an undefined one. *)
Definition defaults : list (jsstring * (random_source -> value * random_source)) :=
  [(js "title", default_title); (js "price", default_price);
   (js "description", default_description); (js "image", default_image);
   (js "category", default_category)].

Definition or_defaults : list (jsstring * (random_source -> value * random_source)) :=
  [(js "title", default_title);
   (js "description", default_description); (js "image", default_image);
   (js "category", default_category)].

(** The state of the source after [n] more calls. *)
Definition later (n : nat) (r : random_source) : random_source :=
  fun i => r (n + i)%nat.

(** The five properties the object literal spells out, before the spread. *)
Definition fields (overrides : object) (r : random_source)
  : object * random_source :=
  let '(title, r1) := or_else (get overrides (js "title")) default_title r in
  let '(price, r2) :=
    if negb (strict_equal (get overrides (js "price")) VUndefined)
    then (get overrides (js "price"), r1)
    else default_price r1 in
  let '(description, r3) :=
    or_else (get overrides (js "description")) default_description r2 in
  let '(image, r4) := or_else (get overrides (js "image")) default_image r3 in
  let '(category, r5) :=
    or_else (get overrides (js "category")) default_category r4 in
  ([(js "title", title); (js "price", price);
    (js "description", description); (js "image", image);
    (js "category", category)],
   r5).

(** Generate random product data *)
Definition generateProductData (overrides : object) (r : random_source)
  : object * random_source :=
  let '(literal, r') := fields overrides r in
  (spread literal overrides, r').

(** Generate product with zero price (boundary value) *)
Definition generateZeroPriceProduct (r : random_source)
  : object * random_source :=
  generateProductData [(js "price", num 0)] r.

(** Generate product with empty string (invalid) *)
Definition generateEmptyStringProduct (field : jsstring) (r : random_source)
  : object * random_source :=
  generateProductData [(field, str "")] r.

(** Generate product with minimum price (boundary value) *)
Definition generateMinPriceProduct (r : random_source)
  : object * random_source :=
  generateProductData [(js "price", VNum (Fin (1 # 100)))] r.

(** Generate product with negative price (invalid) *)
Definition generateNegativePriceProduct (r : random_source)
  : object * random_source :=
  generateProductData [(js "price", num (-50))] r.

(** Generate product with missing required field; an omitted argument is
    ['title']. *)
Definition generateIncompleteProduct (fieldToRemove : option jsstring)
    (r : random_source) : object * random_source :=
  let fieldToRemove := default (js "title") fieldToRemove in
  let '(product, r') := generateProductData [] r in
  (delete_key product fieldToRemove, r').

(** Generate product with invalid data type; an omitted or undefined
    argument takes its default. *)
Definition generateInvalidTypeProduct (field : option jsstring)
    (invalidValue : value) (r : random_source) : object * random_source :=
  let field := default (js "price") field in
  let invalidValue :=
    match invalidValue with VUndefined => str "invalid_price" | v => v end in
  generateProductData [(field, invalidValue)] r.

(** Generate product with very long string (boundary value) *)
Definition generateLongStringProduct (field : option jsstring)
    (r : random_source) : object * random_source :=
  let field := default (js "title") field in
  let '(long, r1) := generateRandomString 1000 r in
  generateProductData [(field, VStr long)] r1.

(** Generate batch of products: the loop runs while [i < count]. *)
Fixpoint generateProductBatch_loop (n : nat) (r : random_source)
  : list object * random_source :=
  match n with
  | O => ([], r)
  | S n' =>
      let '(product, r1) := generateProductData [] r in
      let '(products, r2) := generateProductBatch_loop n' r1 in
      (product :: products, r2)
  end.

Definition generateProductBatch (count : option Z) (r : random_source)
  : list object * random_source :=
  let count := default 5 count in
  generateProductBatch_loop (Z.to_nat count) r.

(** Get valid product ID (within range 1-20) *)
Definition getValidProductId (r : random_source) : Z * random_source :=
  let '(x, r1) := Math_random r in
  (Math_floor (x * 20) + 1, r1).

(** Get boundary product IDs *)
Definition getBoundaryProductIds : object :=
  [(js "min", num 1); (js "max", num 20)].

(** Get invalid product ID (out of range) *)
Definition getInvalidProductId (r : random_source) : Z * random_source :=
  let '(x, r1) := Math_random r in
  (Math_floor (x * 9000) + 1000, r1).

(** Get non-numeric product ID *)
Definition getNonNumericProductId (r : random_source)
  : jsstring * random_source :=
  generateRandomString 5 r.

End TestDataGenerator.

(** ** utils/testHelpers.js *)
Module TestHelpers.

(** *** Test context *)

(** The fields of a context object; [createdProducts] holds a reference to
    an array in the heap. *)
Record TestContext := {
  createdProducts : loc;
  testStartTime : value;
  testEndTime : value
}.

(** [arr.includes(x)] *)
Definition includes (elems : list value) (x : value) : bool :=
  existsb (same_value_zero x) elems.

(** [new TestContext()] *)
Definition constructor (h : heap) : TestContext * heap :=
  let l := fresh (dom h) in
  ({| createdProducts := l; testStartTime := VNull; testEndTime := VNull |},
   <[l := CArray []]> h).

(** The array the context refers to. *)
Definition created (ctx : TestContext) (h : heap) : list value :=
  match h !! createdProducts ctx with
  | Some (CArray elems) => elems
  | _ => []
  end.

(** Add created product ID for cleanup. A field that refers to no array
    does not arise from the constructor and the methods. *)
Definition addCreatedProduct (productId : value) (ctx : TestContext)
    (h : heap) : TestContext * heap :=
  match h !! createdProducts ctx with
  | Some (CArray elems) =>
      if truthy productId && negb (includes elems productId)
      then (ctx, <[createdProducts ctx := CArray (elems ++ [productId])]> h)
      else (ctx, h)
  | _ => (ctx, h)
  end.

(** Get all created product IDs: a new array holding the same elements *)
Definition getCreatedProducts (ctx : TestContext) (h : heap) : value * heap :=
  let l := fresh (dom h) in
  (VRef l, <[l := CArray (created ctx h)]> h).

(** Clear created products: the field is pointed at a new empty array *)
Definition clearCreatedProducts (ctx : TestContext) (h : heap)
  : TestContext * heap :=
  let l := fresh (dom h) in
  ({| createdProducts := l;
      testStartTime := testStartTime ctx;
      testEndTime := testEndTime ctx |},
   <[l := CArray []]> h).

(** ToNumber on what a timestamp field holds: null until the timer has
    run, a clock reading afterwards. *)
Definition timestamp (v : value) : number :=
  match v with
  | VNum n => n
  | VNull => Fin 0
  | _ => NaN
  end.

(** Start test timer; [now] is the reading of [Date.now()]. *)
Definition startTimer (now : Z) (ctx : TestContext) : TestContext :=
  {| createdProducts := createdProducts ctx;
     testStartTime := num now;
     testEndTime := testEndTime ctx |}.

(** Stop test timer and return duration *)
Definition stopTimer (now : Z) (ctx : TestContext) : value * TestContext :=
  let ctx' :=
    {| createdProducts := createdProducts ctx;
       testStartTime := testStartTime ctx;
       testEndTime := num now |} in
  (VNum (number_sub (timestamp (testEndTime ctx'))
                    (timestamp (testStartTime ctx'))),
   ctx').

(** Get test duration *)
Definition getDuration (ctx : TestContext) : value :=
  if truthy (testStartTime ctx) && truthy (testEndTime ctx)
  then VNum (number_sub (timestamp (testEndTime ctx))
                        (timestamp (testStartTime ctx)))
  else num 0.

Inductive operation :=
| Add (productId : value)
| Clear.

Definition step (s : TestContext * heap) (o : operation)
  : TestContext * heap :=
  match o with
  | Add productId => addCreatedProduct productId (fst s) (snd s)
  | Clear => clearCreatedProducts (fst s) (snd s)
  end.

Definition run (ops : list operation) (s : TestContext * heap)
  : TestContext * heap :=
  fold_left step ops s.

(** No two elements at different positions are equal for [includes]. *)
Fixpoint distinct (elems : list value) : bool :=
  match elems with
  | [] => true
  | x :: rest => negb (includes rest x) && distinct rest
  end.

(** What every reachable state satisfies: the field refers to an array of
    the heap whose elements are truthy and pairwise different. *)
Definition well_formed (s : TestContext * heap) : Prop :=
  snd s !! createdProducts (fst s) = Some (CArray (created (fst s) (snd s)))
  /\ distinct (created (fst s) (snd s)) = true
  /\ forallb truthy (created (fst s) (snd s)) = true.

(** *** Retry with exponential backoff *)

Inductive event :=
| Called
| Logged (remaining : Z)
| Waited (ms : Z).

Section Retry.

(** The function under retry acts on a world of its own; [elapse] is what
    a pause of the given length does to that world. *)
Context {World : Type}.
Variable fn : World -> completion value * World.
Variable elapse : Z -> World -> World.

(** Retry function with exponential backoff. The recursion of the source
    is unbounded, so the model takes the number of invocations it may
    make; [None] is a run that needs more. *)
Fixpoint retryWithBackoff (fuel : nat) (retries delay : Z) (w : World)
  : option (completion value * World * list event) :=
  match fuel with
  | O => None
  | S fuel' =>
      match fn w with
      | (Normal v, w1) => Some (Normal v, w1, [Called])
      | (Throw error, w1) =>
          if retries =? 0 then Some (Throw error, w1, [Called])
          else
            match
              retryWithBackoff fuel' (retries - 1) (delay * 2)
                (elapse delay w1)
            with
            | Some (r, w2, trace) =>
                Some (r, w2, Called :: Logged retries :: Waited delay :: trace)
            | None => None
            end
      end
  end.

(** The world in which the [k]-th invocation (from 0) starts. *)
Fixpoint world_at (k : nat) (delay : Z) (w : World) : World :=
  match k with
  | O => w
  | S k' => world_at k' (delay * 2) (elapse delay (snd (fn w)))
  end.

Definition attempt (k : nat) (delay : Z) (w : World) : completion value :=
  fst (fn (world_at k delay w)).

End Retry.

(** The delays of [k] pauses that start at [delay] and double. *)
Fixpoint backoff (k : nat) (delay : Z) : list Z :=
  match k with
  | O => []
  | S k' => delay :: backoff k' (delay * 2)
  end.

(** The events of a run that fails [k] times before its last invocation. *)
Fixpoint trace_of (k : nat) (retries delay : Z) : list event :=
  match k with
  | O => [Called]
  | S k' =>
      Called :: Logged retries :: Waited delay
        :: trace_of k' (retries - 1) (delay * 2)
  end.

Definition calls (trace : list event) : nat :=
  length (List.filter (fun e => match e with Called => true | _ => false end) trace).

Definition waits (trace : list event) : list Z :=
  flat_map (fun e => match e with Waited ms => [ms] | _ => [] end) trace.

End TestHelpers.

(** ** config/environment.js *)
Module Environment.

Record profile := {
  baseURL : jsstring;
  timeout : Z;
  retryAttempts : Z;
  logLevel : jsstring
}.

Definition environments : list (jsstring * profile) :=
  [(js "development",
    {| baseURL := js "https://fakestoreapi.com"; timeout := 10000;
       retryAttempts := 3; logLevel := js "debug" |});
   (js "test",
    {| baseURL := js "https://fakestoreapi.com"; timeout := 10000;
       retryAttempts := 3; logLevel := js "debug" |});
   (js "staging",
    {| baseURL := js "https://fakestoreapi.com"; timeout := 8000;
       retryAttempts := 2; logLevel := js "info" |});
   (js "production",
    {| baseURL := js "https://fakestoreapi.com"; timeout := 5000;
       retryAttempts := 1; logLevel := js "error" |})].

(** The property names an object literal inherits from Object.prototype. *)
Definition Object_prototype_keys : list jsstring :=
  [js "constructor"; js "__defineGetter__"; js "__defineSetter__";
   js "hasOwnProperty"; js "__lookupGetter__"; js "__lookupSetter__";
   js "isPrototypeOf"; js "propertyIsEnumerable"; js "toString";
   js "valueOf"; js "__proto__"; js "toLocaleString"].

(** What [environments[name]] evaluates to: a profile, a built-in member
    found on the prototype, or undefined. *)
Inductive config_value :=
| Profile (p : profile)
| Inherited (name : jsstring)
| Undefined.

Fixpoint own_profile (envs : list (jsstring * profile)) (name : jsstring)
  : option profile :=
  match envs with
  | [] => None
  | (k, p) :: envs' => if jsstring_eqb k name then Some p else own_profile envs' name
  end.

Definition entry (name : jsstring) : config_value :=
  match own_profile environments name with
  | Some p => Profile p
  | None =>
      if existsb (jsstring_eqb name) Object_prototype_keys
      then Inherited name
      else Undefined
  end.

(** [process.env.NODE_ENV || 'development']; an unset variable reads as
    [None]. *)
Definition currentEnv (NODE_ENV : option jsstring) : jsstring :=
  match NODE_ENV with
  | Some name => if truthy (VStr name) then name else js "development"
  | None => js "development"
  end.

Definition config (NODE_ENV : option jsstring) : config_value :=
  entry (currentEnv NODE_ENV).

(** [config.field]: reading a field of undefined throws; the built-in
    members carry no such field. *)
Definition read {A : Type} (c : config_value) (field : profile -> A)
    (inj : A -> value) : completion value :=
  match c with
  | Profile p => Normal (inj (field p))
  | Inherited _ => Normal VUndefined
  | Undefined => Throw (TypeError "Cannot read properties of undefined")
  end.

(** Valid product ID range *)
Definition validProductRange : object :=
  [(js "min", num 1); (js "max", num 20)].

(** API Endpoints *)
Definition products : jsstring := js "/products".

(** An integer inside a template literal: its decimal digits. *)
Definition decimal (z : Z) : jsstring :=
  js (NilZero.string_of_int (Z.to_int z)).

Definition productById (id : Z) : jsstring := js "/products/" ++ decimal id.

End Environment.

(** ** utils/apiClient.js *)
Module ApiClient.

Import Environment.

Record ApiClient := { client_baseURL : value }.

(** [constructor()]: [this.baseURL = config.baseURL] *)
Definition constructor (c : config_value) : completion ApiClient :=
  b ← read c baseURL VStr;
  mret {| client_baseURL := b |}.

(** String conversion inside a template literal, for the values a base URL
    can be. *)
Definition template (v : value) : jsstring :=
  match v with
  | VStr s => s
  | VUndefined => js "undefined"
  | VNull => js "null"
  | VBool true => js "true"
  | VBool false => js "false"
  | _ => js "[object Object]"
  end.

(** Build full URL from endpoint *)
Definition buildUrl (this : ApiClient) (endpoint : jsstring) : jsstring :=
  template (client_baseURL this) ++ endpoint.

Inductive method := GET | POST | PUT | DELETE | PATCH.

(** The request handed to the HTTP library. *)
Record request := {
  verb : method;
  url : jsstring;
  body : option value;
  request_timeout : value
}.

Definition send (c : config_value) (this : ApiClient) (m : method)
    (endpoint : jsstring) (b : option value) : completion request :=
  let u := buildUrl this endpoint in
  t ← read c timeout (fun z => num z);
  mret {| verb := m; url := u; body := b; request_timeout := t |}.

Definition get c this endpoint := send c this GET endpoint None.
Definition post c this endpoint b := send c this POST endpoint (Some b).
Definition put c this endpoint b := send c this PUT endpoint (Some b).
Definition delete c this endpoint := send c this DELETE endpoint None.
Definition patch c this endpoint b := send c this PATCH endpoint (Some b).

(** A call on the instance the module exports: [module.exports = new
    ApiClient()] runs when the module is loaded. *)
Definition exported (NODE_ENV : option jsstring) : completion ApiClient :=
  constructor (config NODE_ENV).

Definition call (NODE_ENV : option jsstring) (m : method)
    (endpoint : jsstring) (b : option value) : completion request :=
  this ← exported NODE_ENV;
  send (config NODE_ENV) this m endpoint b.

(** Get all products *)
Definition getAllProducts (NODE_ENV : option jsstring) : completion request :=
  call NODE_ENV GET products None.

(** Create new product *)
Definition createProduct (NODE_ENV : option jsstring) (productData : value)
  : completion request :=
  call NODE_ENV POST products (Some productData).

(** Get single product by ID *)
Definition getProductById (NODE_ENV : option jsstring) (id : Z)
  : completion request :=
  call NODE_ENV GET (productById id) None.

(** Update product *)
Definition updateProduct (NODE_ENV : option jsstring) (id : Z)
    (productData : value) : completion request :=
  call NODE_ENV PUT (productById id) (Some productData).

(** Delete product *)
Definition deleteProduct (NODE_ENV : option jsstring) (id : Z)
  : completion request :=
  call NODE_ENV DELETE (productById id) None.

End ApiClient.

(** ** The violated rules of a shape

    Two readings of a violated rule, stated without reference to the order
    in which the validator works. Under the first, [violation], a rule of a
    typed shape applies to the values that pass the type check of the shape,
    and a value that fails the check violates the type rule alone: a number
    is a finite number of the safe range, or a string holding a decimal
    literal, read as the number it denotes; a string is a non-empty string;
    an object is a plain object. Under the second, [broken], which is the
    reading of the specification, a rule is violated by every value that
    does not satisfy it. *)
Module Spec.

Import Joi.

Definition presence_of (s : schema) : presence :=
  match s with
  | number_schema _ p | string_schema _ p | object_schema _ _ p => p
  end.

Definition is_plain_object (h : heap) (v : JS.value) : Prop :=
  exists l props, v = VRef l /\ h !! l = Some (CObject props).

Inductive violation (h : heap)
  : schema -> JS.value -> list jsstring -> code -> Prop :=
| missing s :
    presence_of s = required_flag ->
    violation h s VUndefined [] any_required
| not_a_number rules p v :
    coerce_number v <> VUndefined ->
    (forall n, coerce_number v = VNum n -> n = NaN) ->
    violation h (number_schema rules p) v [] number_base
| infinite_number rules p v :
    coerce_number v = VNum PosInfinity \/ coerce_number v = VNum NegInfinity ->
    violation h (number_schema rules p) v [] number_infinity
| unsafe_number rules p v q :
    coerce_number v = VNum (Fin q) -> is_safe q = false ->
    violation h (number_schema rules p) v [] number_unsafe
| number_rule_broken rules p v q r :
    coerce_number v = VNum (Fin q) -> is_safe q = true ->
    In r rules -> number_rule_holds r q = false ->
    violation h (number_schema rules p) v [] (number_rule_code r)
| not_a_string rules p v :
    v <> VUndefined -> (forall s, v <> VStr s) ->
    violation h (string_schema rules p) v [] string_base
| empty_string rules p :
    violation h (string_schema rules p) (VStr []) [] string_empty
| string_rule_broken rules p s r :
    s <> [] -> In r rules -> string_rule_holds r s = false ->
    violation h (string_schema rules p) (VStr s) [] (string_rule_code r)
| not_an_object keys u p v :
    v <> VUndefined -> ~ is_plain_object h v ->
    violation h (object_schema keys u p) v [] object_base
| in_child keys u p l props k child path c :
    h !! l = Some (CObject props) ->
    In (k, child) keys ->
    violation h child (get props k) path c ->
    violation h (object_schema keys u p) (VRef l) (k :: path) c
| unknown_key keys u p l props k :
    h !! l = Some (CObject props) ->
    u <> Some true ->
    In k (map fst props) -> ~ In k (map fst keys) ->
    violation h (object_schema keys u p) (VRef l) [k] object_unknown.

Definition conforms (h : heap) (s : schema) (v : JS.value) : Prop :=
  forall path c, ~ violation h s v path c.

(** *** Every violated rule, in the words of the specification

    A rule of a field is violated by a value that does not satisfy it,
    whether or not the value passes the type check of the field: a number
    outside the safe range that exceeds a maximum violates the maximum, and
    the empty string violates a rule on the form of a string. *)
Inductive broken (h : heap)
  : schema -> JS.value -> list jsstring -> code -> Prop :=
| broken_missing s :
    presence_of s = required_flag ->
    broken h s VUndefined [] any_required
| broken_not_a_number rules p v :
    coerce_number v <> VUndefined ->
    (forall n, coerce_number v = VNum n -> n = NaN) ->
    broken h (number_schema rules p) v [] number_base
| broken_infinite_number rules p v :
    coerce_number v = VNum PosInfinity \/ coerce_number v = VNum NegInfinity ->
    broken h (number_schema rules p) v [] number_infinity
| broken_unsafe_number rules p v q :
    coerce_number v = VNum (Fin q) -> is_safe q = false ->
    broken h (number_schema rules p) v [] number_unsafe
| broken_number_rule rules p v q r :
    coerce_number v = VNum (Fin q) ->
    In r rules -> number_rule_holds r q = false ->
    broken h (number_schema rules p) v [] (number_rule_code r)
| broken_not_a_string rules p v :
    v <> VUndefined -> (forall s, v <> VStr s) ->
    broken h (string_schema rules p) v [] string_base
| broken_empty_string rules p :
    broken h (string_schema rules p) (VStr []) [] string_empty
| broken_string_rule rules p s r :
    In r rules -> string_rule_holds r s = false ->
    broken h (string_schema rules p) (VStr s) [] (string_rule_code r)
| broken_not_an_object keys u p v :
    v <> VUndefined -> ~ is_plain_object h v ->
    broken h (object_schema keys u p) v [] object_base
| broken_in_child keys u p l props k child path c :
    h !! l = Some (CObject props) ->
    In (k, child) keys ->
    broken h child (get props k) path c ->
    broken h (object_schema keys u p) (VRef l) (k :: path) c
| broken_unknown_key keys u p l props k :
    h !! l = Some (CObject props) ->
    u <> Some true ->
    In k (map fst props) -> ~ In k (map fst keys) ->
    broken h (object_schema keys u p) (VRef l) [k] object_unknown.

(** *** The values on which the model follows the library

    The library turns text into a number through a double and reports as
    unsafe a literal that the double does not print back; it tests a URI
    against a regular expression of its own; and it parses text that holds
    a JSON object where an object is expected. The model reads a literal as
    the rational it denotes, approximates the URI syntax by character
    classes and converts no text to an object. The two agree on the values
    below. *)

(** Text of one to fifteen decimal digits with no superfluous leading
    zero: an integer that a double holds and prints back as the same text. *)
Definition short_digits (s : jsstring) : bool :=
  match s with
  | [] => false
  | c :: rest =>
      (negb (N.eqb c 48) || jsstring_eqb rest []) &&
      forallb is_digit s && (length s <=? 15)%nat
  end.

(** The integer such a text denotes. *)
Definition digits_number (s : jsstring) : Z :=
  digits_value (map (fun c => (c - 48)%N) s).

Fixpoint after (prefix s : jsstring) : option jsstring :=
  match prefix, s with
  | [], _ => Some s
  | c :: prefix', d :: s' => if N.eqb c d then after prefix' s' else None
  | _ :: _, [] => None
  end.

Definition is_host_char (c : N) : bool :=
  is_alpha c || is_digit c || N.eqb c 45 || N.eqb c 46.

Definition is_path_char (c : N) : bool :=
  is_host_char c || N.eqb c 47 || N.eqb c 95 || N.eqb c 126.

Fixpoint span_host (s : jsstring) : jsstring * jsstring :=
  match s with
  | [] => ([], [])
  | c :: s' =>
      if is_host_char c
      then let '(host, rest) := span_host s' in (c :: host, rest)
      else ([], s)
  end.

(** An http or https address: the scheme, two slashes, a host of one to 255
    letters, digits, dots and hyphens, and a path that is empty or starts
    with a slash and holds letters, digits, slashes, dots, hyphens,
    underscores and tildes. *)
Definition web_address (s : jsstring) : bool :=
  match
    match after (js "https://") s with
    | Some rest => Some rest
    | None => after (js "http://") s
    end
  with
  | Some rest =>
      let '(host, path) := span_host rest in
      negb (jsstring_eqb host []) && (length host <=? 255)%nat &&
      match path with
      | [] => true
      | c :: _ => N.eqb c 47 && forallb is_path_char path
      end
  | None => false
  end.

(** Text in a number field: no decimal literal, or a short integer. *)
Definition faithful_number (v : JS.value) : Prop :=
  forall s, v = VStr s -> parse_number s = None \/ short_digits s = true.

(** Text under the uri rule: empty, a web address, or without a colon (no
    scheme, hence no URI). *)
Definition faithful_text (rules : list string_rule) (v : JS.value) : Prop :=
  In rule_uri rules ->
  forall s, v = VStr s -> s = [] \/ web_address s = true \/ ~ In 58%N s.

Inductive faithful (h : heap) : schema -> JS.value -> Prop :=
| faithful_number_field rules p v :
    faithful_number v -> faithful h (number_schema rules p) v
| faithful_string_field rules p v :
    faithful_text rules v -> faithful h (string_schema rules p) v
| faithful_object_field keys u p l props :
    h !! l = Some (CObject props) ->
    (forall k child, In (k, child) keys -> faithful h child (get props k)) ->
    faithful h (object_schema keys u p) (VRef l)
| faithful_no_object keys u p v :
    ~ is_plain_object h v -> (forall s, v <> VStr s) ->
    faithful h (object_schema keys u p) v.

End Spec.

(** ** Notions and inputs used in the statements *)
Module Fixtures.

Import TestDataGenerator.

(** A string of decimal digits. *)
Definition numeric (s : jsstring) : bool :=
  match s with
  | [] => false
  | _ => forallb Joi.is_digit s
  end.

Definition is_letter (c : N) : bool := Joi.is_alpha c.

(** Every call of [Math.random()] returns 0.9. *)
Definition nines : random_source := fun _ => 9 # 10.

(** The draw that yields the integer [k] out of [n] equal parts. *)
Definition draw_for (k n : Z) : random_source :=
  fun _ => Qmake k (Z.to_pos n).

(** Overrides holding an empty title and a zero price. *)
Definition falsy_overrides : object :=
  [(js "title", str ""); (js "price", num 0)].

(** A function that throws on its first two invocations and then returns 7;
    its world counts the invocations. *)
Definition flaky (w : nat) : completion value * nat :=
  (if (w <? 2)%nat then Throw (TypeError "unavailable") else Normal (num 7),
   S w).

(** A heap holding one object. *)
Definition alone (o : object) : heap := {[ 1%positive := CObject o ]}.

(** The reference to that object. *)
Definition sole : value := VRef 1%positive.

(** A product as GET returns it, with the rating left out. *)
Definition product_without_rating : object :=
  [(js "id", num 1);
   (js "title", str "Fjallraven - Foldsack No. 1 Backpack");
   (js "price", VNum (Fin (10995 # 100)));
   (js "description", str "Your perfect pack for everyday use");
   (js "category", str "men's clothing");
   (js "image", str "https://fakestoreapi.com/img/81fPKd-2AYL._AC_SL1500_.jpg")].

(** The same product with its rating, held by a second object. *)
Definition rating_of_product : object :=
  [(js "rate", VNum (Fin (39 # 10))); (js "count", num 120)].

Definition product_with_rating : object :=
  product_without_rating ++ [(js "rating", VRef 2%positive)].

Definition with_rating : heap :=
  <[2%positive := CObject rating_of_product]> (alone product_with_rating).

(** The same product with the price as the text 25. *)
Definition product_with_text_price : object :=
  set product_without_rating (js "price") (str "25").

(** data/testData.js, zeroPriceProduct *)
Definition zeroPriceProduct : object :=
  [(js "title", str "Free Product");
   (js "price", num 0);
   (js "description", str "Testing zero price boundary");
   (js "image", str "https://fakestoreapi.com/img/test.jpg");
   (js "category", str "electronics")].

(** data/testData.js, validProduct *)
Definition validProduct : object :=
  [(js "title", str "Premium Wireless Headphones");
   (js "price", VNum (Fin (29999 # 100)));
   (js "description",
    str "High-quality wireless headphones with noise cancellation");
   (js "image", str "https://fakestoreapi.com/img/headphones.jpg");
   (js "category", str "electronics")].

(** data/testData.js, invalidPriceType *)
Definition invalidPriceType : object :=
  [(js "title", str "Test Product");
   (js "price", str "invalid_price");
   (js "description", str "Testing data type validation");
   (js "image", str "https://fakestoreapi.com/img/test.jpg");
   (js "category", str "electronics")].

(** A rating whose rate, 10^20, lies outside the safe range and above the
    maximum. *)
Definition huge_rating : object :=
  [(js "rate", num 100000000000000000000); (js "count", num 1)].

(** A product that breaks three rules: a fractional negative id and an
    empty title. *)
Definition broken_product : object :=
  set (set product_without_rating (js "id") (VNum (Fin (-3 # 2))))
    (js "title") (str "").

(** Validation against the shape accepts the object, in whatever heap it
    lives. *)
Definition accepted (s : Joi.schema) (o : object) : Prop :=
  forall (h : heap) (l : loc),
    h !! l = Some (CObject o) ->
    Joi.error (snd (SchemaValidator.validateSchema (VRef l) s h)) = None.

(** Validation against the shape reports exactly these details. *)
Definition rejected (s : Joi.schema) (o : object) (details : list Joi.detail)
  : Prop :=
  forall (h : heap) (l : loc),
    h !! l = Some (CObject o) ->
    Joi.error (snd (SchemaValidator.validateSchema (VRef l) s h))
    = Some {| Joi.details := details |}.

(** The children of the creation shape, in the order they are checked. *)
Definition creation_children : list (jsstring * Joi.schema) :=
  [(js "title", Joi.string |> Joi.required);
   (js "price", Joi.number |> Joi.positive |> Joi.required);
   (js "description", Joi.string |> Joi.required);
   (js "category", Joi.string |> Joi.required);
   (js "image", Joi.string |> Joi.uri |> Joi.required)].

End Fixtures.

(** * Properties *)

(** ** Strings and values *)

Lemma jsstring_eqb_eq (a b : jsstring) : jsstring_eqb a b = true <-> a = b.
Proof.
  revert b; induction a as [|x a IH]; intros [|y b]; simpl; try easy.
  rewrite andb_true_iff, N.eqb_eq, IH. split.
  - intros [-> ->]; reflexivity.
  - intros [= -> ->]; auto.
Qed.

Lemma jsstring_eqb_refl (a : jsstring) : jsstring_eqb a a = true.
Proof. apply jsstring_eqb_eq; reflexivity. Qed.

Lemma jsstring_eqb_neq (a b : jsstring) : jsstring_eqb a b = false <-> a <> b.
Proof.
  rewrite <- jsstring_eqb_eq. destruct (jsstring_eqb a b); split; congruence.
Qed.

Lemma jsstring_eqb_sym (a b : jsstring) : jsstring_eqb a b = jsstring_eqb b a.
Proof.
  destruct (jsstring_eqb a b) eqn:E; symmetry.
  - apply jsstring_eqb_eq in E as ->. apply jsstring_eqb_refl.
  - apply jsstring_eqb_neq. apply jsstring_eqb_neq in E. congruence.
Qed.

Lemma Qeq_bool_sym (p q : Q) : Qeq_bool p q = Qeq_bool q p.
Proof.
  destruct (Qeq_bool p q) eqn:E; symmetry.
  - apply Qeq_bool_iff. symmetry. apply Qeq_bool_iff, E.
  - destruct (Qeq_bool q p) eqn:E'; [|reflexivity].
    apply Qeq_bool_iff in E'. symmetry in E'. apply Qeq_bool_iff in E'.
    congruence.
Qed.

Lemma same_value_zero_sym (a b : value) :
  same_value_zero a b = same_value_zero b a.
Proof.
  destruct a as [| |x|[| | |p]|s|l], b as [| |y|[| | |q]|t|m];
    simpl; try reflexivity.
  - destruct x, y; reflexivity.
  - apply Qeq_bool_sym.
  - apply jsstring_eqb_sym.
  - apply Pos.eqb_sym.
Qed.

Lemma trimStart_nil (s : jsstring) :
  trimStart s = [] <-> forallb is_whitespace s = true.
Proof.
  induction s as [|c s IH]; simpl; [easy|].
  destruct (is_whitespace c); simpl; [exact IH|easy].
Qed.

Lemma trimStart_head (s : jsstring) (c : N) (t : jsstring) :
  trimStart s = c :: t -> is_whitespace c = false.
Proof.
  induction s as [|x s IH]; simpl; [easy|].
  destruct (is_whitespace x) eqn:E; [exact IH|].
  intros [= -> _]; exact E.
Qed.

Lemma forallb_rev {A : Type} (f : A -> bool) (l : list A) :
  forallb f (rev l) = forallb f l.
Proof.
  induction l as [|x l IH]; simpl; [reflexivity|].
  rewrite forallb_app, IH; simpl. rewrite andb_true_r. apply andb_comm.
Qed.

Lemma trim_nil (s : jsstring) :
  trim s = [] <-> forallb is_whitespace s = true.
Proof.
  unfold trim, trimEnd. split.
  - intros H.
    assert (Hr : trimStart (rev (trimStart s)) = []).
    { rewrite <- (rev_involutive (trimStart _)), H; reflexivity. }
    apply trimStart_nil in Hr. rewrite forallb_rev in Hr.
    destruct (trimStart s) as [|c t] eqn:E.
    + apply trimStart_nil, E.
    + apply trimStart_head in E. simpl in Hr. rewrite E in Hr. discriminate.
  - intros H. apply trimStart_nil in H. rewrite H. reflexivity.
Qed.

Lemma not_all_whitespace (s : jsstring) (c : N) :
  In c s -> is_whitespace c = false -> forallb is_whitespace s = false.
Proof.
  intros Hin Hc. destruct (forallb is_whitespace s) eqn:E; [|reflexivity].
  rewrite forallb_forall in E. rewrite (E c Hin) in Hc. discriminate.
Qed.

(** ** utils/assertions.js *)
Module AssertionsFacts.
Import Assertions.

Lemma typeof_string (h : heap) (v : value) :
  same_value_zero (VStr (typeof h v)) (str "string") = true ->
  exists s, v = VStr s.
Proof.
  destruct v as [| |b|n|s|l]; simpl; try discriminate; eauto.
  destruct (h !! l) as [[]|]; discriminate.
Qed.

Lemma assertStringNotEmpty_string (h : heap) (s : jsstring) :
  assertStringNotEmpty h (VStr s) =
  if forallb is_whitespace s
  then Throw (JestAssertionError
                (match s with [] => "toBeGreaterThan" | _ => "not.toBe" end))
  else Normal tt.
Proof.
  unfold assertStringNotEmpty.
  change (Jest.toBe (VStr (typeof h (VStr s))) (str "string"))
    with (Normal (A := unit) tt).
  destruct s as [|c s]; [reflexivity|].
  unfold Jest.toBeGreaterThan.
  assert (Hlen : Qle_bool (inject_Z (Z.of_nat (length (c :: s)))) 0 = false).
  { destruct (Qle_bool _ 0) eqn:E; [|reflexivity].
    apply Qle_bool_iff in E. unfold Qle in E; simpl in E. lia. }
  rewrite Hlen. unfold Jest.not_toBe, mbind, completion_bind; simpl negb; cbv iota.
  destruct (forallb is_whitespace (c :: s)) eqn:E.
  - apply trim_nil in E. rewrite E. reflexivity.
  - destruct (trim (c :: s)) eqn:T; [|reflexivity].
    apply trim_nil in T. congruence.
Qed.

(** C5. The non-empty-string assertion throws for every value that is not a
    string, for the empty string and for every string made of whitespace
    only, and passes for every string holding a character that is not
    whitespace. *)
Theorem assertStringNotEmpty_spec (h : heap) (v : value) :
  ((forall s, v <> VStr s) -> throws (assertStringNotEmpty h v)) /\
  (v = VStr [] -> throws (assertStringNotEmpty h v)) /\
  (forall s, v = VStr s -> forallb is_whitespace s = true ->
             throws (assertStringNotEmpty h v)) /\
  (forall s c, v = VStr s -> In c s -> is_whitespace c = false ->
               assertStringNotEmpty h v = Normal tt).
Proof.
  repeat split.
  - intros Hv. unfold assertStringNotEmpty, Jest.toBe.
    destruct (same_value_zero _ _) eqn:E.
    + apply typeof_string in E as [s ->]. destruct (Hv s); reflexivity.
    + eexists; reflexivity.
  - intros ->. rewrite assertStringNotEmpty_string. eexists; reflexivity.
  - intros s -> Hs. rewrite assertStringNotEmpty_string, Hs.
    eexists; reflexivity.
  - intros s c -> Hin Hc. rewrite assertStringNotEmpty_string.
    rewrite (not_all_whitespace s c Hin Hc). reflexivity.
Qed.

Lemma assertStringNotEmpty_spec_witness :
  throws (assertStringNotEmpty ∅ (num 42)) /\
  throws (assertStringNotEmpty ∅ (str "")) /\
  throws (assertStringNotEmpty ∅ (str "   ")) /\
  assertStringNotEmpty ∅ (str " a ") = Normal tt.
Proof.
  split; [|split; [|split]].
  - apply (proj1 (assertStringNotEmpty_spec ∅ (num 42))).
    intros s; discriminate.
  - apply (proj1 (proj2 (assertStringNotEmpty_spec ∅ (str "")))).
    reflexivity.
  - apply (proj1 (proj2 (proj2 (assertStringNotEmpty_spec ∅ (str "   "))))
             (js "   ")); reflexivity.
  - apply (proj2 (proj2 (proj2 (assertStringNotEmpty_spec ∅ (str " a "))))
             (js " a ") 97%N); [reflexivity | simpl; auto | reflexivity].
Defined.

End AssertionsFacts.

(** ** utils/testDataGenerator.js *)
Module TestDataGeneratorFacts.
Import TestDataGenerator Fixtures.

Lemma floor_scaled (x : Q) (n : Z) :
  0 < n -> (0 <= x)%Q -> (x < 1)%Q ->
  0 <= Math_floor (x * inject_Z n) < n.
Proof.
  intros Hn H0 H1. unfold Math_floor.
  assert (Hpos : (inject_Z 0 < inject_Z n)%Q) by (rewrite <- Zlt_Qlt; exact Hn).
  change (inject_Z 0) with 0%Q in Hpos.
  split.
  - change 0 with (Qfloor 0). apply Qfloor_resp_le.
    apply Qmult_le_0_compat; [exact H0 | apply Qlt_le_weak, Hpos].
  - rewrite Zlt_Qlt. eapply Qle_lt_trans; [apply Qfloor_le|].
    rewrite <- (Qmult_1_l (inject_Z n)) at 2.
    apply Qmult_lt_r; assumption.
Qed.

Lemma floor_draw (k n : Z) :
  0 < n -> Math_floor (Qmake k (Z.to_pos n) * inject_Z n) = k.
Proof.
  intros Hn. unfold Math_floor, Qfloor, Qmult, inject_Z; simpl.
  rewrite Pos.mul_1_r, Z2Pos.id by exact Hn.
  apply Z.div_mul. lia.
Qed.

Lemma draw_for_valid (k n : Z) : 0 <= k < n -> valid_source (draw_for k n).
Proof.
  intros Hk i. unfold draw_for, Qle, Qlt; simpl.
  rewrite Z2Pos.id by lia. lia.
Qed.

(** Valid IDs lie in [1,20]. *)
Lemma getValidProductId_range (r : random_source) :
  valid_source r -> 1 <= fst (getValidProductId r) <= 20.
Proof.
  intros H. destruct (H 0%nat) as [H0 H1]. unfold getValidProductId, Math_random; cbn [fst].
  pose proof (floor_scaled (r 0%nat) 20 eq_refl H0 H1) as Hf.
  change (inject_Z 20) with 20%Q in Hf. lia.
Qed.

(** Every integer of [1,20] is the valid ID of some draw. *)
Lemma getValidProductId_onto (k : Z) :
  1 <= k <= 20 ->
  exists r, valid_source r /\ fst (getValidProductId r) = k.
Proof.
  intros Hk. exists (draw_for (k - 1) 20). split.
  - apply draw_for_valid; lia.
  - unfold getValidProductId, Math_random; cbn [fst].
    pose proof (floor_draw (k - 1) 20 eq_refl) as Hf.
    change (inject_Z 20) with 20%Q in Hf.
    unfold draw_for. rewrite Hf. lia.
Qed.

(** The boundary IDs are exactly [{ min: 1, max: 20 }]. *)
Lemma getBoundaryProductIds_exact :
  getBoundaryProductIds = [(js "min", num 1); (js "max", num 20)].
Proof. reflexivity. Qed.

(** Invalid IDs lie in [1000,9999]. *)
Lemma getInvalidProductId_range (r : random_source) :
  valid_source r -> 1000 <= fst (getInvalidProductId r) <= 9999.
Proof.
  intros H. destruct (H 0%nat) as [H0 H1]. unfold getInvalidProductId, Math_random; cbn [fst].
  pose proof (floor_scaled (r 0%nat) 9000 eq_refl H0 H1) as Hf.
  change (inject_Z 9000) with 9000%Q in Hf. lia.
Qed.

(** Every integer of [1000,9999] is the invalid ID of some draw. *)
Lemma getInvalidProductId_onto (k : Z) :
  1000 <= k <= 9999 ->
  exists r, valid_source r /\ fst (getInvalidProductId r) = k.
Proof.
  intros Hk. exists (draw_for (k - 1000) 9000). split.
  - apply draw_for_valid; lia.
  - unfold getInvalidProductId, Math_random; cbn [fst].
    pose proof (floor_draw (k - 1000) 9000 eq_refl) as Hf.
    change (inject_Z 9000) with 9000%Q in Hf.
    unfold draw_for. rewrite Hf. lia.
Qed.

Lemma charAt_chars (i : Z) :
  0 <= i < Z.of_nat (length chars) ->
  exists c, charAt chars i = [c] /\ In c chars.
Proof.
  intros Hi. unfold charAt.
  destruct (Z.ltb_spec i 0) as [?|_]; [lia|].
  destruct (nth_error chars (Z.to_nat i)) as [c|] eqn:E.
  - exists c. split; [reflexivity|]. eapply nth_error_In, E.
  - apply nth_error_None in E. lia.
Qed.

(** A generated string has the requested length and draws every character
    from the 62 letters and digits. *)
Lemma generateRandomString_step (n : nat) (r : random_source) :
  generateRandomString (S n) r =
  (charAt chars (Math_floor (r 0%nat * inject_Z (Z.of_nat (length chars))))
     ++ fst (generateRandomString n (fun i => r (S i))),
   snd (generateRandomString n (fun i => r (S i)))).
Proof.
  cbn [generateRandomString Math_random].
  destruct (generateRandomString n _); reflexivity.
Qed.

Lemma generateRandomString_chars (n : nat) (r : random_source) :
  valid_source r ->
  length (fst (generateRandomString n r)) = n /\
  Forall (fun c => In c chars) (fst (generateRandomString n r)).
Proof.
  revert r; induction n as [|n IH]; intros r H.
  - split; [reflexivity | constructor].
  - destruct (H 0%nat) as [H0 H1].
    rewrite generateRandomString_step; cbn [fst].
    destruct (IH (fun i => r (S i)) (fun i => H (S i))) as [Hl Hf].
    destruct (charAt_chars
                (Math_floor (r 0%nat * inject_Z (Z.of_nat (length chars)))))
      as (c & -> & Hc).
    { apply floor_scaled; [reflexivity | assumption | assumption]. }
    split; [simpl; congruence | constructor; assumption].
Qed.

Lemma nines_valid : valid_source nines.
Proof. intros n. unfold nines, Qle, Qlt; simpl. lia. Qed.

(** C6. With every draw equal to 0.9, a value [Math.random()] can return,
    the non-numeric ID generator returns the string 33333: five decimal
    digits and no letter, a string that reads as the number 33333. *)
Theorem getNonNumericProductId_digits_only :
  valid_source nines /\
  fst (getNonNumericProductId nines) = js "33333" /\
  numeric (fst (getNonNumericProductId nines)) = true /\
  existsb is_letter (fst (getNonNumericProductId nines)) = false /\
  Joi.parse_number (fst (getNonNumericProductId nines)) = Some 33333%Q.
Proof.
  split; [exact nines_valid|].
  repeat split; vm_compute; reflexivity.
Qed.

(** *** Payload generation *)

Lemma get_set_eq (o : object) (k : jsstring) (v : value) :
  get (set o k v) k = v.
Proof.
  induction o as [|[k' v'] o IH]; simpl.
  - rewrite jsstring_eqb_refl. reflexivity.
  - destruct (jsstring_eqb k' k) eqn:E; simpl; rewrite E; auto.
Qed.

Lemma get_set_ne (o : object) (k k' : jsstring) (v : value) :
  k <> k' -> get (set o k v) k' = get o k'.
Proof.
  intros Hne. induction o as [|[k0 v0] o IH]; simpl.
  - apply jsstring_eqb_neq in Hne. rewrite Hne. reflexivity.
  - destruct (jsstring_eqb k0 k) eqn:E; simpl.
    + apply jsstring_eqb_eq in E as ->.
      apply jsstring_eqb_neq in Hne. rewrite Hne. reflexivity.
    + destruct (jsstring_eqb k0 k'); auto.
Qed.

Lemma has_own_In (o : object) (k : jsstring) :
  has_own o k = true <-> In k (map fst o).
Proof.
  induction o as [|[k' v'] o IH]; simpl; [easy|].
  rewrite orb_true_iff, jsstring_eqb_eq, IH. reflexivity.
Qed.

Lemma get_absent (o : object) (k : jsstring) :
  has_own o k = false -> get o k = VUndefined.
Proof.
  induction o as [|[k' v'] o IH]; simpl; [reflexivity|].
  destruct (jsstring_eqb k' k); simpl; [discriminate | exact IH].
Qed.

Lemma get_spread_absent (target src : object) (k : jsstring) :
  has_own src k = false -> get (spread target src) k = get target k.
Proof.
  unfold spread. revert target.
  induction src as [|[k' v'] src IH]; intros target H; simpl in *;
    [reflexivity|].
  apply orb_false_iff in H as [Hk Hs].
  rewrite IH by exact Hs. apply get_set_ne.
  apply jsstring_eqb_neq, Hk.
Qed.

Lemma get_spread_own (target src : object) (k : jsstring) :
  NoDup (map fst src) -> has_own src k = true ->
  get (spread target src) k = get src k.
Proof.
  unfold spread. revert target.
  induction src as [|[k' v'] src IH]; intros target Hnd H; simpl in *;
    [discriminate|].
  apply NoDup_cons in Hnd as [Hnotin Hnd].
  rewrite list_elem_of_In in Hnotin.
  destruct (jsstring_eqb k' k) eqn:E.
  - apply jsstring_eqb_eq in E as ->.
    assert (Hs : has_own src k = false).
    { destruct (has_own src k) eqn:Hs; [|reflexivity].
      apply has_own_In in Hs. contradiction. }
    pose proof (get_spread_absent (set target k v') src k Hs) as Ha.
    unfold spread in Ha. rewrite Ha. apply get_set_eq.
  - simpl in H. apply IH; assumption.
Qed.

Lemma generateProductData_fst (overrides : object) (r : random_source) :
  fst (generateProductData overrides r) =
  spread (fst (fields overrides r)) overrides.
Proof.
  unfold generateProductData. destruct (fields overrides r); reflexivity.
Qed.

(** The boundary generators of the suite keep their falsy value. *)
Lemma generateZeroPriceProduct_price (r : random_source) :
  get (fst (generateZeroPriceProduct r)) (js "price") = num 0.
Proof.
  unfold generateZeroPriceProduct. rewrite generateProductData_fst.
  rewrite get_spread_own; [reflexivity | apply NoDup_singleton | reflexivity].
Qed.

Lemma generateEmptyStringProduct_field (field : jsstring) (r : random_source) :
  get (fst (generateEmptyStringProduct field r)) field = str "".
Proof.
  unfold generateEmptyStringProduct. rewrite generateProductData_fst.
  rewrite get_spread_own; [| apply NoDup_singleton |];
    simpl; rewrite jsstring_eqb_refl; reflexivity.
Qed.

(** The draws the literal has used when it reaches a field are some prefix
    of the source, whatever the overrides are. *)
Ltac prefix_of_source :=
  first [ exists 0%nat; reflexivity | exists 1%nat; reflexivity
        | exists 5%nat; reflexivity | exists 6%nat; reflexivity
        | exists 20%nat; reflexivity | exists 21%nat; reflexivity
        | exists 25%nat; reflexivity | exists 26%nat; reflexivity ].

Lemma fields_or_default (overrides : object) (r : random_source)
    (k : jsstring) (default : random_source -> value * random_source) :
  In (k, default) or_defaults ->
  truthy (get overrides k) = false ->
  exists n, get (fst (fields overrides r)) k = fst (default (later n r)).
Proof.
  intros Hin Hk. unfold fields, or_else.
  destruct (truthy (get overrides (js "title"))) eqn:Et;
    destruct (negb (strict_equal (get overrides (js "price")) VUndefined))
      eqn:Ep;
    destruct (truthy (get overrides (js "description"))) eqn:Ed;
    destruct (truthy (get overrides (js "image"))) eqn:Ei;
    destruct (truthy (get overrides (js "category"))) eqn:Ec;
    simpl in Hin;
    destruct Hin as [[= <- <-]|[[= <- <-]|[[= <- <-]|[[= <- <-]|[]]]]];
    try congruence; prefix_of_source.
Qed.

Lemma fields_price (overrides : object) (r : random_source) :
  get (fst (fields overrides r)) (js "price") =
  if strict_equal (get overrides (js "price")) VUndefined
  then fst (default_price
              (later (if truthy (get overrides (js "title")) then 0 else 5) r))
  else get overrides (js "price").
Proof.
  unfold fields, or_else.
  destruct (truthy (get overrides (js "title")));
    destruct (strict_equal (get overrides (js "price")) VUndefined);
    destruct (truthy (get overrides (js "description")));
    destruct (truthy (get overrides (js "image")));
    destruct (truthy (get overrides (js "category")));
    reflexivity.
Qed.

(** C9, as stated, fails for the price: the field-level expression tests
    the price against undefined, so it keeps a zero price and does not put
    the default in its place. *)
Lemma fields_keep_zero_price :
  truthy (num 0) = false /\
  get (fst (fields [(js "price", num 0)] nines)) (js "price") = num 0 /\
  get (fst (fields [(js "price", num 0)] nines)) (js "price")
    <> fst (default_price nines).
Proof.
  split; [reflexivity|]. split; [reflexivity|].
  vm_compute. discriminate.
Qed.

(** C9 (amended). For overrides with distinct keys, the generated payload
    agrees with the overrides on each of their keys, whatever the value,
    and carries the default of each of the five fields the overrides do not
    name. The field-level expressions alone replace a falsy title,
    description, image or category by the default, and keep every price
    that is not undefined. *)
Theorem generateProductData_override_dominance
    (overrides : object) (r : random_source) :
  NoDup (map fst overrides) ->
  (forall k, has_own overrides k = true ->
     get (fst (generateProductData overrides r)) k = get overrides k) /\
  (forall k default, In (k, default) defaults ->
     has_own overrides k = false ->
     exists n, get (fst (generateProductData overrides r)) k
               = fst (default (later n r))) /\
  (forall k default, In (k, default) or_defaults ->
     truthy (get overrides k) = false ->
     exists n, get (fst (fields overrides r)) k = fst (default (later n r))) /\
  (strict_equal (get overrides (js "price")) VUndefined = false ->
   get (fst (fields overrides r)) (js "price") = get overrides (js "price")).
Proof.
  intros Hnd. split; [|split; [|split]].
  - intros k Hk. rewrite generateProductData_fst.
    apply get_spread_own; assumption.
  - intros k default Hin Hk. rewrite generateProductData_fst.
    rewrite get_spread_absent by exact Hk.
    pose proof (get_absent overrides k Hk) as Hu.
    simpl in Hin. destruct Hin as [Hp|[Hp|Hin]].
    + apply fields_or_default; [|rewrite Hu; reflexivity].
      injection Hp as <- <-. simpl; auto.
    + injection Hp as <- <-. rewrite fields_price, Hu.
      eexists; reflexivity.
    + apply fields_or_default; [|rewrite Hu; reflexivity].
      simpl; tauto.
  - intros k default Hin Hk. apply fields_or_default; assumption.
  - intros Hp. rewrite fields_price, Hp. reflexivity.
Qed.

Lemma generateProductData_override_dominance_witness :
  NoDup (map fst falsy_overrides) /\
  get (fst (generateProductData falsy_overrides nines)) (js "title") = str "" /\
  get (fst (generateProductData falsy_overrides nines)) (js "price") = num 0.
Proof.
  assert (Hnd : NoDup (map fst falsy_overrides)).
  { apply NoDup_cons. split; [|apply NoDup_singleton].
    rewrite list_elem_of_In. simpl. intros [H|[]]. discriminate H. }
  split; [exact Hnd|]. split.
  - exact (proj1 (generateProductData_override_dominance
                    falsy_overrides nines Hnd) (js "title") eq_refl).
  - exact (proj1 (generateProductData_override_dominance
                    falsy_overrides nines Hnd) (js "price") eq_refl).
Defined.

End TestDataGeneratorFacts.

(** ** utils/testHelpers.js *)
Module TestHelpersFacts.
Import TestHelpers Fixtures.

(** *** Test context *)

Lemma includes_app (elems rest : list value) (x : value) :
  includes (elems ++ rest) x = includes elems x || includes rest x.
Proof. unfold includes. apply existsb_app. Qed.

Lemma distinct_snoc (elems : list value) (x : value) :
  distinct elems = true -> includes elems x = false ->
  distinct (elems ++ [x]) = true.
Proof.
  induction elems as [|a elems IH]; simpl; [reflexivity|].
  intros Hd Hx. apply andb_true_iff in Hd as [Ha Hd].
  apply orb_false_iff in Hx as [Hxa Hx].
  rewrite includes_app, IH by assumption.
  apply negb_true_iff in Ha. rewrite Ha. simpl.
  rewrite same_value_zero_sym, Hxa. reflexivity.
Qed.

Lemma created_insert (ctx : TestContext) (h : heap) (elems : list value) :
  created ctx (<[createdProducts ctx := CArray elems]> h) = elems.
Proof. unfold created. rewrite lookup_insert_eq. reflexivity. Qed.

Lemma constructor_well_formed (h : heap) : well_formed (constructor h).
Proof.
  unfold well_formed, constructor, created; cbn [fst snd createdProducts].
  rewrite lookup_insert_eq. auto.
Qed.

Lemma addCreatedProduct_well_formed (v : value) (s : TestContext * heap) :
  well_formed s -> well_formed (addCreatedProduct v (fst s) (snd s)).
Proof.
  destruct s as [ctx h]. intros (Hl & Hd & Ht); cbn [fst snd] in *.
  unfold addCreatedProduct. rewrite Hl.
  destruct (truthy v) eqn:Ev; cbn [andb];
    [destruct (includes (created ctx h) v) eqn:Ei; cbn [negb]|];
    unfold well_formed; cbn [fst snd]; auto.
  rewrite created_insert, lookup_insert_eq.
  split; [reflexivity|]. split.
  - apply distinct_snoc; assumption.
  - rewrite forallb_app, Ht. simpl. rewrite Ev. reflexivity.
Qed.

Lemma clearCreatedProducts_well_formed (s : TestContext * heap) :
  well_formed (clearCreatedProducts (fst s) (snd s)).
Proof.
  destruct s as [ctx h]. unfold well_formed, clearCreatedProducts.
  cbn [fst snd]. unfold created; cbn [createdProducts].
  rewrite lookup_insert_eq. auto.
Qed.

Lemma run_well_formed (ops : list operation) (s : TestContext * heap) :
  well_formed s -> well_formed (run ops s).
Proof.
  revert s; induction ops as [|o ops IH]; intros s Hs; [exact Hs|].
  apply IH. destruct o; simpl.
  - apply addCreatedProduct_well_formed, Hs.
  - apply clearCreatedProducts_well_formed.
Qed.

Lemma addCreatedProduct_falsy (v : value) (s : TestContext * heap) :
  truthy v = false -> addCreatedProduct v (fst s) (snd s) = s.
Proof.
  intros Hv. unfold addCreatedProduct. rewrite Hv.
  destruct s as [ctx h]; cbn [fst snd].
  destruct (h !! createdProducts ctx) as [[| |]|]; reflexivity.
Qed.

Lemma getCreatedProducts_copy (s : TestContext * heap) :
  well_formed s ->
  exists l,
    getCreatedProducts (fst s) (snd s)
      = (VRef l, <[l := CArray (created (fst s) (snd s))]> (snd s)) /\
    snd s !! l = None /\
    l <> createdProducts (fst s) /\
    forall c, created (fst s) (<[l := c]> (snd (getCreatedProducts (fst s) (snd s))))
              = created (fst s) (snd s).
Proof.
  destruct s as [ctx h]. intros (Hl & _); cbn [fst snd] in *.
  pose proof (is_fresh (dom h)) as Hf.
  assert (Hn : h !! fresh (dom h) = None) by (apply not_elem_of_dom, Hf).
  assert (Hne : fresh (dom h) <> createdProducts ctx) by congruence.
  exists (fresh (dom h)). repeat split; try assumption.
  intros c. unfold getCreatedProducts; cbn [snd].
  unfold created at 1. rewrite !lookup_insert_ne by exact Hne.
  reflexivity.
Qed.

(** C8. After the constructor and any sequence of additions and clearings,
    the created-products array holds no two equal IDs and no falsy ID;
    adding a falsy value (0, null and undefined among them) changes
    nothing; and the array getCreatedProducts returns is a new one, so that
    whatever is stored in its place, the array of the context is as it
    was. *)
Theorem createdProducts_invariant (h0 : heap) (ops : list operation) :
  let s := run ops (constructor h0) in
  distinct (created (fst s) (snd s)) = true /\
  forallb truthy (created (fst s) (snd s)) = true /\
  (forall v, truthy v = false -> addCreatedProduct v (fst s) (snd s) = s) /\
  addCreatedProduct (num 0) (fst s) (snd s) = s /\
  addCreatedProduct VNull (fst s) (snd s) = s /\
  addCreatedProduct VUndefined (fst s) (snd s) = s /\
  exists l,
    fst (getCreatedProducts (fst s) (snd s)) = VRef l /\
    l <> createdProducts (fst s) /\
    snd s !! l = None /\
    snd (getCreatedProducts (fst s) (snd s)) !! l
      = Some (CArray (created (fst s) (snd s))) /\
    forall c,
      created (fst s) (<[l := c]> (snd (getCreatedProducts (fst s) (snd s))))
      = created (fst s) (snd s).
Proof.
  intros s.
  assert (Hs : well_formed s)
    by (apply run_well_formed, constructor_well_formed).
  destruct Hs as (Hl & Hd & Ht).
  repeat (split; [first [assumption
                        | intros v Hv; apply addCreatedProduct_falsy, Hv
                        | apply addCreatedProduct_falsy; reflexivity]|]).
  destruct (getCreatedProducts_copy s) as (l & Hg & Hn & Hne & Hc);
    [repeat split; assumption|].
  exists l. rewrite Hg in *; cbn [fst snd] in *.
  repeat split; try assumption.
  apply lookup_insert_eq.
Qed.

(** *** Retry with exponential backoff *)

Section RetryFacts.

Context {World : Type}.
Variable fn : World -> completion value * World.
Variable elapse : Z -> World -> World.

Lemma calls_trace_of (k : nat) (retries delay : Z) :
  calls (trace_of k retries delay) = S k.
Proof.
  revert retries delay; induction k as [|k IH]; intros; [reflexivity|].
  unfold calls in *; simpl. rewrite IH. reflexivity.
Qed.

Lemma waits_trace_of (k : nat) (retries delay : Z) :
  waits (trace_of k retries delay) = backoff k delay.
Proof.
  revert retries delay; induction k as [|k IH]; intros; [reflexivity|].
  simpl. rewrite IH. reflexivity.
Qed.

Lemma backoff_nth (k j : nat) (delay : Z) :
  (j < k)%nat -> nth_error (backoff k delay) j = Some (delay * 2 ^ Z.of_nat j).
Proof.
  revert j delay; induction k as [|k IH]; intros j delay Hj; [lia|].
  destruct j as [|j]; simpl.
  - f_equal. lia.
  - rewrite IH by lia. f_equal.
    rewrite Nat2Z.inj_succ, Z.pow_succ_r by lia. lia.
Qed.

Lemma retryWithBackoff_run (m : nat) (delay : Z) (w : World) :
  exists k,
    (k <= m)%nat /\
    (forall j, (j < k)%nat -> throws (attempt fn elapse j delay w)) /\
    ((exists v, attempt fn elapse k delay w = Normal v) \/
     (k = m /\ throws (attempt fn elapse k delay w))) /\
    forall fuel, (m < fuel)%nat ->
      retryWithBackoff fn elapse fuel (Z.of_nat m) delay w
      = Some (attempt fn elapse k delay w,
              snd (fn (world_at fn elapse k delay w)),
              trace_of k (Z.of_nat m) delay).
Proof.
  revert delay w; induction m as [|m IH]; intros delay w.
  - exists 0%nat. split; [lia|]. split; [intros j Hj; lia|].
    unfold attempt; cbn [world_at]. split.
    + destruct (fn w) as [[v|e] w1]; cbn [fst];
        [left; eauto | right; split; [reflexivity | eexists; reflexivity]].
    + intros [|fuel] Hf; [lia|]. cbn [retryWithBackoff].
      destruct (fn w) as [[v|e] w1]; reflexivity.
  - destruct (fn w) as [[v|e] w1] eqn:E.
    + exists 0%nat. split; [lia|]. split; [intros j Hj; lia|].
      unfold attempt; cbn [world_at]. rewrite E; cbn [fst snd]. split.
      * left; eauto.
      * intros [|fuel] Hf; [lia|]. cbn [retryWithBackoff].
        rewrite E. reflexivity.
    + destruct (IH (delay * 2) (elapse delay w1))
        as (k & Hk & Hfail & Hlast & Hrun).
      assert (Hstep : forall j,
                 attempt fn elapse (S j) delay w
                 = attempt fn elapse j (delay * 2) (elapse delay w1)).
      { intros j. unfold attempt; cbn [world_at]. rewrite E. reflexivity. }
      exists (S k). split; [lia|]. split; [|split].
      * intros [|j] Hj.
        -- unfold attempt; cbn [world_at]. rewrite E.
           eexists; reflexivity.
        -- rewrite Hstep. apply Hfail. lia.
      * rewrite Hstep.
        destruct Hlast as [Hv|[-> Ht]]; [left; exact Hv | right; auto].
      * intros [|fuel] Hf; [lia|]. cbn [retryWithBackoff]. rewrite E.
        replace (Z.of_nat (S m) =? 0) with false
          by (symmetry; apply Z.eqb_neq; lia).
        replace (Z.of_nat (S m) - 1) with (Z.of_nat m) by lia.
        rewrite Hrun by lia. rewrite Hstep.
        cbn [world_at trace_of]. rewrite E; cbn [snd].
        replace (Z.of_nat (S m) - 1) with (Z.of_nat m) by lia.
        reflexivity.
Qed.

(** With a negative count the comparison with 0 never succeeds: a function
    that always throws is retried for ever. *)
Lemma retryWithBackoff_negative (fuel : nat) (retries delay : Z) (w : World) :
  retries < 0 ->
  (forall w, throws (fst (fn w))) ->
  retryWithBackoff fn elapse fuel retries delay w = None.
Proof.
  intros Hneg Hfn. revert retries delay w Hneg.
  induction fuel as [|fuel IH]; intros; [reflexivity|].
  cbn [retryWithBackoff]. destruct (Hfn w) as [e He].
  destruct (fn w) as [r w1]; cbn [fst] in He; subst r.
  replace (retries =? 0) with false by (symmetry; apply Z.eqb_neq; lia).
  rewrite IH by lia. reflexivity.
Qed.

(** C7. For every retry count [n >= 0] the helper returns: some [k <= n]
    invocations throw, the next one ends the run, and [n + 1] units of
    fuel (or more) suffice. The function is invoked [k + 1 <= n + 1]
    times, the pauses between invocations last d, 2d, 4d, ..., the result
    is that of the first invocation that returns, and when all [n + 1]
    throw, it is the error of the last. *)
Theorem retryWithBackoff_spec (n d : Z) (w : World) :
  0 <= n ->
  exists (k : nat) (r : completion value) (w' : World) (trace : list event),
    (forall fuel, (Z.to_nat n < fuel)%nat ->
       retryWithBackoff fn elapse fuel n d w = Some (r, w', trace)) /\
    (calls trace = S k /\ Z.of_nat (calls trace) <= n + 1) /\
    (waits trace = backoff k d /\
     forall j, (j < k)%nat ->
       nth_error (waits trace) j = Some (d * 2 ^ Z.of_nat j)) /\
    (forall j, (j < k)%nat -> throws (attempt fn elapse j d w)) /\
    r = attempt fn elapse k d w /\
    ((exists v, r = Normal v) \/ (Z.of_nat k = n /\ throws r)).
Proof.
  intros Hn.
  destruct (retryWithBackoff_run (Z.to_nat n) d w)
    as (k & Hk & Hfail & Hlast & Hrun).
  rewrite Z2Nat.id in Hrun by exact Hn.
  exists k, (attempt fn elapse k d w),
    (snd (fn (world_at fn elapse k d w))), (trace_of k n d).
  split; [exact Hrun|]. rewrite calls_trace_of, waits_trace_of.
  split; [split; [reflexivity | lia]|].
  split; [split; [reflexivity | intros j Hj; apply backoff_nth, Hj]|].
  split; [exact Hfail|]. split; [reflexivity|].
  destruct Hlast as [Hv|[-> Ht]]; [left; exact Hv | right].
  split; [lia | exact Ht].
Qed.

End RetryFacts.

Lemma retryWithBackoff_spec_witness :
  0 <= 3 /\
  exists (k : nat) (r : completion value) (w' : nat) (trace : list event),
    (forall fuel, (Z.to_nat 3 < fuel)%nat ->
       retryWithBackoff flaky (fun _ w => w) fuel 3 1000 0%nat
       = Some (r, w', trace)) /\
    (calls trace = S k /\ Z.of_nat (calls trace) <= 3 + 1) /\
    (waits trace = backoff k 1000 /\
     forall j, (j < k)%nat ->
       nth_error (waits trace) j = Some (1000 * 2 ^ Z.of_nat j)) /\
    (forall j, (j < k)%nat ->
       throws (attempt flaky (fun _ w => w) j 1000 0%nat)) /\
    r = attempt flaky (fun _ w => w) k 1000 0%nat /\
    ((exists v, r = Normal v) \/ (Z.of_nat k = 3 /\ throws r)).
Proof.
  split; [lia|].
  apply (retryWithBackoff_spec flaky (fun _ w => w) 3 1000 0%nat). lia.
Defined.

End TestHelpersFacts.

(** ** config/environment.js and utils/apiClient.js *)
Module EnvironmentFacts.
Import Environment ApiClient.

Lemma own_profile_absent (envs : list (jsstring * profile)) (name : jsstring) :
  ~ In name (map fst envs) -> own_profile envs name = None.
Proof.
  induction envs as [|[k p] envs IH]; simpl; [reflexivity|].
  intros Hn. destruct (jsstring_eqb k name) eqn:E.
  - apply jsstring_eqb_eq in E. tauto.
  - apply IH. tauto.
Qed.

Lemma existsb_absent (name : jsstring) (keys : list jsstring) :
  ~ In name keys -> existsb (jsstring_eqb name) keys = false.
Proof.
  induction keys as [|k keys IH]; simpl; [reflexivity|].
  intros Hn. rewrite IH by tauto.
  destruct (jsstring_eqb name k) eqn:E; [|reflexivity].
  apply jsstring_eqb_eq in E. symmetry in E. tauto.
Qed.

Lemma currentEnv_name (name : jsstring) :
  name <> [] -> currentEnv (Some name) = name.
Proof. intros Hn. destruct name; [contradiction | reflexivity]. Qed.

(** An unset or empty variable selects the development profile. *)
Lemma config_default :
  config None = entry (js "development") /\
  config (Some []) = entry (js "development") /\
  exists p, config (Some []) = Profile p.
Proof. repeat split. eexists; reflexivity. Qed.

(** C10, as stated, fails for a name an object literal inherits: with
    NODE_ENV set to constructor, which is none of the four profiles, the
    configuration is a built-in and not undefined, the client is built with
    an undefined base URL, and its requests go to the text "undefined"
    followed by the path. *)
Lemma config_inherited_name :
  ~ In (js "constructor") (map fst environments) /\
  config (Some (js "constructor")) = Inherited (js "constructor") /\
  config (Some (js "constructor")) <> Undefined /\
  exported (Some (js "constructor"))
    = Normal {| client_baseURL := VUndefined |} /\
  getAllProducts (Some (js "constructor"))
    = Normal {| verb := GET; url := js "undefined/products"; body := None;
                request_timeout := VUndefined |}.
Proof.
  split.
  - simpl. intros [H|[H|[H|[H|[]]]]]; discriminate H.
  - repeat split; try reflexivity. discriminate.
Qed.

(** C10 (amended). For every non-empty environment name that is neither
    one of the four profiles nor a property name inherited from
    Object.prototype, the configuration is undefined (no profile is
    substituted), building the exported client throws on reading
    [config.baseURL], and so does every operation of the client. *)
Theorem config_unknown_environment (name : jsstring) :
  name <> [] ->
  ~ In name (map fst environments) ->
  ~ In name Object_prototype_keys ->
  config (Some name) = Undefined /\
  throws (exported (Some name)) /\
  (forall m endpoint b, throws (call (Some name) m endpoint b)) /\
  throws (getAllProducts (Some name)) /\
  (forall id, throws (getProductById (Some name) id)) /\
  (forall productData, throws (createProduct (Some name) productData)) /\
  (forall id productData,
     throws (updateProduct (Some name) id productData)) /\
  (forall id, throws (deleteProduct (Some name) id)).
Proof.
  intros Hne Hown Hproto.
  assert (Hc : config (Some name) = Undefined).
  { unfold config. rewrite currentEnv_name by exact Hne.
    unfold entry. rewrite own_profile_absent by exact Hown.
    rewrite existsb_absent by exact Hproto. reflexivity. }
  assert (He : throws (exported (Some name))).
  { unfold exported. rewrite Hc. eexists; reflexivity. }
  assert (Hcall : forall m endpoint b,
             throws (call (Some name) m endpoint b)).
  { intros m endpoint b. unfold call. destruct He as [e ->].
    eexists; reflexivity. }
  split; [exact Hc|]. split; [exact He|]. split; [exact Hcall|].
  repeat split; intros; apply Hcall.
Qed.

Lemma config_unknown_environment_witness :
  js "local" <> [] /\
  ~ In (js "local") (map fst environments) /\
  ~ In (js "local") Object_prototype_keys /\
  config (Some (js "local")) = Undefined /\
  throws (exported (Some (js "local"))).
Proof.
  assert (H1 : js "local" <> []) by discriminate.
  assert (H2 : ~ In (js "local") (map fst environments)).
  { simpl. intros [H|[H|[H|[H|[]]]]]; discriminate H. }
  assert (H3 : ~ In (js "local") Object_prototype_keys).
  { simpl. intuition discriminate. }
  split; [exact H1|]. split; [exact H2|]. split; [exact H3|].
  split.
  - exact (proj1 (config_unknown_environment (js "local") H1 H2 H3)).
  - exact (proj1 (proj2 (config_unknown_environment (js "local") H1 H2 H3))).
Defined.

End EnvironmentFacts.

(** ** The schema library *)
Module JoiFacts.
Import Joi Spec.

(** *** Rules *)

Lemma run_rules_all {R A : Type} (holds : R -> A -> bool) (code_of : R -> code)
    (rules : list R) (a : A) (d : detail) :
  In d (run_rules holds code_of false rules a) <->
  exists r, In r rules /\ holds r a = false /\ d = here (code_of r).
Proof.
  induction rules as [|r rules IH]; simpl.
  - split; [intros [] | intros (r & [] & _)].
  - destruct (holds r a) eqn:E.
    + rewrite IH. split.
      * intros (r' & Hin & Hr); eauto.
      * intros (r' & [->|Hin] & Hh & Hd); [congruence | eauto].
    + simpl. rewrite IH. split.
      * intros [<-|(r' & Hin & Hr)]; eauto.
      * intros (r' & [->|Hin] & Hh & Hd); [left; auto | right; eauto].
Qed.

Lemma run_rules_first {R A : Type} (holds : R -> A -> bool)
    (code_of : R -> code) (rules : list R) (a : A) :
  (length (run_rules holds code_of true rules a) <= 1)%nat /\
  run_rules holds code_of true rules a
  = firstn 1 (run_rules holds code_of false rules a).
Proof.
  induction rules as [|r rules [IHl IHe]]; simpl; [split; [lia | reflexivity]|].
  destruct (holds r a); simpl; [split; assumption | split; [lia | reflexivity]].
Qed.

(** *** Keyed objects *)

Lemma check_children_errors (props : JS.object)
    (children : list (jsstring * (JS.value -> tree * list detail)))
    (clone : list (jsstring * tree)) :
  snd (check_children false props children clone)
  = flat_map
      (fun kc => map (under (fst kc)) (snd (snd kc (get props (fst kc)))))
      children.
Proof.
  revert clone; induction children as [|[k child] children IH]; intros clone;
    [reflexivity|].
  cbn [check_children flat_map fst snd].
  destruct (child (get props k)) as [t errs]; cbn [snd].
  match goal with
  | |- context [check_children false props children ?stored] =>
      specialize (IH stored);
      destruct (check_children false props children stored)
        as [clone' errs']
  end.
  cbn [snd] in IH. subst errs'.
  destruct errs as [|e errs]; reflexivity.
Qed.

Lemma check_unknown_all (ks : list jsstring) :
  check_unknown false ks = map (fun k => Detail [k] object_unknown) ks.
Proof. destruct ks; reflexivity. Qed.

(** The errors of a keyed object under [abortEarly: false]: those of every
    child in schema order, then the keys the schema does not list. *)
Lemma check_object_errors (P : prefs) (keys : list (jsstring * schema))
    (u : option bool) (p : presence) (h : heap) (l : loc)
    (props : JS.object) :
  abortEarly P = false ->
  h !! l = Some (CObject props) ->
  snd (check P (object_schema keys u p) h (VRef l))
  = flat_map
      (fun kc => map (under (fst kc))
                   (snd (check P (snd kc) h (get props (fst kc))))) keys
    ++ (if forbids_unknown P u
        then map (fun k => Detail [k] object_unknown)
               (unprocessed props (map fst keys))
        else []).
Proof.
  intros Ha Hl. cbn [check]. unfold check_object. rewrite Hl, Ha.
  match goal with
  | |- context [check_children false props ?cs ?cl] =>
      pose proof (check_children_errors props cs cl) as Hc;
      destruct (check_children false props cs cl) as [clone' errs]
  end.
  cbn [snd] in *. subst errs.
  rewrite flat_map_concat_map, map_map, <- flat_map_concat_map.
  cbn [fst snd].
  rewrite map_map; cbn [fst]. rewrite check_unknown_all.
  cbn [andb negb].
  rewrite andb_true_r.
  destruct (forbids_unknown P u); [reflexivity | rewrite app_nil_r; reflexivity].
Qed.

(** *** The clones *)

Lemma materialize_extends (t : tree) (h : heap) :
  h ⊆ fst (materialize t h).
Proof.
  revert h. induction t as [v|props IH] using tree_ind; intros h;
    [reflexivity|].
  cbn [materialize].
  assert (Hgo : forall h0, h0 ⊆ fst (materialize_props materialize props h0)).
  { clear h. induction IH as [|[k t'] rest Ht _ IHrest]; intros h0;
      [reflexivity|].
    cbn [materialize_props]. cbn [snd] in Ht. specialize (Ht h0).
    destruct (materialize t' h0) as [h1 v]. cbn [fst] in Ht.
    specialize (IHrest h1).
    destruct (materialize_props materialize rest h1) as [h2 rest'].
    cbn [fst] in *. etrans; eassumption. }
  specialize (Hgo h).
  destruct (materialize_props materialize props h) as [h' props'].
  cbn [fst] in *.
  etrans; [exact Hgo|]. apply insert_subseteq.
  apply not_elem_of_dom, is_fresh.
Qed.

(** Validation leaves every cell of the heap as it was. *)
Lemma validate_preserves (s : schema) (data : JS.value) (P : prefs)
    (h : heap) (l : loc) (c : cell) :
  h !! l = Some c -> fst (validate s data P h) !! l = Some c.
Proof.
  intros Hl. unfold validate.
  destruct (check P s h data) as [t errs].
  pose proof (materialize_extends t h) as Hsub.
  destruct (materialize t h) as [h' v]. cbn [fst] in *.
  eapply lookup_weaken; eassumption.
Qed.

Lemma validate_error (s : schema) (data : JS.value) (P : prefs) (h : heap) :
  error (snd (validate s data P h))
  = match snd (check P s h data) with
    | [] => None
    | errs => Some {| details := errs |}
    end.
Proof.
  unfold validate. destruct (check P s h data) as [t errs].
  destruct (materialize t h) as [h' v]. destruct errs; reflexivity.
Qed.

(** *** The validator reports the violated rules, all of them *)

Lemma coerce_number_undefined (v : JS.value) :
  coerce_number v = VUndefined -> v = VUndefined.
Proof.
  destruct v as [| |b|n|s|l]; simpl; try discriminate; auto.
  destruct (parse_number s); discriminate.
Qed.

Lemma check_presence_violation (p : presence) (pth : list jsstring) (c : code) :
  In (Detail pth c) (check_presence p) <->
  p = required_flag /\ pth = [] /\ c = any_required.
Proof.
  destruct p; simpl.
  - split; [intros [] | intros (H & _); discriminate H].
  - split; [intros [[= <- <-]|[]]; auto | intros (_ & -> & ->); auto].
Qed.

Lemma check_number_violation (rules : list number_rule) (p : presence)
    (h : heap) (v : JS.value) (pth : list jsstring) (c : code) :
  In (Detail pth c) (snd (check_number collect_all rules p v)) <->
  violation h (number_schema rules p) v pth c.
Proof.
  unfold check_number; cbn [collect_all with_abortEarly defaults convert
                              abortEarly snd].
  split.
  - destruct (coerce_number v) as [| |b|[| | |q]|s|l] eqn:E.
    + intros H. apply check_presence_violation in H as (-> & -> & ->).
      apply coerce_number_undefined in E as ->. constructor. reflexivity.
    + intros [[= <- <-]|[]]. constructor; rewrite E; congruence.
    + intros [[= <- <-]|[]]. constructor; rewrite E; congruence.
    + intros [[= <- <-]|[]]. constructor; rewrite E; congruence.
    + intros [[= <- <-]|[]]. constructor; rewrite E; auto.
    + intros [[= <- <-]|[]]. constructor; rewrite E; auto.
    + destruct (is_safe q) eqn:Es.
      * intros H. apply run_rules_all in H as (r & Hin & Hr & [= -> ->]).
        eapply number_rule_broken; eassumption.
      * intros [[= <- <-]|[]]. eapply unsafe_number; eassumption.
    + intros [[= <- <-]|[]]. constructor; rewrite E; congruence.
    + intros [[= <- <-]|[]]. constructor; rewrite E; congruence.
  - intros H. inversion H as
      [s Hp| ? ? ? Hu Hn| ? ? ? Hi| ? ? ? q Hq Hs| ? ? ? q r Hq Hs Hin Hr
      | | | | | |]; subst.
    + cbn [coerce_number]. simpl in Hp. subst p. left; reflexivity.
    + destruct (coerce_number v) as [| |b|[| | |q]|s|l] eqn:E;
        try (left; reflexivity); try congruence;
        specialize (Hn _ eq_refl); discriminate.
    + destruct Hi as [-> | ->]; left; reflexivity.
    + rewrite Hq, Hs. left; reflexivity.
    + rewrite Hq, Hs. apply run_rules_all. eauto.
Qed.

Lemma check_string_violation (rules : list string_rule) (p : presence)
    (h : heap) (v : JS.value) (pth : list jsstring) (c : code) :
  In (Detail pth c) (snd (check_string collect_all rules p v)) <->
  violation h (string_schema rules p) v pth c.
Proof.
  unfold check_string; cbn [collect_all with_abortEarly defaults abortEarly snd].
  split.
  - destruct v as [| |b|n|[|x s]|l].
    + intros H. apply check_presence_violation in H as (-> & -> & ->).
      constructor. reflexivity.
    + intros [[= <- <-]|[]]. constructor; congruence.
    + intros [[= <- <-]|[]]. constructor; congruence.
    + intros [[= <- <-]|[]]. constructor; congruence.
    + intros [[= <- <-]|[]]. constructor.
    + intros H. apply run_rules_all in H as (r & Hin & Hr & [= -> ->]).
      constructor; [discriminate | assumption | assumption].
    + intros [[= <- <-]|[]]. constructor; congruence.
  - intros H. inversion H as
      [s Hp| | | | | ? ? ? Hu Hn| | ? ? s r Hs Hin Hr | | |]; subst.
    + simpl in Hp. subst p. left; reflexivity.
    + destruct v as [| |b|n|[|x s]|l]; try (left; reflexivity);
        try congruence; exfalso; eapply Hn; reflexivity.
    + left; reflexivity.
    + destruct s as [|x s]; [congruence|]. apply run_rules_all. eauto.
Qed.

Lemma existsb_eqb_In (k : jsstring) (ks : list jsstring) :
  existsb (jsstring_eqb k) ks = true <-> In k ks.
Proof.
  rewrite existsb_exists. split.
  - intros (x & Hin & Hx). apply jsstring_eqb_eq in Hx as ->. exact Hin.
  - intros Hin. exists k. split; [exact Hin | apply jsstring_eqb_refl].
Qed.

Lemma unprocessed_In (props : JS.object) (keys : list jsstring) (k : jsstring) :
  In k (unprocessed props keys) <-> In k (map fst props) /\ ~ In k keys.
Proof.
  unfold unprocessed. rewrite filter_In, negb_true_iff.
  rewrite <- (existsb_eqb_In k keys).
  destruct (existsb (jsstring_eqb k) keys); split; intros [H1 H2];
    split; try assumption; try discriminate; try congruence.
Qed.

Lemma forbids_unknown_collect_all (u : option bool) :
  forbids_unknown collect_all u = true <-> u <> Some true.
Proof.
  destruct u as [[|]|]; cbn; split; congruence.
Qed.

Lemma object_base_violation (keys : list (jsstring * schema))
    (u : option bool) (p : presence) (h : heap) (v : JS.value)
    (pth : list jsstring) (c : code) :
  v <> VUndefined -> ~ is_plain_object h v ->
  (In (Detail pth c) [here object_base] <->
   violation h (object_schema keys u p) v pth c).
Proof.
  intros Hu Hn. split.
  - intros [[= <- <-]|[]]. constructor; assumption.
  - intros H. inversion H; subst.
    all: first [ congruence
               | left; reflexivity
               | exfalso; apply Hn; eexists _, _;
                 split; [reflexivity | eassumption] ].
Qed.

(** Under the preferences of [validateSchema], the details of a validation
    are the violated rules of the shape: each one is reported, and nothing
    else is. *)
Lemma check_violation (s : schema) :
  forall (h : heap) (v : JS.value) (pth : list jsstring) (c : code),
    In (Detail pth c) (snd (check collect_all s h v)) <->
    violation h s v pth c.
Proof.
  induction s as [rules p|rules p|keys u p IH] using schema_ind;
    intros h v pth c.
  - apply check_number_violation.
  - apply check_string_violation.
  - assert (Hplain : forall l cl, v = VRef l -> h !! l = cl ->
                       (forall props, cl <> Some (CObject props)) ->
                       ~ is_plain_object h v).
    { intros l cl -> Hl Hcl (l' & props & [= <-] & Hl'). eapply Hcl.
      rewrite <- Hl. exact Hl'. }
    destruct v as [| |b|n|x|l].
    + cbn. rewrite check_presence_violation. split.
      * intros (-> & -> & ->). constructor. reflexivity.
      * intros H. inversion H as [s Hp| | | | | | | |? ? ? ? Hu| |]; subst;
          [simpl in Hp; auto | congruence].
    + apply object_base_violation; [discriminate|].
      intros (l & props & [=] & _).
    + apply object_base_violation; [discriminate|].
      intros (l & props & [=] & _).
    + apply object_base_violation; [discriminate|].
      intros (l & props & [=] & _).
    + apply object_base_violation; [discriminate|].
      intros (l & props & [=] & _).
    + destruct (h !! l) as [[props|elems|]|] eqn:Hl.
      * rewrite (check_object_errors collect_all keys u p h l props eq_refl Hl).
        rewrite in_app_iff, in_flat_map. split.
        -- intros [(kc & Hin & Hd)|Hd].
           ++ apply in_map_iff in Hd as ([pth' c'] & [= <- <-] & Hd).
              rewrite Forall_forall in IH. apply (IH kc) in Hd;
                [|apply list_elem_of_In, Hin].
              destruct kc as [k child]. eapply in_child; eassumption.
           ++ destruct (forbids_unknown collect_all u) eqn:Ef; [|destruct Hd].
              apply forbids_unknown_collect_all in Ef.
              apply in_map_iff in Hd as (k & [= <- <-] & Hk).
              apply unprocessed_In in Hk as [Hk Hnk].
              eapply unknown_key; eassumption.
        -- intros H. inversion H as
             [| | | | | | | |? ? ? ? Hu Hn
             |? ? ? ? props' k child pth' ? Hl' Hin Hv
             |? ? ? ? props' k Hl' Hu Hk Hnk]; subst.
           ++ exfalso. apply Hn. eexists _, _; split; [reflexivity | exact Hl].
           ++ left. exists (k, child). split; [exact Hin|].
              rewrite Hl in Hl'. injection Hl' as <-.
              apply in_map_iff. exists (Detail pth' c). split; [reflexivity|].
              rewrite Forall_forall in IH.
              apply (IH (k, child)); [apply list_elem_of_In, Hin | exact Hv].
           ++ right. rewrite Hl in Hl'. injection Hl' as <-.
              apply forbids_unknown_collect_all in Hu. rewrite Hu.
              apply in_map_iff. exists k. split; [reflexivity|].
              apply unprocessed_In. split; assumption.
      * cbn [check]. unfold check_object. rewrite Hl.
        apply object_base_violation; [discriminate|].
        eapply Hplain; [reflexivity | exact Hl | congruence].
      * cbn [check]. unfold check_object. rewrite Hl.
        apply object_base_violation; [discriminate|].
        eapply Hplain; [reflexivity | exact Hl | congruence].
      * cbn [check]. unfold check_object. rewrite Hl.
        apply object_base_violation; [discriminate|].
        eapply Hplain; [reflexivity | exact Hl | congruence].
Qed.

End JoiFacts.

(** ** Where the model follows the library, and the clone *)
Module FragmentFacts.

Import Joi Spec JoiFacts.

Lemma after_app (prefix s rest : jsstring) :
  after prefix s = Some rest -> s = prefix ++ rest.
Proof.
  revert s. induction prefix as [|c prefix IH]; intros s; simpl.
  - intros [= ->]. reflexivity.
  - destruct s as [|d s]; [discriminate|].
    destruct (N.eqb c d) eqn:E; [|discriminate].
    apply N.eqb_eq in E as ->. intros H. rewrite (IH _ H). reflexivity.
Qed.

Lemma span_host_app (s : jsstring) :
  s = fst (span_host s) ++ snd (span_host s) /\
  forallb is_host_char (fst (span_host s)) = true.
Proof.
  induction s as [|c s [IH1 IH2]]; [split; reflexivity|].
  cbn [span_host]. destruct (is_host_char c) eqn:E; [|split; reflexivity].
  destruct (span_host s) as [host rest]. cbn [fst snd] in *.
  split; [rewrite IH1 at 1; reflexivity|]. cbn [forallb]. rewrite E. exact IH2.
Qed.

Lemma uri_body_cons (c : N) (s : jsstring) :
  c <> 37%N -> uri_body (c :: s) = is_uri_char c && uri_body s.
Proof.
  intros Hc. destruct c as [|p]; [reflexivity|].
  do 7 (try (destruct p as [p|p|]; try reflexivity)).
  contradiction.
Qed.

Lemma is_alpha_range (c : N) :
  is_alpha c = true -> (65 <= c <= 90)%N \/ (97 <= c <= 122)%N.
Proof.
  unfold is_alpha. rewrite orb_true_iff, !andb_true_iff, !N.leb_le. tauto.
Qed.

Lemma is_digit_range (c : N) : is_digit c = true -> (48 <= c <= 57)%N.
Proof. unfold is_digit. rewrite andb_true_iff, !N.leb_le. tauto. Qed.

Lemma is_path_char_uri (c : N) :
  is_path_char c = true -> is_uri_char c = true /\ c <> 37%N.
Proof.
  unfold is_path_char, is_host_char, is_uri_char. intros H.
  rewrite !orb_true_iff, !N.eqb_eq in H.
  destruct H as [[[[[[H|H]|H]|H]|H]|H]|H].
  - rewrite H. split; [reflexivity|]. apply is_alpha_range in H. lia.
  - rewrite H, orb_true_r. split; [reflexivity|].
    apply is_digit_range in H. lia.
  - subst c. split; [reflexivity|discriminate].
  - subst c. split; [reflexivity|discriminate].
  - subst c. split; [reflexivity|discriminate].
  - subst c. split; [reflexivity|discriminate].
  - subst c. split; [reflexivity|discriminate].
Qed.

Lemma uri_body_path (s : jsstring) :
  forallb is_path_char s = true -> uri_body s = true.
Proof.
  induction s as [|c s IH]; [reflexivity|].
  cbn [forallb]. rewrite andb_true_iff. intros [Hc Hs].
  destruct (is_path_char_uri c Hc) as [Hu Hn].
  rewrite (uri_body_cons c s Hn), Hu, (IH Hs). reflexivity.
Qed.

Lemma is_host_char_path (c : N) : is_host_char c = true -> is_path_char c = true.
Proof. unfold is_path_char. intros ->. reflexivity. Qed.

(** The model accepts every web address. *)
Lemma web_address_is_uri (s : jsstring) :
  web_address s = true -> is_uri s = true.
Proof.
  unfold web_address. intros H.
  assert (Hrest : exists rest,
            (s = js "https://" ++ rest \/ s = js "http://" ++ rest) /\
            (let '(host, path) := span_host rest in
             negb (jsstring_eqb host []) && (length host <=? 255)%nat &&
             match path with
             | [] => true
             | c :: _ => N.eqb c 47 && forallb is_path_char path
             end) = true).
  { destruct (after (js "https://") s) as [rest|] eqn:E1.
    - exists rest. split; [left; exact (after_app _ _ _ E1)|exact H].
    - destruct (after (js "http://") s) as [rest|] eqn:E2; [|discriminate].
      exists rest. split; [right; exact (after_app _ _ _ E2)|exact H]. }
  destruct Hrest as (rest & Hs & Hrest).
  destruct (span_host_app rest) as [Happ Hhost].
  destruct (span_host rest) as [host path]. cbn [fst snd] in *.
  apply andb_true_iff in Hrest as [Hrest Hpath].
  apply andb_true_iff in Hrest as [Hne _].
  assert (Hbody : uri_body rest = true).
  { apply uri_body_path. rewrite Happ, forallb_app. apply andb_true_iff. split.
    - apply forallb_forall. intros c Hc. apply is_host_char_path.
      exact (proj1 (forallb_forall _ _) Hhost c Hc).
    - destruct path as [|c path]; [reflexivity|].
      apply andb_true_iff in Hpath as [_ Hpath]. exact Hpath. }
  destruct Hs as [-> | ->].
  - change (is_uri (js "https://" ++ rest)) with (uri_body rest). exact Hbody.
  - change (is_uri (js "http://" ++ rest)) with (uri_body rest). exact Hbody.
Qed.


Lemma digit_cases (c : N) :
  is_digit c = true ->
  (c = 48 \/ c = 49 \/ c = 50 \/ c = 51 \/ c = 52 \/
   c = 53 \/ c = 54 \/ c = 55 \/ c = 56 \/ c = 57)%N.
Proof. intros H. apply is_digit_range in H. lia. Qed.

Lemma trimStart_digit (c : N) (s : jsstring) :
  is_digit c = true -> trimStart (c :: s) = c :: s.
Proof.
  intros H. apply digit_cases in H.
  repeat (destruct H as [->|H]; [reflexivity|]). subst c. reflexivity.
Qed.

Lemma take_sign_digit (c : N) (s : jsstring) :
  is_digit c = true -> take_sign (c :: s) = (false, c :: s).
Proof.
  intros H. apply digit_cases in H.
  repeat (destruct H as [->|H]; [reflexivity|]). subst c. reflexivity.
Qed.

Lemma take_digits_all (s : jsstring) :
  forallb is_digit s = true ->
  take_digits s = (map (fun c => (c - 48)%N) s, []).
Proof.
  induction s as [|c s IH]; [reflexivity|].
  cbn [forallb take_digits]. rewrite andb_true_iff. intros [Hc Hs].
  rewrite Hc, (IH Hs). reflexivity.
Qed.

(** A short integer text is read as the integer it denotes. *)
Lemma short_digits_parse (s : jsstring) :
  short_digits s = true ->
  parse_number s = Some (inject_Z (digits_number s)).
Proof.
  destruct s as [|c s]; [discriminate|]. unfold short_digits.
  rewrite !andb_true_iff. intros [[_ Hd] _].
  assert (Hc : is_digit c = true).
  { cbn [forallb] in Hd. apply andb_true_iff in Hd. tauto. }
  unfold parse_number.
  rewrite (trimStart_digit c s Hc), (take_sign_digit c s Hc).
  rewrite (take_digits_all (c :: s) Hd).
  cbn [map forallb andb length Z.of_nat]. rewrite app_nil_r.
  unfold scale, digits_number. cbn [Z.sub Z.opp Z.leb Z.compare Z.pow Z.pow_pos].
  cbn [map]. f_equal. f_equal. apply Z.mul_1_r.
Qed.

Lemma short_digits_faithful (s : jsstring) :
  short_digits s = true -> faithful_number (VStr s).
Proof. intros H s' [= <-]. right. exact H. Qed.

Lemma number_faithful (n : JS.number) : faithful_number (VNum n).
Proof. intros s H. discriminate. Qed.

(** *** The clone validation returns *)

Lemma get_tree_set_tree (o : list (jsstring * tree)) (k k' : jsstring)
    (t : tree) :
  get_tree (set_tree o k t) k'
  = if jsstring_eqb k k' then Some t else get_tree o k'.
Proof.
  unfold set_tree. induction o as [|[k0 t0] o IH]; simpl.
  - destruct (jsstring_eqb k k'); reflexivity.
  - destruct (jsstring_eqb k0 k) eqn:E0; simpl.
    + apply jsstring_eqb_eq in E0 as ->.
      destruct (jsstring_eqb k k'); reflexivity.
    + rewrite IH. destruct (jsstring_eqb k0 k') eqn:E1; [|reflexivity].
      apply jsstring_eqb_eq in E1 as <-. rewrite jsstring_eqb_sym, E0.
      reflexivity.
Qed.

Lemma check_children_other (props : JS.object)
    (children : list (jsstring * (JS.value -> tree * list detail)))
    (k : jsstring) :
  ~ In k (map fst children) ->
  forall clone,
    get_tree (fst (check_children false props children clone)) k
    = get_tree clone k.
Proof.
  induction children as [|[k0 c0] rest IH]; intros Hk clone; [reflexivity|].
  cbn [check_children]. simpl in Hk.
  assert (Hne : jsstring_eqb k0 k = false).
  { apply jsstring_eqb_neq. intros ->. apply Hk. left. reflexivity. }
  assert (Hrest : ~ In k (map fst rest)) by (intros H; apply Hk; right; exact H).
  destruct (c0 (get props k0)) as [t errs].
  set (stored := match t with
                 | TVal VUndefined => clone
                 | _ => set_tree clone k0 t
                 end).
  assert (Hs : get_tree stored k = get_tree clone k).
  { unfold stored. destruct t as [[| |b|n|s|l]|ts];
      try reflexivity; rewrite get_tree_set_tree, Hne; reflexivity. }
  destruct errs as [|e errs].
  - rewrite (IH Hrest stored). exact Hs.
  - pose proof (IH Hrest stored) as H.
    destruct (check_children false props rest stored) as [clone' errs'].
    cbn [fst] in *. rewrite H. exact Hs.
Qed.

Lemma check_children_stored (props : JS.object)
    (children : list (jsstring * (JS.value -> tree * list detail)))
    (k : jsstring) (child : JS.value -> tree * list detail) (t : tree) :
  List.NoDup (map fst children) ->
  In (k, child) children ->
  fst (child (get props k)) = t ->
  t <> TVal VUndefined ->
  forall clone,
    get_tree (fst (check_children false props children clone)) k = Some t.
Proof.
  intros Hnd Hin Ht Hu.
  induction children as [|[k0 c0] rest IH]; intros clone; [destruct Hin|].
  simpl in Hnd. apply List.NoDup_cons_iff in Hnd as [Hk0 Hnd].
  cbn [check_children]. destruct Hin as [[= -> ->]|Hin].
  - destruct (child (get props k)) as [t' errs] eqn:E. cbn [fst] in Ht. subst t'.
    set (stored := match t with
                   | TVal VUndefined => clone
                   | _ => set_tree clone k t
                   end).
    assert (Hs : get_tree stored k = Some t).
    { unfold stored. destruct t as [[| |b|n|s|l]|ts];
        try contradiction; rewrite get_tree_set_tree, jsstring_eqb_refl;
        reflexivity. }
    pose proof (check_children_other props rest k Hk0 stored) as H.
    destruct errs as [|e errs]; [rewrite H; exact Hs|].
    destruct (check_children false props rest stored) as [clone' errs'].
    cbn [fst] in *. rewrite H. exact Hs.
  - destruct (c0 (get props k0)) as [t0 errs].
    destruct errs as [|e errs]; [apply (IH Hnd Hin)|].
    pose proof (IH Hnd Hin
                  (match t0 with
                   | TVal VUndefined => clone
                   | _ => set_tree clone k0 t0
                   end)) as H.
    destruct (check_children false props rest _) as [clone' errs'].
    exact H.
Qed.

Lemma materialize_props_extends (ts : list (jsstring * tree)) (h : heap) :
  h ⊆ fst (materialize_props materialize ts h).
Proof.
  revert h. induction ts as [|[k t] ts IH]; intros h; [reflexivity|].
  cbn [materialize_props]. pose proof (materialize_extends t h) as Ht.
  destruct (materialize t h) as [h1 v]. cbn [fst] in Ht.
  specialize (IH h1).
  destruct (materialize_props materialize ts h1) as [h2 rest].
  cbn [fst] in *. etrans; eassumption.
Qed.

Lemma materialize_props_get (ts : list (jsstring * tree)) (h : heap)
    (k : jsstring) (v : JS.value) :
  get_tree ts k = Some (TVal v) ->
  get (snd (materialize_props materialize ts h)) k = v.
Proof.
  revert h. induction ts as [|[k0 t0] ts IH]; intros h; [discriminate|].
  cbn [get_tree materialize_props].
  destruct (jsstring_eqb k0 k) eqn:E.
  - intros [= ->]. cbn [materialize].
    destruct (materialize_props materialize ts h) as [h2 rest].
    cbn [snd get]. rewrite E. reflexivity.
  - intros H. destruct (materialize t0 h) as [h1 v0].
    specialize (IH h1 H).
    destruct (materialize_props materialize ts h1) as [h2 rest].
    cbn [snd get] in *. rewrite E. exact IH.
Qed.

(** The validated value of a keyed object is a new object: it lies where
    the heap held nothing, and under each key it holds what validation
    stored there. *)
Lemma validate_clone (s : schema) (data : JS.value) (P : prefs) (h : heap)
    (ts : list (jsstring * tree)) :
  fst (check P s h data) = TObj ts ->
  exists l props,
    value (snd (validate s data P h)) = VRef l /\
    h !! l = None /\
    fst (validate s data P h) !! l = Some (CObject props) /\
    forall k v, get_tree ts k = Some (TVal v) -> get props k = v.
Proof.
  intros Ht. unfold validate.
  destruct (check P s h data) as [t errs]. cbn [fst] in Ht. subst t.
  cbn [materialize].
  pose proof (materialize_props_extends ts h) as Hsub.
  pose proof (materialize_props_get ts h) as Hget.
  destruct (materialize_props materialize ts h) as [h1 props].
  cbn [fst snd value] in *.
  exists (fresh (dom h1)), props.
  assert (Hfresh : h1 !! fresh (dom h1) = None)
    by (apply not_elem_of_dom, is_fresh).
  split; [reflexivity|]. split; [|split].
  - destruct (h !! fresh (dom h1)) as [c|] eqn:E; [|reflexivity].
    rewrite (lookup_weaken _ _ _ _ E Hsub) in Hfresh. discriminate.
  - apply lookup_insert_eq.
  - exact Hget.
Qed.

Lemma check_object_tree (P : prefs) (keys : list (jsstring * schema))
    (u : option bool) (p : presence) (h : heap) (l : loc)
    (props : JS.object) :
  h !! l = Some (CObject props) ->
  fst (check P (object_schema keys u p) h (VRef l))
  = TObj (fst (check_children (abortEarly P) props
                 (map (fun kc => (fst kc, check P (snd kc) h)) keys)
                 (map (fun kv => (fst kv, TVal (snd kv))) props))).
Proof.
  intros Hl. cbn [check]. unfold check_object. rewrite Hl.
  destruct (check_children _ _ _ _) as [clone' errs]. reflexivity.
Qed.


(** The validated value of an object whose price is a short integer text:
    a new object holding the integer at the price. *)
Lemma validate_converts_price (keys : list (jsstring * schema))
    (u : option bool) (p : presence) (rules : list number_rule) (h : heap)
    (l : loc) (props : JS.object) (text : jsstring) :
  h !! l = Some (CObject props) ->
  List.NoDup (map fst keys) ->
  In (js "price", number_schema rules required_flag) keys ->
  get props (js "price") = VStr text ->
  short_digits text = true ->
  exists l' props',
    value (snd (validate (object_schema keys u p) (VRef l) collect_all h))
    = VRef l' /\
    h !! l' = None /\
    fst (validate (object_schema keys u p) (VRef l) collect_all h) !! l'
    = Some (CObject props') /\
    get props' (js "price") = num (digits_number text).
Proof.
  intros Hl Hnd Hin Hprice Hshort.
  destruct (validate_clone _ _ _ _ _
              (check_object_tree collect_all keys u p h l props Hl))
    as (l' & props' & Hv & Hnone & Hcell & Hget).
  exists l', props'. split; [exact Hv|]. split; [exact Hnone|].
  split; [exact Hcell|]. apply Hget.
  apply (check_children_stored props _ (js "price")
           (check collect_all (number_schema rules required_flag) h)).
  - rewrite map_map. cbn [fst]. exact Hnd.
  - apply in_map_iff. exists (js "price", number_schema rules required_flag).
    split; [reflexivity|exact Hin].
  - rewrite Hprice. cbn [check]. unfold check_number.
    cbn [convert collect_all with_abortEarly defaults coerce_number fst].
    rewrite (short_digits_parse text Hshort). reflexivity.
  - discriminate.
Qed.

Lemma violation_broken (h : heap) (s : schema) (v : JS.value)
    (pth : list jsstring) (c : code) :
  violation h s v pth c -> broken h s v pth c.
Proof.
  induction 1;
    [ apply broken_missing | apply broken_not_a_number
    | apply broken_infinite_number | eapply broken_unsafe_number
    | eapply broken_number_rule | apply broken_not_a_string
    | apply broken_empty_string | apply broken_string_rule
    | apply broken_not_an_object | eapply broken_in_child
    | eapply broken_unknown_key ]; eassumption.
Qed.

(** A broken rule is a violation unless the value fails the type check of
    its field, as an unsafe number or an empty string, which is then the
    violation at that place. *)
Lemma broken_violation (h : heap) (s : schema) (v : JS.value)
    (pth : list jsstring) (c : code) :
  broken h s v pth c ->
  violation h s v pth c \/
  violation h s v pth number_unsafe \/
  violation h s v pth string_empty.
Proof.
  induction 1 as [s Hp | rules p v H1 H2 | rules p v H | rules p v q H1 H2
                 | rules p v q r H1 H2 H3 | rules p v H1 H2 | rules p
                 | rules p s r H1 H2 | keys u p v H1 H2
                 | keys u p l props k child path c Hl Hin Hb IH
                 | keys u p l props k Hl Hu H1 H2].
  - left. apply missing, Hp.
  - left. apply not_a_number; assumption.
  - left. apply infinite_number, H.
  - left. eapply unsafe_number; eassumption.
  - destruct (is_safe q) eqn:Hs.
    + left. eapply number_rule_broken; eassumption.
    + right. left. eapply unsafe_number; eassumption.
  - left. apply not_a_string; assumption.
  - left. apply empty_string.
  - destruct s as [|x s].
    + right. right. apply empty_string.
    + left. apply string_rule_broken; [discriminate | assumption | assumption].
  - left. apply not_an_object; assumption.
  - destruct IH as [IH|[IH|IH]];
      [left | right; left | right; right]; eapply in_child; eassumption.
  - left. eapply unknown_key; eassumption.
Qed.

End FragmentFacts.

(** ** utils/schemaValidator.js *)
Module SchemaValidatorFacts.
Import Spec SchemaValidator Fixtures JoiFacts FragmentFacts.

(** *** Conformance, rule by rule *)

Lemma validateSchema_error (data : value) (s : Joi.schema) (h : heap) :
  Joi.error (snd (validateSchema data s h))
  = match snd (Joi.check Joi.collect_all s h data) with
    | [] => None
    | errs => Some {| Joi.details := errs |}
    end.
Proof. apply validate_error. Qed.

Lemma reports_violation (data : value) (s : Joi.schema) (h : heap)
    (pth : list jsstring) (c : Joi.code) :
  reports data s h pth c <-> violation h s data pth c.
Proof.
  unfold reports. rewrite validateSchema_error, <- check_violation.
  destruct (snd (Joi.check Joi.collect_all s h data)) as [|d errs].
  - split; [intros (e & [=] & _) | intros []].
  - split; [intros (e & [= <-] & Hin); exact Hin | eauto].
Qed.

Lemma validateSchema_conforms (data : value) (s : Joi.schema) (h : heap) :
  Joi.error (snd (validateSchema data s h)) = None <-> conforms h s data.
Proof.
  rewrite validateSchema_error. unfold conforms.
  destruct (snd (Joi.check Joi.collect_all s h data)) as [|[pth c] errs] eqn:E.
  - split; [|reflexivity]. intros _ pth c Hv.
    apply check_violation in Hv. rewrite E in Hv. destruct Hv.
  - split; [discriminate|]. intros H. exfalso. apply (H pth c).
    apply check_violation. rewrite E. left; reflexivity.
Qed.

Lemma conforms_optional (h : heap) (s : Joi.schema) :
  presence_of s = Joi.optional -> conforms h s VUndefined.
Proof.
  intros Hp pth c Hv. inversion Hv; subst; simpl in *; try congruence.
  all: try match goal with H : _ \/ _ |- _ => destruct H end;
    try discriminate.
Qed.

Lemma conforms_number (h : heap) (rules : list Joi.number_rule)
    (p : Joi.presence) (v : value) (q : Q) :
  Joi.coerce_number v = VNum (Fin q) ->
  Joi.is_safe q = true ->
  (forall r, In r rules -> Joi.number_rule_holds r q = true) ->
  conforms h (Joi.number_schema rules p) v.
Proof.
  intros Hq Hs Hr pth c Hv. inversion Hv; subst.
  - discriminate Hq.
  - match goal with H : forall n, _ -> n = NaN |- _ =>
      specialize (H _ Hq); discriminate H end.
  - match goal with H : _ \/ _ |- _ => destruct H; congruence end.
  - congruence.
  - match goal with
    | H : Joi.coerce_number v = VNum (Fin ?q'), Hin : In ?r rules,
      Hf : Joi.number_rule_holds ?r ?q' = false |- _ =>
        rewrite Hq in H; injection H as <-; rewrite (Hr r Hin) in Hf;
        discriminate Hf
    end.
Qed.

Lemma conforms_number_inv (h : heap) (rules : list Joi.number_rule)
    (v : value) :
  conforms h (Joi.number_schema rules Joi.required_flag) v ->
  exists q,
    Joi.coerce_number v = VNum (Fin q) /\
    Joi.is_safe q = true /\
    forall r, In r rules -> Joi.number_rule_holds r q = true.
Proof.
  intros H.
  destruct (Joi.coerce_number v) as [| |b|[| | |q]|s|l] eqn:E.
  1: { apply coerce_number_undefined in E as ->.
       edestruct H. constructor. reflexivity. }
  all: try solve [edestruct H; apply not_a_number; rewrite E; congruence].
  1, 2: solve [edestruct H; apply infinite_number; rewrite E; auto].
  exists q. split; [reflexivity|].
  destruct (Joi.is_safe q) eqn:Es;
    [|edestruct H; eapply unsafe_number; eassumption].
  split; [reflexivity|]. intros r Hin.
  destruct (Joi.number_rule_holds r q) eqn:Er; [reflexivity|].
  edestruct H. eapply number_rule_broken; eassumption.
Qed.

Lemma conforms_string (h : heap) (rules : list Joi.string_rule)
    (p : Joi.presence) (s : jsstring) :
  s <> [] ->
  (forall r, In r rules -> Joi.string_rule_holds r s = true) ->
  conforms h (Joi.string_schema rules p) (VStr s).
Proof.
  intros Hs Hr pth c Hv. inversion Hv; subst; try congruence.
  match goal with
  | Hin : In ?r rules, Hf : Joi.string_rule_holds ?r s = false |- _ =>
      rewrite (Hr r Hin) in Hf; discriminate Hf
  end.
Qed.

Lemma conforms_string_inv (h : heap) (rules : list Joi.string_rule)
    (v : value) :
  conforms h (Joi.string_schema rules Joi.required_flag) v ->
  exists s,
    v = VStr s /\ s <> [] /\
    forall r, In r rules -> Joi.string_rule_holds r s = true.
Proof.
  intros H. destruct v as [| |b|n|s|l].
  1: { edestruct H. constructor. reflexivity. }
  all: try solve [edestruct H; apply not_a_string; congruence].
  exists s. split; [reflexivity|]. split.
  - intros ->. edestruct H. apply empty_string.
  - intros r Hin. destruct (Joi.string_rule_holds r s) eqn:Er; [reflexivity|].
    destruct s as [|x s]; [edestruct H; apply empty_string|].
    edestruct H. apply string_rule_broken; [discriminate | eassumption..].
Qed.

Lemma conforms_object (h : heap) (keys : list (jsstring * Joi.schema))
    (u : option bool) (p : Joi.presence) (l : loc) (props : object) :
  h !! l = Some (CObject props) ->
  (forall k child, In (k, child) keys -> conforms h child (get props k)) ->
  (forall k, In k (map fst props) -> In k (map fst keys)) ->
  conforms h (Joi.object_schema keys u p) (VRef l).
Proof.
  intros Hl Hc Hk pth c Hv. inversion Hv; subst.
  - match goal with H : ~ is_plain_object _ _ |- _ =>
      apply H; eexists _, _; split; [reflexivity | exact Hl] end.
  - match goal with
    | H : h !! l = Some (CObject ?props') |- _ =>
        rewrite Hl in H; injection H as <-
    end.
    eapply Hc; eassumption.
  - match goal with
    | H : h !! l = Some (CObject ?props') |- _ =>
        rewrite Hl in H; injection H as <-
    end.
    auto.
Qed.

Lemma conforms_object_inv (h : heap) (keys : list (jsstring * Joi.schema))
    (u : option bool) (p : Joi.presence) (l : loc) (props : object) :
  h !! l = Some (CObject props) ->
  conforms h (Joi.object_schema keys u p) (VRef l) ->
  (forall k child, In (k, child) keys -> conforms h child (get props k)) /\
  (u <> Some true -> forall k, In k (map fst props) -> In k (map fst keys)).
Proof.
  intros Hl H. split.
  - intros k child Hin pth c Hv. eapply H. eapply in_child; eassumption.
  - intros Hu k Hk.
    destruct (existsb (jsstring_eqb k) (map fst keys)) eqn:E.
    + apply existsb_eqb_In, E.
    + exfalso. eapply H. eapply unknown_key; try eassumption.
      intros Hin. apply existsb_eqb_In in Hin. congruence.
Qed.

Lemma conforms_plain_object (h : heap) (keys : list (jsstring * Joi.schema))
    (u : option bool) (p : Joi.presence) (v : value) :
  v <> VUndefined ->
  conforms h (Joi.object_schema keys u p) v ->
  exists l props, v = VRef l /\ h !! l = Some (CObject props).
Proof.
  intros Hu H.
  destruct v as [| |b|n|s|l]; try congruence.
  1-4: edestruct H; apply not_an_object; [discriminate|];
    intros (l & props & [=] & _).
  destruct (h !! l) as [[props|elems|]|] eqn:Hl; [eauto|..].
  all: edestruct H; apply not_an_object; [discriminate|];
    intros (l' & props' & [= <-] & Hl'); congruence.
Qed.

(** *** The shapes of the suite *)

Lemma ratingSchema_keys :
  ratingSchema
  = Joi.object_schema
      [(js "rate",
        Joi.number_schema [Joi.rule_min 0; Joi.rule_max 5] Joi.required_flag);
       (js "count",
        Joi.number_schema [Joi.rule_integer; Joi.rule_min 0]
          Joi.required_flag)]
      None Joi.optional.
Proof. reflexivity. Qed.

Lemma productSchema_keys :
  productSchema
  = Joi.object_schema
      [(js "id",
        Joi.number_schema [Joi.rule_integer; Joi.rule_positive]
          Joi.required_flag);
       (js "title", Joi.string_schema [] Joi.required_flag);
       (js "price", Joi.number_schema [Joi.rule_positive] Joi.required_flag);
       (js "description", Joi.string_schema [] Joi.required_flag);
       (js "category", Joi.string_schema [] Joi.required_flag);
       (js "image", Joi.string_schema [Joi.rule_uri] Joi.required_flag);
       (js "rating", ratingSchema)]
      None Joi.optional.
Proof. reflexivity. Qed.

Lemma productSchemaWithoutRating_keys :
  productSchemaWithoutRating
  = Joi.object_schema
      [(js "id",
        Joi.number_schema [Joi.rule_integer; Joi.rule_positive]
          Joi.required_flag);
       (js "title", Joi.string_schema [] Joi.required_flag);
       (js "price", Joi.number_schema [Joi.rule_min 0] Joi.required_flag);
       (js "description", Joi.string_schema [] Joi.required_flag);
       (js "category", Joi.string_schema [] Joi.required_flag);
       (js "image", Joi.string_schema [Joi.rule_uri] Joi.required_flag)]
      None Joi.optional.
Proof. reflexivity. Qed.

Lemma createProductSchema_keys :
  createProductSchema
  = Joi.object_schema
      [(js "title", Joi.string_schema [] Joi.required_flag);
       (js "price", Joi.number_schema [Joi.rule_positive] Joi.required_flag);
       (js "description", Joi.string_schema [] Joi.required_flag);
       (js "category", Joi.string_schema [] Joi.required_flag);
       (js "image", Joi.string_schema [Joi.rule_uri] Joi.required_flag)]
      None Joi.optional.
Proof. reflexivity. Qed.

(** *** The full product shape and the rating *)

(** C1. The full product shape does not require the rating: a product with
    the six other fields in order and no rating passes validateSchema and
    assertSchema. *)
Theorem productSchema_accepts_missing_rating :
  has_own product_without_rating (js "rating") = false /\
  Joi.error
    (snd (validateSchema sole productSchema (alone product_without_rating)))
  = None /\
  snd (assertSchema sole productSchema (alone product_without_rating))
  = Normal tt.
Proof. repeat split; vm_compute; reflexivity. Qed.

(** The rating child is the one key of the shape that accepts a missing
    value. *)
Lemma ratingSchema_accepts_undefined (h : heap) :
  conforms h ratingSchema VUndefined.
Proof. apply conforms_optional. reflexivity. Qed.

(** A product as GET returns it, rating included, passes. *)
Example productSchema_accepts_product :
  Joi.error (snd (validateSchema sole productSchema with_rating)) = None.
Proof. vm_compute. reflexivity. Qed.

(** A rating that is present is checked: when a product with a rating
    passes, the rating is an object whose rate is a number of [0,5] and
    whose count is a non-negative integer. *)
Lemma productSchema_rating_checked (h : heap) (l : loc) (props : object) :
  h !! l = Some (CObject props) ->
  get props (js "rating") <> VUndefined ->
  Joi.error (snd (validateSchema (VRef l) productSchema h)) = None ->
  exists lr rating rate count,
    get props (js "rating") = VRef lr /\
    h !! lr = Some (CObject rating) /\
    Joi.coerce_number (get rating (js "rate")) = VNum (Fin rate) /\
    (0 <= rate)%Q /\ (rate <= 5)%Q /\
    Joi.coerce_number (get rating (js "count")) = VNum (Fin count) /\
    Joi.is_integer count = true /\ (0 <= count)%Q.
Proof.
  intros Hl Hr Hok. apply validateSchema_conforms in Hok.
  rewrite productSchema_keys in Hok.
  pose proof (conforms_object_inv h _ _ _ l props Hl Hok) as [Hchild _].
  assert (Hrating : conforms h ratingSchema (get props (js "rating"))).
  { apply Hchild. simpl. tauto. }
  rewrite ratingSchema_keys in Hrating.
  destruct (conforms_plain_object _ _ _ _ _ Hr Hrating)
    as (lr & rating & Hv & Hlr).
  rewrite Hv in Hrating.
  pose proof (conforms_object_inv h _ _ _ lr rating Hlr Hrating)
    as [Hfields _].
  destruct (conforms_number_inv h _ _ (Hfields (js "rate") _ (or_introl eq_refl)))
    as (rate & Hrate & _ & Hrules).
  destruct (conforms_number_inv h _ _
              (Hfields (js "count") _ (or_intror (or_introl eq_refl))))
    as (count & Hcount & _ & Hcrules).
  exists lr, rating, rate, count.
  pose proof (Hrules (Joi.rule_min 0) (or_introl eq_refl)) as Hmin.
  pose proof (Hrules (Joi.rule_max 5) (or_intror (or_introl eq_refl))) as Hmax.
  pose proof (Hcrules Joi.rule_integer (or_introl eq_refl)) as Hint.
  pose proof (Hcrules (Joi.rule_min 0) (or_intror (or_introl eq_refl))) as Hcmin.
  cbn [Joi.number_rule_holds] in *.
  apply Qle_bool_iff in Hmin, Hmax, Hcmin.
  repeat split; assumption.
Qed.

(** *** The creation payload *)

(** C2, as stated, fails at price 0: the zero-price fixture of the suite
    is rejected by the creation shape, whose price must be positive. *)
Lemma createProductSchema_rejects_zero_price :
  get zeroPriceProduct (js "price") = num 0 /\
  Joi.error
    (snd (validateSchema sole createProductSchema (alone zeroPriceProduct)))
  = Some {| Joi.details := [Joi.Detail [js "price"] Joi.number_positive] |}.
Proof. split; vm_compute; reflexivity. Qed.

Lemma is_uri_nonempty (s : jsstring) : Joi.is_uri s = true -> s <> [].
Proof. intros H ->. discriminate H. Qed.

(** C2 (amended). A payload whose title, description and category are
    non-empty strings, whose image is an http or https address and whose
    price is a number of the safe range passes the creation shape when it
    has no other field and the price is positive. A price of 0 or less is
    reported as not positive. Neither id nor rating is required; a field
    outside the five is reported as not allowed. *)
Theorem createProductSchema_accepts_positive_price
    (h : heap) (l : loc) (props : object) (q : Q) :
  h !! l = Some (CObject props) ->
  (forall k, In k [js "title"; js "description"; js "category"] ->
     exists s, get props k = VStr s /\ s <> []) ->
  (exists s, get props (js "image") = VStr s /\ web_address s = true) ->
  get props (js "price") = VNum (Fin q) ->
  Joi.is_safe q = true ->
  ((forall k, In k (map fst props) -> In k creation_fields) ->
   (0 < q)%Q ->
   Joi.error (snd (validateSchema (VRef l) createProductSchema h)) = None) /\
  ((q <= 0)%Q ->
   reports (VRef l) createProductSchema h [js "price"] Joi.number_positive) /\
  (forall k, In k (map fst props) -> ~ In k creation_fields ->
     reports (VRef l) createProductSchema h [k] Joi.object_unknown).
Proof.
  intros Hl Hstr (img & Himg & Hweb) Hprice Hsafe.
  pose proof (web_address_is_uri img Hweb) as Huri.
  split; [|split].
  - intros Hkeys Hpos. apply validateSchema_conforms.
    rewrite createProductSchema_keys.
    apply (conforms_object _ _ _ _ _ _ Hl); [|exact Hkeys].
    intros k child Hin. simpl in Hin.
    destruct Hin as [[= <- <-]|[[= <- <-]|[[= <- <-]|[[= <- <-]|[[= <- <-]|[]]]]]].
    + destruct (Hstr (js "title")) as (s & -> & Hs); [simpl; tauto|].
      apply conforms_string; [exact Hs | intros r []].
    + rewrite Hprice.
      apply (conforms_number _ _ _ _ q); [reflexivity | exact Hsafe |].
      intros r [<-|[]]. cbn [Joi.number_rule_holds].
      apply negb_true_iff. destruct (Qle_bool q 0) eqn:E; [|reflexivity].
      apply Qle_bool_iff in E. exfalso. eapply Qlt_not_le; eassumption.
    + destruct (Hstr (js "description")) as (s & -> & Hs); [simpl; tauto|].
      apply conforms_string; [exact Hs | intros r []].
    + destruct (Hstr (js "category")) as (s & -> & Hs); [simpl; tauto|].
      apply conforms_string; [exact Hs | intros r []].
    + rewrite Himg. apply conforms_string; [apply is_uri_nonempty, Huri|].
      intros r [<-|[]]. exact Huri.
  - intros Hle. apply reports_violation. rewrite createProductSchema_keys.
    eapply in_child; [exact Hl | simpl; right; left; reflexivity |].
    rewrite Hprice.
    apply (number_rule_broken h _ _ _ q Joi.rule_positive);
      [reflexivity | exact Hsafe | left; reflexivity |].
    cbn [Joi.number_rule_holds]. apply negb_false_iff, Qle_bool_iff, Hle.
  - intros k Hk Hnk. apply reports_violation.
    rewrite createProductSchema_keys.
    eapply unknown_key; [exact Hl | discriminate | exact Hk | exact Hnk].
Qed.

Lemma createProductSchema_accepts_positive_price_witness :
  alone validProduct !! 1%positive = Some (CObject validProduct) /\
  get validProduct (js "price") = VNum (Fin (29999 # 100)) /\
  (0 < 29999 # 100)%Q /\
  Joi.error (snd (validateSchema sole createProductSchema (alone validProduct)))
  = None.
Proof.
  assert (Hl : alone validProduct !! 1%positive = Some (CObject validProduct))
    by reflexivity.
  assert (Hpos : (0 < 29999 # 100)%Q) by reflexivity.
  split; [exact Hl|]. split; [reflexivity|]. split; [exact Hpos|].
  apply (proj1 (createProductSchema_accepts_positive_price
                  (alone validProduct) 1%positive validProduct (29999 # 100)
                  Hl
                  ltac:(simpl; intros k [<-|[<-|[<-|[]]]];
                        eexists; (split; [reflexivity | discriminate]))
                  ltac:(eexists; split; reflexivity)
                  eq_refl eq_refl)).
  - simpl. tauto.
  - exact Hpos.
Defined.

(** *** Aggregation *)

Lemma two_members {A : Type} (a b : A) (l : list A) :
  In a l -> In b l -> a <> b -> (2 <= length l)%nat.
Proof.
  destruct l as [|x [|y l]]; simpl; [tauto | | lia].
  intros [<-|[]] [<-|[]] H. congruence.
Qed.

Lemma assertSchema_result (data : value) (s : Joi.schema) (h : heap) :
  snd (assertSchema data s h)
  = match Joi.error (snd (validateSchema data s h)) with
    | Some e => Throw (Error "Schema validation failed: " (Joi.details e))
    | None => Normal tt
    end.
Proof.
  unfold assertSchema. destruct (validateSchema data s h); reflexivity.
Qed.



Lemma broken_product_faithful :
  faithful (alone broken_product) productSchema sole.
Proof.
  rewrite productSchema_keys.
  apply (faithful_object_field (alone broken_product) _ _ _ 1%positive
           broken_product eq_refl).
  intros k child Hin. simpl in Hin.
  destruct Hin as [[= <- <-]|[[= <- <-]|[[= <- <-]|[[= <- <-]|[[= <- <-]|
                   [[= <- <-]|[[= <- <-]|[]]]]]]]].
  - apply faithful_number_field. intros s H. discriminate H.
  - apply faithful_string_field. intros [].
  - apply faithful_number_field. intros s H. discriminate H.
  - apply faithful_string_field. intros [].
  - apply faithful_string_field. intros [].
  - apply faithful_string_field. intros _ s H.
    right. left. injection H as <-. vm_compute. reflexivity.
  - apply faithful_no_object; [|intros s H; discriminate H].
    intros (l & props & H & _). discriminate H.
Qed.


(** Under the defaults of the library, which abort early, a validation
    reports one violation at most: it is the option the suite passes that
    makes the error complete. *)
Lemma check_children_abort (props : object)
    (children : list (jsstring * (value -> Joi.tree * list Joi.detail)))
    (clone : list (jsstring * Joi.tree)) :
  Forall (fun kc => forall v, (length (snd (snd kc v)) <= 1)%nat) children ->
  (length (snd (Joi.check_children true props children clone)) <= 1)%nat.
Proof.
  intros H. revert clone.
  induction H as [|[k child] children Hc _ IH]; intros clone; simpl; [lia|].
  specialize (Hc (get props k)). cbn [snd] in Hc.
  destruct (child (get props k)) as [t [|e errs]]; cbn [snd] in *.
  - apply IH.
  - rewrite length_map. exact Hc.
Qed.

Lemma check_defaults_first_only (s : Joi.schema) :
  forall (h : heap) (v : value),
    (length (snd (Joi.check Joi.defaults s h v)) <= 1)%nat.
Proof.
  induction s as [rules p|rules p|keys u p IH] using Joi.schema_ind; intros h v.
  - cbn. destruct (Joi.coerce_number v) as [| |b|[| | |q]|x|l];
      try (simpl; lia); [destruct p; simpl; lia|].
    destruct (Joi.is_safe q); [apply run_rules_first | simpl; lia].
  - cbn. destruct v as [| |b|n|[|x s]|l]; try (simpl; lia);
      [destruct p; simpl; lia | apply run_rules_first].
  - cbn [Joi.check]. unfold Joi.check_object.
    destruct v as [| |b|n|x|l]; try (simpl; lia); [destruct p; simpl; lia|].
    destruct (h !! l) as [[props|elems|]|]; try (simpl; lia).
    cbn [Joi.abortEarly Joi.defaults].
    match goal with
    | |- context [Joi.check_children true props ?cs ?cl] =>
        pose proof (check_children_abort props cs cl) as Hc;
        destruct (Joi.check_children true props cs cl) as [clone' errs]
    end.
    cbn [snd Joi.abortEarly Joi.defaults andb] in *.
    assert (Hl : (length errs <= 1)%nat).
    { apply Hc. apply Forall_map. eapply Forall_impl; [exact IH|].
      intros [k child] Hch w. cbn [fst snd] in *. apply Hch. }
    destruct errs as [|e errs]; cbn [negb andb app].
    + rewrite andb_true_r.
      destruct (Joi.forbids_unknown _ _); [|simpl; lia].
      destruct (Joi.unprocessed props _); simpl; lia.
    + rewrite andb_false_r. exact Hl.
Qed.

(** *** Conversion and the input *)

Lemma price_text_reported (keys : list (jsstring * Joi.schema))
    (u : option bool) (p : Joi.presence) (rules : list Joi.number_rule)
    (h : heap) (l : loc) (props : object) (text : jsstring) :
  h !! l = Some (CObject props) ->
  get props (js "price") = VStr text ->
  (forall child, In (js "price", child) keys <->
                 child = Joi.number_schema rules Joi.required_flag) ->
  (violation h (Joi.object_schema keys u p) (VRef l) [js "price"]
     Joi.number_base
   <-> Joi.parse_number text = None).
Proof.
  intros Hl Hprice Hkeys. split.
  - intros H. inversion H as
      [| | | | | | | | |? ? ? ? props' k child pth' ? Hl' Hin Hv|]; subst.
    rewrite Hl in Hl'. injection Hl' as <-.
    apply Hkeys in Hin. subst child. rewrite Hprice in Hv.
    inversion Hv as [| ? ? ? Hu Hn| | | ? ? ? q r Hq Hs Hr Hf Hcode | | | | | |];
      subst.
    + cbn [Joi.coerce_number] in Hn.
      destruct (Joi.parse_number text) as [q|]; [|reflexivity].
      specialize (Hn _ eq_refl). discriminate Hn.
    + destruct r; discriminate.
  - intros Hparse. eapply in_child; [exact Hl | apply Hkeys; reflexivity |].
    rewrite Hprice. apply not_a_number; cbn [Joi.coerce_number];
      rewrite Hparse; [discriminate | intros n [=]].
Qed.

Lemma check_number_coerced (P : Joi.prefs) (rules : list Joi.number_rule)
    (p : Joi.presence) (text : jsstring) (q : Q) :
  Joi.convert P = true ->
  Joi.parse_number text = Some q ->
  Joi.check_number P rules p (VStr text)
  = Joi.check_number P rules p (VNum (Fin q)).
Proof.
  intros Hc Hq. unfold Joi.check_number. rewrite Hc.
  cbn [Joi.coerce_number]. rewrite Hq. reflexivity.
Qed.

(** C4, as stated, fails: the text 25 in the price field is read as the
    number 25. The full product shape reports no violation; the validated
    value is a new object whose price is the number 25, and the object that
    was validated still holds the text. *)
Lemma productSchema_accepts_text_price :
  get product_with_text_price (js "price") = str "25" /\
  Joi.error
    (snd (validateSchema sole productSchema (alone product_with_text_price)))
  = None /\
  (exists l props,
     Joi.value
       (snd (validateSchema sole productSchema (alone product_with_text_price)))
     = VRef l /\
     fst (validateSchema sole productSchema (alone product_with_text_price))
       !! l = Some (CObject props) /\
     get props (js "price") = num 25) /\
  fst (validateSchema sole productSchema (alone product_with_text_price))
    !! 1%positive = Some (CObject product_with_text_price).
Proof.
  split; [reflexivity|]. split; [vm_compute; reflexivity|]. split.
  - exists 2%positive. eexists. split; [vm_compute; reflexivity|].
    split; vm_compute; reflexivity.
  - vm_compute; reflexivity.
Qed.

Lemma product_shape_keys (s : Joi.schema) :
  In s product_shapes ->
  exists keys rules,
    s = Joi.object_schema keys None Joi.optional /\
    List.NoDup (map fst keys) /\
    forall child, In (js "price", child) keys <->
                  child = Joi.number_schema rules Joi.required_flag.
Proof.
  simpl. intros [<-|[<-|[<-|[]]]].
  - rewrite productSchema_keys. eexists. exists [Joi.rule_positive].
    split; [reflexivity|]. split.
    + simpl. repeat (apply List.NoDup_cons; [simpl; intuition discriminate|]).
      apply List.NoDup_nil.
    + intros child. simpl. split.
      * intros [H|[H|[H|[H|[H|[H|[H|[]]]]]]]]; try discriminate H.
        injection H as <-. reflexivity.
      * intros ->. tauto.
  - rewrite productSchemaWithoutRating_keys. eexists. exists [Joi.rule_min 0].
    split; [reflexivity|]. split.
    + simpl. repeat (apply List.NoDup_cons; [simpl; intuition discriminate|]).
      apply List.NoDup_nil.
    + intros child. simpl. split.
      * intros [H|[H|[H|[H|[H|[H|[]]]]]]]; try discriminate H.
        injection H as <-. reflexivity.
      * intros ->. tauto.
  - rewrite createProductSchema_keys. eexists. exists [Joi.rule_positive].
    split; [reflexivity|]. split.
    + simpl. repeat (apply List.NoDup_cons; [simpl; intuition discriminate|]).
      apply List.NoDup_nil.
    + intros child. simpl. split.
      * intros [H|[H|[H|[H|[H|[]]]]]]; try discriminate H.
        injection H as <-. reflexivity.
      * intros ->. tauto.
Qed.

(** C4 (amended). Validation changes no cell of the heap it is given. It
    does convert: for an object whose price field is a string, each of the
    three product shapes reports a type violation at the price exactly when
    the string is not a decimal literal; a number shape reports for a text
    of one to fifteen digits, without a leading zero, what it reports for
    the integer the text denotes; and for an object whose price is such a text, of a positive
    integer, the validated value each product shape returns is a new
    object, at a place the heap did not hold, whose price is that integer,
    while the object that was validated still holds the text. *)
Theorem validateSchema_converts_and_preserves
    (data : value) (s : Joi.schema) (h : heap) :
  (forall l c, h !! l = Some c ->
     fst (validateSchema data s h) !! l = Some c) /\
  (forall l props text,
     In s product_shapes -> data = VRef l ->
     h !! l = Some (CObject props) ->
     get props (js "price") = VStr text ->
     (reports data s h [js "price"] Joi.number_base <->
      Joi.parse_number text = None)) /\
  (forall rules p text pth c,
     s = Joi.number_schema rules p -> data = VStr text ->
     short_digits text = true ->
     (reports data s h pth c
      <-> reports (num (digits_number text)) s h pth c)) /\
  (forall l props text,
     In s product_shapes -> data = VRef l ->
     h !! l = Some (CObject props) ->
     get props (js "price") = VStr text ->
     short_digits text = true ->
     0 < digits_number text ->
     exists l' props',
       Joi.value (snd (validateSchema data s h)) = VRef l' /\
       h !! l' = None /\
       fst (validateSchema data s h) !! l' = Some (CObject props') /\
       get props' (js "price") = num (digits_number text) /\
       fst (validateSchema data s h) !! l = Some (CObject props)).
Proof.
  split; [|split; [|split]].
  - intros l c Hl. apply validate_preserves, Hl.
  - intros l props text Hs -> Hl Hprice. rewrite reports_violation.
    destruct (product_shape_keys s Hs) as (keys & rules & -> & _ & Hkeys).
    exact (price_text_reported _ _ _ rules _ _ _ _ Hl Hprice Hkeys).
  - intros rules p text pth c -> -> Hshort. unfold reports.
    rewrite !validateSchema_error. cbn [Joi.check].
    rewrite (check_number_coerced Joi.collect_all rules p text _ eq_refl
               (short_digits_parse text Hshort)).
    reflexivity.
  - intros l props text Hs -> Hl Hprice Hshort _.
    destruct (product_shape_keys s Hs) as (keys & rules & -> & Hnd & Hkeys).
    destruct (validate_converts_price keys None Joi.optional rules h l props
                text Hl Hnd (proj2 (Hkeys _) eq_refl) Hprice Hshort)
      as (l' & props' & Hv & Hnone & Hcell & Hget).
    exists l', props'. split; [exact Hv|]. split; [exact Hnone|].
    split; [exact Hcell|]. split; [exact Hget|].
    apply validate_preserves, Hl.
Qed.

Lemma validateSchema_converts_and_preserves_witness :
  fst (validateSchema sole createProductSchema (alone invalidPriceType))
    !! 1%positive = Some (CObject invalidPriceType) /\
  reports sole createProductSchema (alone invalidPriceType) [js "price"]
    Joi.number_base /\
  exists l' props',
    Joi.value
      (snd (validateSchema sole productSchema (alone product_with_text_price)))
    = VRef l' /\
    alone product_with_text_price !! l' = None /\
    fst (validateSchema sole productSchema (alone product_with_text_price))
      !! l' = Some (CObject props') /\
    get props' (js "price") = num 25 /\
    fst (validateSchema sole productSchema (alone product_with_text_price))
      !! 1%positive = Some (CObject product_with_text_price).
Proof.
  split; [|split].
  - apply (proj1 (validateSchema_converts_and_preserves
                    sole createProductSchema (alone invalidPriceType))).
    reflexivity.
  - apply (proj1 (proj2 (validateSchema_converts_and_preserves
                           sole createProductSchema (alone invalidPriceType)))
             1%positive invalidPriceType (js "invalid_price"));
      [simpl; tauto | reflexivity | reflexivity | reflexivity | reflexivity].
  - apply (proj2 (proj2 (proj2 (validateSchema_converts_and_preserves
                                  sole productSchema
                                  (alone product_with_text_price))))
             1%positive product_with_text_price (js "25"));
      [simpl; tauto | reflexivity | reflexivity | reflexivity | reflexivity
      | reflexivity].
Defined.

End SchemaValidatorFacts.

(** ** Generated payloads and the creation shape *)
Module GeneratorFacts.

Import TestDataGenerator SchemaValidator Fixtures.
Import TestDataGeneratorFacts JoiFacts SchemaValidatorFacts.

Lemma later_valid (n : nat) (r : random_source) :
  valid_source r -> valid_source (later n r).
Proof. intros H i. apply H. Qed.

Lemma generateRandomString_source (n : nat) (r : random_source) :
  snd (generateRandomString n r) = later n r.
Proof.
  revert r. induction n as [|n IH]; intros r; [reflexivity|].
  rewrite generateRandomString_step. cbn [snd]. rewrite IH. reflexivity.
Qed.

(** X1. For a source of draws in [0,1), generateRandomString(n) returns
    exactly [n] characters, each one of the 62 letters and digits, and makes
    exactly [n] calls of Math.random. *)
Theorem generateRandomString_spec (n : nat) (r : random_source) :
  valid_source r ->
  length (fst (generateRandomString n r)) = n /\
  Forall (fun c => In c chars) (fst (generateRandomString n r)) /\
  snd (generateRandomString n r) = later n r.
Proof.
  intros H. destruct (generateRandomString_chars n r H) as [Hl Hc].
  repeat split; [exact Hl | exact Hc | apply generateRandomString_source].
Qed.

Lemma generateRandomString_spec_witness :
  valid_source nines /\
  length (fst (generateRandomString 5 nines)) = 5%nat.
Proof.
  split; [exact nines_valid|].
  exact (proj1 (generateRandomString_spec 5 nines nines_valid)).
Defined.

Lemma round_to_between (x : Q) (a b : Z) (d : nat) :
  0 <= a -> (inject_Z a <= x)%Q -> (x <= inject_Z b)%Q ->
  exists n : Z,
    round_to x d = Qmake n (Z.to_pos (10 ^ Z.of_nat d)) /\
    a * 10 ^ Z.of_nat d <= n <= b * 10 ^ Z.of_nat d.
Proof.
  intros Ha Hax Hxb. unfold round_to.
  set (p := 10 ^ Z.of_nat d).
  assert (Hp : 0 < p) by (apply Z.pow_pos_nonneg; lia).
  assert (HP : (0 < inject_Z p)%Q).
  { change 0%Q with (inject_Z 0). rewrite <- Zlt_Qlt. exact Hp. }
  assert (Ha' : (0 <= inject_Z a)%Q).
  { change 0%Q with (inject_Z 0). rewrite <- Zle_Qle. exact Ha. }
  assert (Hx0 : (0 <= x)%Q) by (eapply Qle_trans; eassumption).
  assert (Hb : Qle_bool 0 x = true) by (apply Qle_bool_iff; exact Hx0).
  rewrite Hb. eexists. split; [reflexivity|].
  assert (Habs : (Qabs x == x)%Q) by (apply Qabs_pos; exact Hx0).
  rewrite Habs.
  split.
  - rewrite <- (Qfloor_Z (a * p)). apply Qfloor_resp_le.
    rewrite inject_Z_mult. nra.
  - apply Z.lt_succ_r. rewrite Zlt_Qlt.
    eapply Qle_lt_trans; [apply Qfloor_le|].
    unfold Z.succ. rewrite inject_Z_plus, inject_Z_mult.
    change (inject_Z 1) with 1%Q. nra.
Qed.

Lemma Qmake_between (n a b : Z) (p : Z) :
  0 < p -> a * p <= n <= b * p ->
  (inject_Z a <= Qmake n (Z.to_pos p))%Q /\ (Qmake n (Z.to_pos p) <= inject_Z b)%Q.
Proof.
  intros Hp [H1 H2]. unfold Qle; simpl. rewrite Z2Pos.id by exact Hp. lia.
Qed.

Lemma generateRandomNumber_returns (a b : Z) (d : nat) (r : random_source) :
  valid_source r -> 0 <= a <= b -> (d <= 100)%nat ->
  exists x,
    generateRandomNumber (inject_Z a) (inject_Z b) d r = Normal (x, later 1 r) /\
    (inject_Z a <= x)%Q /\ (x <= inject_Z b)%Q.
Proof.
  intros H [Ha Hab] Hd. destruct (H 0%nat) as [H0 H1].
  unfold generateRandomNumber, Math_random, toFixed.
  assert (E : (100 <? d)%nat = false) by (apply Nat.ltb_ge; exact Hd).
  rewrite E. cbn [mbind completion_bind mret completion_ret].
  assert (Hab' : (inject_Z a <= inject_Z b)%Q) by (rewrite <- Zle_Qle; exact Hab).
  destruct (round_to_between (r 0%nat * (inject_Z b - inject_Z a) + inject_Z a)
              a b d Ha) as (n & -> & Hn); [nra | nra |].
  eexists. split; [reflexivity|].
  apply Qmake_between; [apply Z.pow_pos_nonneg; lia | exact Hn].
Qed.

(** X2. For safe integers [0 <= a <= b] and draws in [0,1),
    generateRandomNumber(a, b, d) with at most 100 decimals returns a number
    of [[a, b]], both ends included (rounding can reach [b]), after one call
    of Math.random; with more than 100 decimals it throws the RangeError of
    toFixed. *)
Theorem generateRandomNumber_range (a b : Z) (d : nat) (r : random_source) :
  valid_source r -> 0 <= a <= b -> b <= 9007199254740991 ->
  ((d <= 100)%nat ->
   exists x,
     generateRandomNumber (inject_Z a) (inject_Z b) d r
     = Normal (x, later 1 r) /\
     (inject_Z a <= x)%Q /\ (x <= inject_Z b)%Q) /\
  ((100 < d)%nat ->
   exists message,
     generateRandomNumber (inject_Z a) (inject_Z b) d r
     = Throw (RangeError message)).
Proof.
  intros H Hab _. split.
  - apply generateRandomNumber_returns; assumption.
  - intros Hd. unfold generateRandomNumber, Math_random, toFixed.
    assert (E : (100 <? d)%nat = true) by (apply Nat.ltb_lt; exact Hd).
    rewrite E. eexists. reflexivity.
Qed.

Lemma generateRandomNumber_range_witness :
  valid_source nines /\
  (exists x,
     generateRandomNumber (inject_Z 1) (inject_Z 999) 2 nines
     = Normal (x, later 1 nines) /\
     (inject_Z 1 <= x)%Q /\ (x <= inject_Z 999)%Q) /\
  exists message,
    generateRandomNumber (inject_Z 1) (inject_Z 999) 101 nines
    = Throw (RangeError message).
Proof.
  split; [exact nines_valid|]. split.
  - apply (proj1 (generateRandomNumber_range 1 999 2 nines nines_valid
                    ltac:(lia) ltac:(lia))). lia.
  - apply (proj2 (generateRandomNumber_range 1 999 101 nines nines_valid
                    ltac:(lia) ltac:(lia))). lia.
Defined.


(** *** The defaults of a payload *)

Lemma default_title_string (r : random_source) :
  exists s, fst (default_title r) = VStr s /\ s <> [].
Proof.
  unfold default_title. destruct (generateRandomString 5 r) as [s r1].
  eexists. split; [reflexivity|]. discriminate.
Qed.

Lemma default_description_string (r : random_source) :
  exists s, fst (default_description r) = VStr s /\ s <> [].
Proof.
  unfold default_description. destruct (generateRandomString 20 r) as [s r1].
  eexists. split; [reflexivity|]. discriminate.
Qed.

Lemma default_category_string (r : random_source) :
  valid_source r ->
  exists s, fst (default_category r) = VStr s /\ In s categories.
Proof.
  intros H. destruct (H 0%nat) as [H0 H1].
  unfold default_category, Math_random. cbn [fst].
  pose proof (floor_scaled (r 0%nat) 4 eq_refl H0 H1) as Hf.
  change (Z.of_nat (length categories)) with 4.
  set (i := Math_floor (r 0%nat * inject_Z 4)) in *.
  assert (Hi : i = 0 \/ i = 1 \/ i = 2 \/ i = 3) by lia.
  destruct Hi as [-> | [-> | [-> | ->]]]; eexists; (split; [reflexivity|]);
    simpl; tauto.
Qed.

Lemma default_price_range (r : random_source) :
  valid_source r ->
  exists q, fst (default_price r) = VNum (Fin q) /\ (1 <= q)%Q /\ (q <= 999)%Q.
Proof.
  intros H. unfold default_price.
  destruct (generateRandomNumber_returns 1 999 2 r H ltac:(lia) ltac:(lia))
    as (x & E & Hl & Hu).
  change (inject_Z 1) with 1%Q in *. change (inject_Z 999) with 999%Q in *.
  rewrite E. exists x. repeat split; assumption.
Qed.


(** *** Generated payloads against the creation shape *)

Lemma flat_map_agree {A B : Type} (f g : A -> list B) (l : list A) :
  (forall x, In x l -> f x = g x) -> flat_map f l = flat_map g l.
Proof.
  induction l as [|x l IH]; intros H; [reflexivity|].
  simpl. rewrite (H x) by (left; reflexivity).
  rewrite IH; [reflexivity|]. intros y Hy. apply H. right. exact Hy.
Qed.

Lemma set_keys (o : object) (k k' : jsstring) (v : value) :
  In k (map fst (set o k' v)) -> In k (map fst o) \/ k = k'.
Proof.
  induction o as [|[k0 v0] o IH]; simpl.
  - intros [<-|[]]. right. reflexivity.
  - destruct (jsstring_eqb k0 k'); simpl; intros [H|H]; auto.
    destruct (IH H); auto.
Qed.

Lemma spread_keys (target src : object) (k : jsstring) :
  In k (map fst (spread target src)) ->
  In k (map fst target) \/ In k (map fst src).
Proof.
  unfold spread. revert target.
  induction src as [|[k' v] src IH]; intros target; simpl; [auto|].
  intros H. destruct (IH _ H) as [H1|H1]; [|auto].
  destruct (set_keys _ _ _ _ H1) as [H2|H2]; auto.
Qed.

Lemma fields_keys (overrides : object) (r : random_source) (k : jsstring) :
  In k (map fst (fst (fields overrides r))) -> In k creation_fields.
Proof.
  unfold fields, or_else.
  destruct (truthy (get overrides (js "title")));
    destruct (negb (strict_equal (get overrides (js "price")) VUndefined));
    destruct (truthy (get overrides (js "description")));
    destruct (truthy (get overrides (js "image")));
    destruct (truthy (get overrides (js "category")));
    unfold creation_fields; simpl; tauto.
Qed.

Lemma unprocessed_nil (props : object) (keys : list jsstring) :
  (forall k, In k (map fst props) -> In k keys) ->
  Joi.unprocessed props keys = [].
Proof.
  unfold Joi.unprocessed. induction (map fst props) as [|k ks IH]; intros H;
    [reflexivity|].
  simpl. assert (Hk : existsb (jsstring_eqb k) keys = true).
  { apply (existsb_eqb_In k keys). apply H. left. reflexivity. }
  rewrite Hk. simpl. apply IH. intros k' Hk'. apply H. right. exact Hk'.
Qed.

Lemma payload_get (overrides : object) (r : random_source) (k : jsstring) :
  NoDup (map fst overrides) ->
  get (fst (generateProductData overrides r)) k
  = if has_own overrides k then get overrides k
    else get (fst (fields overrides r)) k.
Proof.
  intros Hnd. rewrite generateProductData_fst.
  destruct (has_own overrides k) eqn:E.
  - apply get_spread_own; assumption.
  - apply get_spread_absent; assumption.
Qed.

Lemma payload_keys (overrides : object) (r : random_source) :
  (forall k, In k (map fst overrides) -> In k creation_fields) ->
  forall k, In k (map fst (fst (generateProductData overrides r))) ->
            In k creation_fields.
Proof.
  intros H k. rewrite generateProductData_fst. intros Hk.
  destruct (spread_keys _ _ _ Hk) as [H1|H1].
  - exact (fields_keys _ _ _ H1).
  - exact (H _ H1).
Qed.

Lemma check_string_nonempty (rules : list Joi.string_rule) (p : Joi.presence)
    (s : jsstring) :
  s <> [] ->
  snd (Joi.check_string Joi.collect_all rules p (VStr s))
  = Joi.run_rules Joi.string_rule_holds Joi.string_rule_code false rules s.
Proof. intros Hs. destruct s; [contradiction|reflexivity]. Qed.

Lemma is_safe_between (q : Q) :
  (- (1000) <= q)%Q -> (q <= 1000)%Q -> Joi.is_safe q = true.
Proof.
  intros H1 H2. unfold Joi.is_safe. apply andb_true_intro. split;
    apply Qle_bool_iff.
  - eapply Qle_trans; [|exact H1]. apply Qle_bool_iff. reflexivity.
  - eapply Qle_trans; [exact H2|]. apply Qle_bool_iff. reflexivity.
Qed.

Lemma check_price_positive (q : Q) :
  (0 < q)%Q -> (q <= 1000)%Q ->
  snd (Joi.check_number Joi.collect_all [Joi.rule_positive] Joi.required_flag
         (VNum (Fin q))) = [].
Proof.
  intros H0 H1. unfold Joi.check_number. cbn [Joi.convert Joi.collect_all
    Joi.with_abortEarly Joi.defaults Joi.coerce_number snd].
  rewrite is_safe_between by (try assumption; lra).
  cbn [Joi.run_rules Joi.number_rule_holds].
  assert (E : Qle_bool q 0 = false).
  { destruct (Qle_bool q 0) eqn:E; [|reflexivity].
    apply Qle_bool_iff in E. lra. }
  rewrite E. reflexivity.
Qed.

Lemma default_checked (overrides : object) (r : random_source) (h : heap)
    (k : jsstring) (child : Joi.schema) :
  valid_source r ->
  In (k, child) creation_children ->
  has_own overrides k = false ->
  snd (Joi.check Joi.collect_all child h (get (fst (fields overrides r)) k)) = [].
Proof.
  intros Hr Hin Hk. pose proof (get_absent _ _ Hk) as Hu.
  assert (Ht : truthy (get overrides k) = false) by (rewrite Hu; reflexivity).
  unfold creation_children in Hin. simpl in Hin.
  destruct Hin as [[= <- <-]|[[= <- <-]|[[= <- <-]|[[= <- <-]|[[= <- <-]|[]]]]]].
  - destruct (fields_or_default overrides r _ default_title
                ltac:(simpl; tauto) Ht) as [n ->].
    destruct (default_title_string (later n r)) as (s & -> & Hs).
    apply check_string_nonempty. exact Hs.
  - rewrite fields_price, Hu. cbn [strict_equal].
    destruct (default_price_range
                (later (if truthy (get overrides (js "title")) then 0 else 5) r)
                (later_valid _ _ Hr)) as (q & -> & H1 & H2).
    apply check_price_positive; lra.
  - destruct (fields_or_default overrides r _ default_description
                ltac:(simpl; tauto) Ht) as [n ->].
    destruct (default_description_string (later n r)) as (s & -> & Hs).
    apply check_string_nonempty. exact Hs.
  - destruct (fields_or_default overrides r _ default_category
                ltac:(simpl; tauto) Ht) as [n ->].
    destruct (default_category_string (later n r) (later_valid _ _ Hr))
      as (s & -> & Hs).
    apply check_string_nonempty.
    simpl in Hs. destruct Hs as [<-|[<-|[<-|[<-|[]]]]]; discriminate.
  - destruct (fields_or_default overrides r _ default_image
                ltac:(simpl; tauto) Ht) as [n ->].
    reflexivity.
Qed.

(** The details the creation shape reports for a generated payload are those
    of the overridden fields. *)
Lemma payload_errors (overrides : object) (r : random_source) (h : heap)
    (l : loc) :
  valid_source r ->
  NoDup (map fst overrides) ->
  (forall k, In k (map fst overrides) -> In k creation_fields) ->
  h !! l = Some (CObject (fst (generateProductData overrides r))) ->
  snd (Joi.check Joi.collect_all createProductSchema h (VRef l))
  = flat_map
      (fun kc =>
         if has_own overrides (fst kc)
         then map (Joi.under (fst kc))
                (snd (Joi.check Joi.collect_all (snd kc) h
                        (get overrides (fst kc))))
         else [])
      creation_children.
Proof.
  intros Hr Hnd Hkeys Hl.
  change createProductSchema
    with (Joi.object_schema creation_children None Joi.optional).
  rewrite (check_object_errors Joi.collect_all _ _ _ _ _ _ eq_refl Hl).
  rewrite unprocessed_nil.
  2:{ intros k Hk. exact (payload_keys _ _ Hkeys _ Hk). }
  destruct (Joi.forbids_unknown _ _); cbn [map]; rewrite app_nil_r;
    apply flat_map_agree; intros [k child] Hin; cbn [fst snd];
    rewrite payload_get by exact Hnd;
    (destruct (has_own overrides k) eqn:E; [reflexivity|]);
    rewrite (default_checked _ _ _ _ _ Hr Hin E); reflexivity.
Qed.


Lemma reports_check (data : value) (s : Joi.schema) (h : heap)
    (pth : list jsstring) (c : Joi.code) :
  reports data s h pth c
  <-> In (Joi.Detail pth c) (snd (Joi.check Joi.collect_all s h data)).
Proof. rewrite reports_violation. symmetry. apply check_violation. Qed.

(** X3. A generated payload breaks the creation shape only where it was
    overridden: for overrides among the five fields, validateSchema reports
    a rule at a path exactly when the path starts at an overridden field
    and the override value itself violates that field's rule. *)
Theorem generateProductData_violations_at_overrides
    (overrides : object) (r : random_source) (h : heap) (l : loc) :
  valid_source r ->
  NoDup (map fst overrides) ->
  (forall k, In k (map fst overrides) -> In k creation_fields) ->
  h !! l = Some (CObject (fst (generateProductData overrides r))) ->
  forall (pth : list jsstring) (c : Joi.code),
    reports (VRef l) createProductSchema h pth c
    <-> exists k child rest,
          In (k, child) creation_children /\
          has_own overrides k = true /\
          pth = k :: rest /\
          Spec.violation h child (get overrides k) rest c.
Proof.
  intros Hr Hnd Hkeys Hl pth c.
  rewrite reports_check, (payload_errors _ _ _ _ Hr Hnd Hkeys Hl), in_flat_map.
  split.
  - intros ([k child] & Hin & Hd). cbn [fst snd] in Hd.
    destruct (has_own overrides k) eqn:E; [|destruct Hd].
    apply in_map_iff in Hd. destruct Hd as ([rest c'] & [= <- <-] & Hd).
    exists k, child, rest. repeat split; try assumption.
    apply check_violation. exact Hd.
  - intros (k & child & rest & Hin & E & -> & Hv).
    exists (k, child). split; [exact Hin|]. cbn [fst snd]. rewrite E.
    apply in_map_iff. exists (Joi.Detail rest c). split; [reflexivity|].
    apply check_violation. exact Hv.
Qed.

Lemma price_only (v : value) (k : jsstring) :
  In k (map fst [(js "price", v)]) -> In k creation_fields.
Proof. simpl. intros [<-|[]]. unfold creation_fields. simpl. tauto. Qed.

Lemma generateProductData_violations_at_overrides_witness :
  valid_source nines /\
  reports sole createProductSchema
    (alone (fst (generateProductData [(js "price", num 0)] nines)))
    [js "price"] Joi.number_positive.
Proof.
  split; [exact nines_valid|].
  apply (generateProductData_violations_at_overrides
           [(js "price", num 0)] nines
           (alone (fst (generateProductData [(js "price", num 0)] nines)))
           1%positive nines_valid (NoDup_singleton _) (price_only _) eq_refl).
  exists (js "price"), (Joi.number |> Joi.positive |> Joi.required), [].
  split; [simpl; tauto|]. split; [reflexivity|]. split; [reflexivity|].
  apply (Spec.number_rule_broken _ [Joi.rule_positive] Joi.required_flag
           (num 0) 0%Q Joi.rule_positive); try reflexivity.
  left. reflexivity.
Defined.

Lemma accepted_of_errors (o : object) (s : Joi.schema) :
  (forall h l, h !! l = Some (CObject o) ->
     snd (Joi.check Joi.collect_all s h (VRef l)) = []) ->
  accepted s o.
Proof. intros H h l Hl. rewrite validateSchema_error, (H h l Hl). reflexivity. Qed.

Lemma rejected_of_errors (o : object) (s : Joi.schema) (d : Joi.detail)
    (ds : list Joi.detail) :
  (forall h l, h !! l = Some (CObject o) ->
     snd (Joi.check Joi.collect_all s h (VRef l)) = d :: ds) ->
  rejected s o (d :: ds).
Proof. intros H h l Hl. rewrite validateSchema_error, (H h l Hl). reflexivity. Qed.

Lemma no_override (k : jsstring) :
  In k (map fst (@nil (jsstring * value))) -> In k creation_fields.
Proof. intros []. Qed.

(** X4. With draws in [0,1), the payload generateProductData() builds from
    its defaults alone, and the minimum-price payload (price 0.01), pass
    the creation shape. *)
Theorem generated_payloads_accepted (r : random_source) :
  valid_source r ->
  accepted createProductSchema (fst (generateProductData [] r)) /\
  accepted createProductSchema (fst (generateMinPriceProduct r)).
Proof.
  intros Hr. split; apply accepted_of_errors; intros h l Hl.
  - rewrite (payload_errors [] r h l Hr (NoDup_nil_2) no_override Hl).
    reflexivity.
  - rewrite (payload_errors [(js "price", VNum (Fin (1 # 100)))] r h l Hr
               (NoDup_singleton _) (price_only _) Hl).
    reflexivity.
Qed.

Lemma generated_payloads_accepted_witness :
  valid_source nines /\
  accepted createProductSchema (fst (generateProductData [] nines)).
Proof.
  split; [exact nines_valid|].
  exact (proj1 (generated_payloads_accepted nines nines_valid)).
Defined.

(** X5. The zero-price and the negative-price payloads are rejected by the
    creation shape with a single detail: price must be positive. *)
Theorem nonpositive_price_payloads_rejected (r : random_source) :
  valid_source r ->
  rejected createProductSchema (fst (generateZeroPriceProduct r))
    [Joi.Detail [js "price"] Joi.number_positive] /\
  rejected createProductSchema (fst (generateNegativePriceProduct r))
    [Joi.Detail [js "price"] Joi.number_positive].
Proof.
  intros Hr. split; apply rejected_of_errors; intros h l Hl.
  - rewrite (payload_errors [(js "price", num 0)] r h l Hr
               (NoDup_singleton _) (price_only _) Hl).
    reflexivity.
  - rewrite (payload_errors [(js "price", num (-50))] r h l Hr
               (NoDup_singleton _) (price_only _) Hl).
    reflexivity.
Qed.

Lemma nonpositive_price_payloads_rejected_witness :
  valid_source nines /\
  rejected createProductSchema (fst (generateZeroPriceProduct nines))
    [Joi.Detail [js "price"] Joi.number_positive].
Proof.
  split; [exact nines_valid|].
  exact (proj1 (nonpositive_price_payloads_rejected nines nines_valid)).
Defined.


(** *** One field overridden or removed *)

Lemma creation_children_keys : map fst creation_children = creation_fields.
Proof. reflexivity. Qed.

Lemma creation_children_NoDup : List.NoDup (map fst creation_children).
Proof.
  rewrite creation_children_keys. unfold creation_fields.
  repeat (apply List.NoDup_cons; [simpl; intuition discriminate|]).
  apply List.NoDup_nil.
Qed.

Lemma flat_map_nil {A B : Type} (l : list A) :
  flat_map (fun _ : A => @nil B) l = [].
Proof. induction l as [|x l IH]; [reflexivity|exact IH]. Qed.

Lemma flat_map_select {B : Type} (F : jsstring * Joi.schema -> list B)
    (children : list (jsstring * Joi.schema)) (k : jsstring)
    (child : Joi.schema) :
  List.NoDup (map fst children) ->
  In (k, child) children ->
  flat_map (fun kc => if jsstring_eqb k (fst kc) then F kc else []) children
  = F (k, child).
Proof.
  induction children as [|[k0 c0] children IH]; intros Hnd Hin; [destruct Hin|].
  simpl in Hnd. apply List.NoDup_cons_iff in Hnd as [Hk0 Hnd].
  cbn [flat_map fst]. destruct Hin as [[= -> ->]|Hin].
  - rewrite jsstring_eqb_refl.
    rewrite (flat_map_agree _ (fun _ => [])).
    + rewrite flat_map_nil. apply app_nil_r.
    + intros [k1 c1] H1. cbn [fst].
      destruct (jsstring_eqb k k1) eqn:E; [|reflexivity].
      apply jsstring_eqb_eq in E as <-. exfalso. apply Hk0.
      apply in_map_iff. exists (k, c1). split; [reflexivity|exact H1].
  - destruct (jsstring_eqb k k0) eqn:E.
    + apply jsstring_eqb_eq in E as <-. exfalso. apply Hk0.
      apply in_map_iff. exists (k, child). split; [reflexivity|exact Hin].
    + rewrite (IH Hnd Hin). reflexivity.
Qed.

Lemma child_of_field (k : jsstring) :
  In k creation_fields -> exists child, In (k, child) creation_children.
Proof.
  rewrite <- creation_children_keys. intros H. apply in_map_iff in H.
  destruct H as ([k' child] & <- & H). exists child. exact H.
Qed.

(** The details for a payload with the single override [k: v]. *)
Lemma single_override_errors (k : jsstring) (child : Joi.schema) (v : value)
    (r : random_source) (h : heap) (l : loc) :
  valid_source r ->
  In (k, child) creation_children ->
  h !! l = Some (CObject (fst (generateProductData [(k, v)] r))) ->
  snd (Joi.check Joi.collect_all createProductSchema h (VRef l))
  = map (Joi.under k) (snd (Joi.check Joi.collect_all child h v)).
Proof.
  intros Hr Hin Hl.
  assert (Hk : In k creation_fields).
  { rewrite <- creation_children_keys. apply in_map_iff.
    exists (k, child). split; [reflexivity|exact Hin]. }
  rewrite (payload_errors [(k, v)] r h l Hr (NoDup_singleton _)) by
    (try exact Hl; simpl; intros k' [<-|[]]; exact Hk).
  rewrite (flat_map_agree _
             (fun kc => if jsstring_eqb k (fst kc)
                        then map (Joi.under k)
                               (snd (Joi.check Joi.collect_all (snd kc) h v))
                        else [])).
  - rewrite (flat_map_select _ _ k child creation_children_NoDup Hin).
    reflexivity.
  - intros [k1 c1] H1. cbn [fst snd has_own get]. rewrite orb_false_r.
    destruct (jsstring_eqb k k1) eqn:E; [|reflexivity].
    apply jsstring_eqb_eq in E as <-. reflexivity.
Qed.

(** X6. generateEmptyStringProduct(field), for each of the five fields, is
    rejected by the creation shape with a single detail at that field:
    string.empty for a text field, number.base for the price (the empty
    string is not a numeric literal). *)
Theorem generateEmptyStringProduct_rejected (field : jsstring)
    (r : random_source) :
  valid_source r ->
  In field creation_fields ->
  rejected createProductSchema (fst (generateEmptyStringProduct field r))
    [Joi.Detail [field]
       (if jsstring_eqb field (js "price") then Joi.number_base
        else Joi.string_empty)].
Proof.
  intros Hr Hf. apply rejected_of_errors. intros h l Hl.
  unfold generateEmptyStringProduct in Hl.
  destruct (child_of_field field Hf) as [child Hin].
  rewrite (single_override_errors field child _ r h l Hr Hin Hl).
  unfold creation_children in Hin. simpl in Hin.
  destruct Hin as [[= <- <-]|[[= <- <-]|[[= <- <-]|[[= <- <-]|[[= <- <-]|[]]]]]];
    reflexivity.
Qed.

Lemma generateEmptyStringProduct_rejected_witness :
  valid_source nines /\
  rejected createProductSchema (fst (generateEmptyStringProduct (js "title") nines))
    [Joi.Detail [js "title"] Joi.string_empty].
Proof.
  split; [exact nines_valid|].
  apply (generateEmptyStringProduct_rejected (js "title") nines nines_valid).
  unfold creation_fields. simpl. tauto.
Defined.

Lemma check_number_base (rules : list Joi.number_rule) (p : Joi.presence)
    (v : value) :
  v <> VUndefined ->
  (forall n, Joi.coerce_number v = VNum n -> n = NaN) ->
  snd (Joi.check_number Joi.collect_all rules p v) = [Joi.here Joi.number_base].
Proof.
  intros Hv Hn. unfold Joi.check_number.
  cbn [Joi.convert Joi.collect_all Joi.with_abortEarly Joi.defaults snd].
  destruct (Joi.coerce_number v) as [| |b|n|s|l'] eqn:E; try reflexivity.
  - apply coerce_number_undefined in E. contradiction.
  - rewrite (Hn n eq_refl). reflexivity.
Qed.

(** X7. generateInvalidTypeProduct with its field left out puts the value
    at price; an undefined value is replaced by the text 'invalid_price'.
    Whenever the value put there does not read as a number, the creation
    shape reports the single detail number.base at price. *)
Theorem generateInvalidTypeProduct_rejected (invalidValue : value)
    (r : random_source) :
  valid_source r ->
  (forall n,
     Joi.coerce_number
       (match invalidValue with
        | VUndefined => str "invalid_price"
        | v => v
        end) = VNum n -> n = NaN) ->
  rejected createProductSchema
    (fst (generateInvalidTypeProduct None invalidValue r))
    [Joi.Detail [js "price"] Joi.number_base].
Proof.
  intros Hr Hn. apply rejected_of_errors. intros h l Hl.
  unfold generateInvalidTypeProduct in Hl. cbn [default] in Hl.
  rewrite (single_override_errors (js "price")
             (Joi.number |> Joi.positive |> Joi.required) _ r h l Hr
             ltac:(unfold creation_children; simpl; tauto) Hl).
  change (Joi.check Joi.collect_all (Joi.number |> Joi.positive |> Joi.required) h)
    with (Joi.check_number Joi.collect_all [Joi.rule_positive] Joi.required_flag).
  rewrite check_number_base; [reflexivity| |exact Hn].
  destruct invalidValue; discriminate.
Qed.

Lemma generateInvalidTypeProduct_rejected_witness :
  valid_source nines /\
  rejected createProductSchema
    (fst (generateInvalidTypeProduct None VUndefined nines))
    [Joi.Detail [js "price"] Joi.number_base].
Proof.
  split; [exact nines_valid|].
  apply (generateInvalidTypeProduct_rejected VUndefined nines nines_valid).
  intros n. vm_compute. discriminate.
Defined.


Lemma get_delete_key (o : object) (f k : jsstring) :
  List.NoDup (map fst o) ->
  get (delete_key o f) k = if jsstring_eqb f k then VUndefined else get o k.
Proof.
  induction o as [|[k0 v0] o IH]; intros Hnd; simpl.
  - destruct (jsstring_eqb f k); reflexivity.
  - simpl in Hnd. apply List.NoDup_cons_iff in Hnd as [Hk0 Hnd].
    destruct (jsstring_eqb k0 f) eqn:E0.
    + apply jsstring_eqb_eq in E0 as ->.
      destruct (jsstring_eqb f k) eqn:E; [|reflexivity].
      apply jsstring_eqb_eq in E as <-.
      apply get_absent. destruct (has_own o f) eqn:Eo; [|reflexivity].
      apply has_own_In in Eo. contradiction.
    + simpl. rewrite (IH Hnd).
      destruct (jsstring_eqb k0 k) eqn:E1; [|reflexivity].
      apply jsstring_eqb_eq in E1 as <-.
      rewrite jsstring_eqb_sym, E0. reflexivity.
Qed.

Lemma has_own_delete_key (o : object) (f : jsstring) :
  List.NoDup (map fst o) -> has_own (delete_key o f) f = false.
Proof.
  induction o as [|[k0 v0] o IH]; intros Hnd; simpl; [reflexivity|].
  simpl in Hnd. apply List.NoDup_cons_iff in Hnd as [Hk0 Hnd].
  destruct (jsstring_eqb k0 f) eqn:E0.
  - apply jsstring_eqb_eq in E0 as ->.
    destruct (has_own o f) eqn:Eo; [|reflexivity].
    apply has_own_In in Eo. contradiction.
  - simpl. rewrite E0. exact (IH Hnd).
Qed.

Lemma delete_key_keys (o : object) (f k : jsstring) :
  In k (map fst (delete_key o f)) -> In k (map fst o).
Proof.
  induction o as [|[k0 v0] o IH]; simpl; [auto|].
  destruct (jsstring_eqb k0 f); simpl; [auto|]. intros [H|H]; auto.
Qed.

Lemma fields_keys_eq (overrides : object) (r : random_source) :
  map fst (fst (fields overrides r))
  = [js "title"; js "price"; js "description"; js "image"; js "category"].
Proof.
  unfold fields, or_else.
  destruct (truthy (get overrides (js "title")));
    destruct (negb (strict_equal (get overrides (js "price")) VUndefined));
    destruct (truthy (get overrides (js "description")));
    destruct (truthy (get overrides (js "image")));
    destruct (truthy (get overrides (js "category")));
    reflexivity.
Qed.

Lemma generateProductData_nil (r : random_source) :
  generateProductData [] r = (fst (fields [] r), later 27 r).
Proof. reflexivity. Qed.

Lemma defaults_NoDup (r : random_source) :
  List.NoDup (map fst (fst (generateProductData [] r))).
Proof.
  rewrite generateProductData_nil. cbn [fst]. rewrite fields_keys_eq.
  repeat (apply List.NoDup_cons; [simpl; intuition discriminate|]).
  apply List.NoDup_nil.
Qed.

Lemma required_child (k : jsstring) (child : Joi.schema) (h : heap) :
  In (k, child) creation_children ->
  snd (Joi.check Joi.collect_all child h VUndefined) = [Joi.here Joi.any_required].
Proof.
  unfold creation_children. simpl.
  intros [[= <- <-]|[[= <- <-]|[[= <- <-]|[[= <- <-]|[[= <- <-]|[]]]]]];
    reflexivity.
Qed.

(** X8. generateIncompleteProduct(field), for each of the five fields (the
    title when left out), returns a payload without that field, and the
    creation shape reports the single detail any.required at it. *)
Theorem generateIncompleteProduct_rejected (fieldToRemove : option jsstring)
    (r : random_source) :
  valid_source r ->
  In (default (js "title") fieldToRemove) creation_fields ->
  has_own (fst (generateIncompleteProduct fieldToRemove r))
    (default (js "title") fieldToRemove) = false /\
  rejected createProductSchema (fst (generateIncompleteProduct fieldToRemove r))
    [Joi.Detail [default (js "title") fieldToRemove] Joi.any_required].
Proof.
  intros Hr Hf. unfold generateIncompleteProduct.
  set (f := default (js "title") fieldToRemove) in *.
  pose proof (defaults_NoDup r) as Hnd.
  destruct (generateProductData [] r) as [product r'] eqn:E.
  assert (EP : product = fst (generateProductData [] r)) by (rewrite E; reflexivity).
  cbn [fst] in *. split; [apply has_own_delete_key; exact Hnd|].
  apply rejected_of_errors. intros h l Hl.
  change createProductSchema
    with (Joi.object_schema creation_children None Joi.optional).
  rewrite (check_object_errors Joi.collect_all _ _ _ _ _ _ eq_refl Hl).
  rewrite unprocessed_nil.
  2:{ intros k Hk. apply delete_key_keys in Hk. rewrite EP in Hk.
      exact (payload_keys [] r no_override k Hk). }
  destruct (child_of_field f Hf) as [child Hin].
  rewrite (flat_map_agree _
             (fun kc => if jsstring_eqb f (fst kc)
                        then [Joi.Detail [f] Joi.any_required] else [])).
  - rewrite (flat_map_select _ _ f child creation_children_NoDup Hin).
    destruct (Joi.forbids_unknown _ _); reflexivity.
  - intros [k1 c1] H1. cbn [fst snd]. rewrite (get_delete_key _ _ _ Hnd).
    destruct (jsstring_eqb f k1) eqn:Ek.
    + apply jsstring_eqb_eq in Ek as <-.
      rewrite (required_child f c1 h H1). reflexivity.
    + rewrite EP, payload_get by apply NoDup_nil_2. cbn [has_own].
      rewrite (default_checked [] r h k1 c1 Hr H1 eq_refl). reflexivity.
Qed.

Lemma generateIncompleteProduct_rejected_witness :
  valid_source nines /\
  rejected createProductSchema (fst (generateIncompleteProduct None nines))
    [Joi.Detail [js "title"] Joi.any_required].
Proof.
  split; [exact nines_valid|].
  apply (generateIncompleteProduct_rejected None nines nines_valid).
  unfold creation_fields. simpl. tauto.
Defined.

(** X9. generateLongStringProduct(field), for title, description or
    category (the title when left out), carries a string of exactly 1000
    characters at that field and passes the creation shape: the shape puts
    no bound on the length of a text. *)
Theorem generateLongStringProduct_accepted (field : option jsstring)
    (r : random_source) :
  valid_source r ->
  In (default (js "title") field) [js "title"; js "description"; js "category"] ->
  (exists s,
     get (fst (generateLongStringProduct field r)) (default (js "title") field)
       = VStr s /\ length s = 1000%nat) /\
  accepted createProductSchema (fst (generateLongStringProduct field r)).
Proof.
  intros Hr Hf. unfold generateLongStringProduct.
  set (f := default (js "title") field) in *.
  destruct (generateRandomString_chars 1000 r Hr) as [Hlen _].
  pose proof (generateRandomString_source 1000 r) as Hsrc.
  destruct (generateRandomString 1000 r) as [long r1].
  cbn [fst snd] in Hlen, Hsrc.
  assert (Hr1 : valid_source r1) by (rewrite Hsrc; apply later_valid; exact Hr).
  split.
  - exists long. split; [|exact Hlen].
    rewrite payload_get by apply NoDup_singleton.
    cbn [has_own get]. rewrite jsstring_eqb_refl. reflexivity.
  - apply accepted_of_errors. intros h l Hl.
    assert (Hlong : long <> []) by (intros ->; discriminate).
    assert (Hin : In (f, Joi.string |> Joi.required) creation_children).
    { unfold creation_children. simpl in Hf.
      destruct Hf as [<-|[<-|[<-|[]]]]; simpl; tauto. }
    rewrite (single_override_errors f _ _ r1 h l Hr1 Hin Hl).
    change (Joi.check Joi.collect_all (Joi.string |> Joi.required) h)
      with (Joi.check_string Joi.collect_all [] Joi.required_flag).
    rewrite (check_string_nonempty _ _ _ Hlong). reflexivity.
Qed.

Lemma generateLongStringProduct_accepted_witness :
  valid_source nines /\
  accepted createProductSchema (fst (generateLongStringProduct None nines)).
Proof.
  split; [exact nines_valid|].
  apply (generateLongStringProduct_accepted None nines nines_valid).
  simpl. tauto.
Defined.

Lemma generateProductBatch_loop_step (n : nat) (r : random_source) :
  generateProductBatch_loop (S n) r
  = (fst (generateProductData [] r)
       :: fst (generateProductBatch_loop n (later 27 r)),
     snd (generateProductBatch_loop n (later 27 r))).
Proof.
  cbn [generateProductBatch_loop]. rewrite generateProductData_nil.
  destruct (generateProductBatch_loop n (later 27 r)). reflexivity.
Qed.

Lemma generateProductBatch_loop_spec (n : nat) (r : random_source) :
  valid_source r ->
  length (fst (generateProductBatch_loop n r)) = n /\
  Forall (accepted createProductSchema) (fst (generateProductBatch_loop n r)).
Proof.
  revert r. induction n as [|n IH]; intros r Hr.
  - split; [reflexivity|constructor].
  - rewrite generateProductBatch_loop_step. cbn [fst].
    destruct (IH (later 27 r) (later_valid _ _ Hr)) as [Hlen Hall].
    split; [cbn [length]; rewrite Hlen; reflexivity|].
    constructor; [|exact Hall].
    apply accepted_of_errors. intros h l Hl.
    rewrite (payload_errors [] r h l Hr (NoDup_nil_2) no_override Hl).
    reflexivity.
Qed.

(** X10. generateProductBatch(count) returns [count] payloads (five when
    the count is left out, none for a count below one), every one of which
    passes the creation shape. *)
Theorem generateProductBatch_spec (count : option Z) (r : random_source) :
  valid_source r ->
  length (fst (generateProductBatch count r)) = Z.to_nat (default 5 count) /\
  Forall (accepted createProductSchema) (fst (generateProductBatch count r)).
Proof. intros Hr. apply generateProductBatch_loop_spec. exact Hr. Qed.

Lemma generateProductBatch_spec_witness :
  valid_source nines /\
  length (fst (generateProductBatch None nines)) = 5%nat.
Proof.
  split; [exact nines_valid|].
  exact (proj1 (generateProductBatch_spec None nines nines_valid)).
Defined.

End GeneratorFacts.

(** ** The test context and the retry helper, continued *)
Module TestContextFacts.

Import TestHelpers Fixtures TestHelpersFacts.

Lemma Qeq_bool_trans (p q r : Q) :
  Qeq_bool p q = true -> Qeq_bool q r = true -> Qeq_bool p r = true.
Proof.
  intros H1 H2. apply Qeq_bool_iff in H1, H2. apply Qeq_bool_iff.
  eapply Qeq_trans; eassumption.
Qed.

Lemma same_value_zero_trans (a b c : value) :
  same_value_zero a b = true -> same_value_zero b c = true ->
  same_value_zero a c = true.
Proof.
  destruct a as [| |x|[| | |p]|s|l], b as [| |y|[| | |q]|t|m];
    simpl; try discriminate; intros Hab;
    destruct c as [| |z|[| | |r]|u|n]; simpl; try discriminate;
    try reflexivity; intros Hbc.
  - apply Bool.eqb_prop in Hab, Hbc. subst. apply Bool.eqb_reflx.
  - eapply Qeq_bool_trans; eassumption.
  - apply jsstring_eqb_eq in Hab, Hbc. subst. apply jsstring_eqb_refl.
  - apply Pos.eqb_eq in Hab, Hbc. subst. apply Pos.eqb_refl.
Qed.

Lemma includes_same (elems : list value) (x v : value) :
  same_value_zero x v = true -> includes elems v = true ->
  includes elems x = true.
Proof.
  unfold includes. intros Hxv H. apply existsb_exists in H as (e & Hin & He).
  apply existsb_exists. exists e. split; [exact Hin|].
  eapply same_value_zero_trans; eassumption.
Qed.

Lemma created_addCreatedProduct (v : value) (s : TestContext * heap) :
  well_formed s ->
  created (fst (addCreatedProduct v (fst s) (snd s)))
          (snd (addCreatedProduct v (fst s) (snd s)))
  = if truthy v && negb (includes (created (fst s) (snd s)) v)
    then created (fst s) (snd s) ++ [v]
    else created (fst s) (snd s).
Proof.
  destruct s as [ctx h]. intros (Hl & _ & _); cbn [fst snd] in *.
  unfold addCreatedProduct. rewrite Hl.
  destruct (truthy v && negb (includes (created ctx h) v)); cbn [fst snd];
    [apply created_insert|reflexivity].
Qed.

Lemma includes_addCreatedProduct (v x : value) (s : TestContext * heap) :
  well_formed s ->
  includes (created (fst (addCreatedProduct v (fst s) (snd s)))
                    (snd (addCreatedProduct v (fst s) (snd s)))) x
  = includes (created (fst s) (snd s)) x || truthy v && same_value_zero x v.
Proof.
  intros Hs. rewrite (created_addCreatedProduct v s Hs).
  destruct (truthy v) eqn:Ev; cbn [andb]; [|rewrite orb_false_r; reflexivity].
  destruct (includes (created (fst s) (snd s)) v) eqn:Ei; cbn [negb].
  - destruct (same_value_zero x v) eqn:Exv; [|rewrite orb_false_r; reflexivity].
    rewrite (includes_same _ _ _ Exv Ei). reflexivity.
  - rewrite includes_app. unfold includes at 2. cbn [existsb].
    rewrite orb_false_r. reflexivity.
Qed.

Lemma includes_run_adds (vs : list value) (x : value) (s : TestContext * heap) :
  well_formed s ->
  includes (created (fst (run (map Add vs) s)) (snd (run (map Add vs) s))) x
  = includes (created (fst s) (snd s)) x
    || existsb (fun v => truthy v && same_value_zero x v) vs.
Proof.
  revert s. induction vs as [|v vs IH]; intros s Hs.
  - simpl. rewrite orb_false_r. reflexivity.
  - cbn [map run fold_left step]. unfold run in IH.
    rewrite (IH _ (addCreatedProduct_well_formed v s Hs)).
    rewrite (includes_addCreatedProduct v x s Hs).
    cbn [existsb]. rewrite orb_assoc. reflexivity.
Qed.

(** X12. After any history of the context, adding the values [vs] makes
    the list include [x] exactly when it included [x] before or some truthy
    value of [vs] equals [x]: every truthy ID that is added is tracked, and
    nothing else appears. *)
Theorem createdProducts_membership (h0 : heap) (ops : list operation)
    (vs : list value) (x : value) :
  let s := run ops (constructor h0) in
  let s' := run (map Add vs) s in
  includes (created (fst s') (snd s')) x
  = includes (created (fst s) (snd s)) x
    || existsb (fun v => truthy v && same_value_zero x v) vs.
Proof.
  intros s s'. apply includes_run_adds.
  apply run_well_formed, constructor_well_formed.
Qed.

(** Cells the context does not refer to are left alone. *)
Lemma step_frame (o : operation) (s : TestContext * heap) (l : loc) (c : cell) :
  snd s !! l = Some c -> l <> createdProducts (fst s) ->
  snd (step s o) !! l = Some c /\ l <> createdProducts (fst (step s o)).
Proof.
  destruct s as [ctx h]; cbn [fst snd]. intros Hl Hne.
  destruct o as [v|]; cbn [step fst snd].
  - unfold addCreatedProduct.
    destruct (h !! createdProducts ctx) as [[| elems |]|]; cbn [fst snd]; auto.
    destruct (truthy v && negb (includes elems v)); cbn [fst snd]; auto.
    rewrite lookup_insert_ne by congruence. auto.
  - unfold clearCreatedProducts; cbn [fst snd createdProducts].
    assert (Hf : l <> fresh (dom h)).
    { intros ->. pose proof (is_fresh (dom h)) as Hfr.
      apply Hfr. apply elem_of_dom. eexists. exact Hl. }
    rewrite lookup_insert_ne by congruence. auto.
Qed.

Lemma run_frame (ops : list operation) (s : TestContext * heap) (l : loc)
    (c : cell) :
  snd s !! l = Some c -> l <> createdProducts (fst s) ->
  snd (run ops s) !! l = Some c /\ l <> createdProducts (fst (run ops s)).
Proof.
  revert s. induction ops as [|o ops IH]; intros s Hl Hne; [auto|].
  cbn [run fold_left]. destruct (step_frame o s l c Hl Hne) as [H1 H2].
  exact (IH _ H1 H2).
Qed.


Lemma inject_Z_zero (t : Z) : Qeq_bool (inject_Z t) 0 = (t =? 0).
Proof.
  unfold Qeq_bool, inject_Z; simpl. rewrite Z.mul_1_r.
  destruct t; reflexivity.
Qed.

(** X14. stopTimer returns the difference of the two clock readings, and
    getDuration returns the same difference unless one of the readings is 0,
    in which case it returns 0. On a new context stopTimer without
    startTimer returns the clock reading itself (null counts as 0), and
    getDuration is 0 until both timers have run. The timers leave the list
    of created products alone. *)
Theorem timer_durations (t0 t1 : Z) (ctx : TestContext) (h : heap) :
  fst (stopTimer t1 (startTimer t0 ctx)) = num (t1 - t0) /\
  getDuration (snd (stopTimer t1 (startTimer t0 ctx)))
  = (if (t0 =? 0) || (t1 =? 0) then num 0 else num (t1 - t0)) /\
  fst (stopTimer t1 (fst (constructor h))) = num t1 /\
  getDuration (startTimer t0 (fst (constructor h))) = num 0 /\
  getDuration (fst (constructor h)) = num 0 /\
  createdProducts (snd (stopTimer t1 (startTimer t0 ctx))) = createdProducts ctx.
Proof.
  assert (E : forall a b, VNum (Fin (inject_Z a - inject_Z b)) = num (a - b)).
  { intros a b. unfold num, inject_Z, Qminus, Qplus, Qopp; simpl.
    do 3 f_equal. lia. }
  repeat split.
  - unfold stopTimer, startTimer, timestamp, num; cbn. apply E.
  - unfold getDuration, stopTimer, startTimer; cbn [fst snd testStartTime
      testEndTime truthy num].
    rewrite !inject_Z_zero.
    destruct (t0 =? 0), (t1 =? 0); cbn [negb andb orb]; try reflexivity.
    unfold timestamp, num; cbn. apply E.
  - unfold stopTimer, constructor; cbn [fst testStartTime testEndTime].
    unfold timestamp, num; cbn. rewrite <- (Z.sub_0_r t1) at 2.
    apply (E t1 0).
  - unfold getDuration, startTimer, constructor;
      cbn [fst testStartTime testEndTime truthy].
    rewrite andb_false_r. reflexivity.
Qed.

Section RetryBounds.

Context {World : Type}.
Variable fn : World -> completion value * World.
Variable elapse : Z -> World -> World.

(** Every run that ends is one of the runs [trace_of] describes. *)
Lemma retryWithBackoff_trace (fuel : nat) :
  forall (retries delay : Z) (w w' : World) (r : completion value)
         (trace : list event),
    retryWithBackoff fn elapse fuel retries delay w = Some (r, w', trace) ->
    exists k,
      trace = trace_of k retries delay /\
      (0 <= retries -> Z.of_nat k <= retries).
Proof.
  induction fuel as [|fuel IH]; intros retries delay w w' r trace H;
    [discriminate|].
  cbn [retryWithBackoff] in H. destruct (fn w) as [[v|e] w1].
  - injection H as <- <- <-. exists 0%nat. split; [reflexivity|lia].
  - destruct (retries =? 0) eqn:E0.
    + injection H as <- <- <-. exists 0%nat. split; [reflexivity|lia].
    + apply Z.eqb_neq in E0.
      destruct (retryWithBackoff fn elapse fuel (retries - 1) (delay * 2)
                  (elapse delay w1)) as [[[r2 w2] trace2]|] eqn:E;
        [|discriminate].
      injection H as <- <- <-.
      destruct (IH _ _ _ _ _ _ E) as (k & -> & Hk).
      exists (S k). split; [reflexivity|]. lia.
Qed.

Lemma sum_backoff (k : nat) (delay : Z) :
  fold_right Z.add 0 (backoff k delay) = delay * (2 ^ Z.of_nat k - 1).
Proof.
  revert delay. induction k as [|k IH]; intros delay.
  - simpl. lia.
  - cbn [backoff fold_right]. rewrite IH.
    rewrite Nat2Z.inj_succ, Z.pow_succ_r by lia. lia.
Qed.

(** X15. A run of retryWithBackoff(fn, n, d) that makes [c] invocations
    has paused for [d * (2^(c-1) - 1)] milliseconds in total; with [n >= 0]
    and [d >= 0] it makes at most [n + 1] invocations and pauses for at most
    [d * (2^n - 1)]. *)
Theorem retryWithBackoff_total_wait (fuel : nat) (retries delay : Z)
    (w w' : World) (r : completion value) (trace : list event) :
  0 <= retries -> 0 <= delay ->
  retryWithBackoff fn elapse fuel retries delay w = Some (r, w', trace) ->
  fold_right Z.add 0 (waits trace)
    = delay * (2 ^ Z.of_nat (calls trace - 1) - 1) /\
  Z.of_nat (calls trace) <= retries + 1 /\
  fold_right Z.add 0 (waits trace) <= delay * (2 ^ retries - 1).
Proof.
  intros Hn Hd H.
  destruct (retryWithBackoff_trace _ _ _ _ _ _ _ H) as (k & -> & Hk).
  specialize (Hk Hn).
  rewrite waits_trace_of, calls_trace_of, sum_backoff.
  replace (S k - 1)%nat with k by lia.
  split; [reflexivity|]. split; [lia|].
  apply Z.mul_le_mono_nonneg_l; [exact Hd|].
  apply Z.sub_le_mono_r. apply Z.pow_le_mono_r; lia.
Qed.

End RetryBounds.

Lemma retryWithBackoff_total_wait_witness :
  fold_right Z.add 0
    (waits [Called; Logged 3; Waited 1000; Called; Logged 2; Waited 2000;
            Called])
  = 1000 * (2 ^ Z.of_nat 2 - 1).
Proof.
  exact (proj1 (retryWithBackoff_total_wait flaky (fun _ w => w) 5 3 1000
                  0%nat 3%nat (Normal (num 7)) _
                  ltac:(lia) ltac:(lia) eq_refl)).
Defined.

End TestContextFacts.

(** ** Assertions and response validators *)
Module ResponseValidatorFacts.

Import Assertions SchemaValidator ResponseValidator TestDataGenerator Fixtures.
Import TestDataGeneratorFacts JoiFacts SchemaValidatorFacts GeneratorFacts.

Lemma forEach_Normal {A : Type} (f : A -> completion unit) (l : list A) :
  forEach f l = Normal tt <-> forall x, In x l -> f x = Normal tt.
Proof.
  induction l as [|x l IH]; simpl.
  - split; [intros _ y []|reflexivity].
  - destruct (f x) as [[]|e] eqn:E; simpl.
    + rewrite IH. split.
      * intros H y [<-|Hy]; [exact E|exact (H y Hy)].
      * intros H y Hy. apply H. right. exact Hy.
    + split; [discriminate|]. intros H.
      specialize (H x (or_introl eq_refl)). rewrite E in H. discriminate.
Qed.

Lemma toBe_Normal (a b : value) :
  Jest.toBe a b = Normal tt <-> same_value_zero a b = true.
Proof.
  unfold Jest.toBe. destruct (same_value_zero a b); split;
    auto; discriminate.
Qed.

Lemma same_value_zero_refl (v : value) : same_value_zero v v = true.
Proof.
  destruct v as [| |b|[| | |q]|s|l]; simpl; try reflexivity.
  - apply Bool.eqb_reflx.
  - apply Qeq_bool_iff. reflexivity.
  - apply jsstring_eqb_refl.
  - apply Pos.eqb_refl.
Qed.

Lemma has_own_set (o : object) (k k' : jsstring) (v : value) :
  has_own (set o k v) k' = has_own o k' || jsstring_eqb k k'.
Proof.
  induction o as [|[k0 v0] o IH]; simpl.
  - rewrite orb_false_r. reflexivity.
  - destruct (jsstring_eqb k0 k) eqn:E; simpl.
    + apply jsstring_eqb_eq in E as ->.
      destruct (jsstring_eqb k k'), (has_own o k'); reflexivity.
    + rewrite IH. rewrite orb_assoc. reflexivity.
Qed.

Lemma has_own_spread (target src : object) (k : jsstring) :
  has_own (spread target src) k = has_own target k || has_own src k.
Proof.
  unfold spread. revert target.
  induction src as [|[k' v] src IH]; intros target; simpl.
  - rewrite orb_false_r. reflexivity.
  - rewrite IH, has_own_set. rewrite orb_assoc. reflexivity.
Qed.

Lemma member_set_other (proto o : object) (k k' : jsstring) (v : value) :
  k <> k' -> member proto (set o k v) k' = member proto o k'.
Proof.
  intros Hne. unfold member. rewrite has_own_set.
  assert (E : jsstring_eqb k k' = false) by (apply jsstring_eqb_neq; exact Hne).
  rewrite E, orb_false_r, get_set_ne by exact Hne. reflexivity.
Qed.

(** X16. validateProductMatchesSubmittedData passes exactly when, for every
    key of the submitted data, the response holds the same value (Object.is,
    own or inherited); keys the submitted data does not have are not looked
    at, so adding such a field to the response changes nothing. *)
Theorem validateProductMatchesSubmittedData_spec
    (proto responseProduct submittedData : object) :
  (validateProductMatchesSubmittedData proto responseProduct submittedData
     = Normal tt
   <-> forall k, In k (map fst submittedData) ->
         same_value_zero (member proto responseProduct k)
                         (get submittedData k) = true) /\
  (forall k v, ~ In k (map fst submittedData) ->
     validateProductMatchesSubmittedData proto (set responseProduct k v)
       submittedData
     = validateProductMatchesSubmittedData proto responseProduct submittedData).
Proof.
  split.
  - unfold validateProductMatchesSubmittedData. rewrite forEach_Normal.
    split; intros H k Hk; apply toBe_Normal, H, Hk.
  - intros k v Hk. unfold validateProductMatchesSubmittedData.
    induction (map fst submittedData) as [|k' ks IH]; [reflexivity|].
    cbn [forEach]. rewrite member_set_other.
    + rewrite IH; [reflexivity|]. intros H. apply Hk. right. exact H.
    + intros ->. apply Hk. left. reflexivity.
Qed.

(** X17. A generated payload always matches its overrides:
    assertProductData(generateProductData(overrides), overrides) passes for
    every overrides object, falsy values included. *)
Theorem assertProductData_generated (proto overrides : object)
    (r : random_source) :
  NoDup (map fst overrides) ->
  assertProductData proto (fst (generateProductData overrides r)) overrides
  = Normal tt.
Proof.
  intros Hnd. unfold assertProductData. apply forEach_Normal.
  intros k Hk. apply toBe_Normal. apply has_own_In in Hk.
  unfold member. rewrite generateProductData_fst at 1.
  rewrite has_own_spread, Hk, orb_true_r.
  rewrite payload_get, Hk by exact Hnd.
  apply same_value_zero_refl.
Qed.

Lemma assertProductData_generated_witness :
  assertProductData [] (fst (generateProductData falsy_overrides nines))
    falsy_overrides = Normal tt.
Proof.
  apply (assertProductData_generated [] falsy_overrides nines).
  unfold falsy_overrides.
  apply NoDup_cons. split; [|apply NoDup_singleton].
  rewrite list_elem_of_In. simpl. intuition discriminate.
Defined.


Lemma startsWith_spec (s t : jsstring) :
  startsWith s t = true <-> exists post, s = t ++ post.
Proof.
  revert s. induction t as [|c t IH]; intros s.
  - destruct s; simpl; split; eauto.
  - destruct s as [|d s]; simpl.
    + split; [discriminate|]. intros [post H]. discriminate.
    + rewrite andb_true_iff, N.eqb_eq, IH. split.
      * intros [-> [post ->]]. exists post. reflexivity.
      * intros [post [= -> ->]]. split; [reflexivity|]. exists post. reflexivity.
Qed.

Lemma occurs_spec (s t : jsstring) :
  occurs s t = true <-> exists pre post, s = pre ++ t ++ post.
Proof.
  induction s as [|d s IH].
  - cbn [occurs]. rewrite orb_false_r, startsWith_spec. split.
    + intros [post H]. exists [], post. exact H.
    + intros (pre & post & H). symmetry in H.
      apply app_eq_nil in H as [-> H]. exists post. symmetry. exact H.
  - cbn [occurs]. rewrite orb_true_iff, IH, startsWith_spec. split.
    + intros [[post H]|(pre & post & ->)].
      * exists [], post. exact H.
      * exists (d :: pre), post. reflexivity.
    + intros ([|d' pre] & post & H).
      * left. exists post. exact H.
      * right. injection H as -> ->. exists pre, post. reflexivity.
Qed.

Lemma assertContentType_structure (response : response)
    (expectedType : option jsstring) :
  assertContentType response expectedType = Normal tt
  <-> exists pre post,
        headers_get response (js "content-type")
        = Some (pre ++ default (js "application/json") expectedType ++ post).
Proof.
  unfold assertContentType, Jest.toContain.
  destruct (headers_get response (js "content-type")) as [ct|].
  - destruct (occurs ct (default (js "application/json") expectedType)) eqn:E.
    + apply occurs_spec in E as (pre & post & ->). split; [|reflexivity].
      intros _. exists pre, post. reflexivity.
    + split; [discriminate|]. intros (pre & post & [= ->]).
      assert (H : occurs (pre ++ default (js "application/json") expectedType
                            ++ post)
                    (default (js "application/json") expectedType) = true)
        by (apply occurs_spec; eauto).
      congruence.
  - split; [discriminate|]. intros (pre & post & H). discriminate.
Qed.

(** X18. assertContentType passes exactly when the content-type header is
    set and contains the expected type ('application/json' when left out)
    as a substring, as in 'application/json; charset=utf-8'; a missing
    header fails. *)
Theorem assertContentType_spec (response : response)
    (expectedType : option jsstring) :
  (assertContentType response expectedType = Normal tt
   <-> exists pre post,
         headers_get response (js "content-type")
         = Some (pre ++ default (js "application/json") expectedType ++ post)) /\
  (headers_get response (js "content-type") = None ->
   throws (assertContentType response expectedType)).
Proof.
  split; [apply assertContentType_structure|].
  intros H. unfold assertContentType, Jest.toContain. rewrite H.
  eexists. reflexivity.
Qed.

Lemma bind_Normal (a b : completion unit) :
  (a;; b) = Normal tt <-> a = Normal tt /\ b = Normal tt.
Proof.
  destruct a as [[]|e]; simpl; split; try tauto; try discriminate.
  all: intros [H _]; discriminate.
Qed.

(** X19. validateGetResponse passes exactly when the status is 200, the
    content type contains 'application/json' and, unless validateProduct is
    falsy, the body conforms to the full product shape. It leaves every cell
    of the heap as it was. *)
Theorem validateGetResponse_spec (response : response)
    (validateProduct : value) (h : heap) :
  (snd (validateGetResponse response validateProduct h) = Normal tt
   <-> same_value_zero (status response) (num 200) = true /\
       (exists pre post,
          headers_get response (js "content-type")
          = Some (pre ++ js "application/json" ++ post)) /\
       (truthy (match validateProduct with
                | VUndefined => VBool true
                | v => v
                end) = true ->
        Spec.conforms h productSchema (json response))) /\
  (forall l c, h !! l = Some c ->
     fst (validateGetResponse response validateProduct h) !! l = Some c).
Proof.
  unfold validateGetResponse.
  set (flag := match validateProduct with VUndefined => VBool true | v => v end).
  pose proof (bind_Normal (assertStatusCode response (num 200))
                (assertContentType response (Some (js "application/json"))))
    as Hb.
  pose proof (assertContentType_structure response (Some (js "application/json")))
    as Hc. cbn [default] in Hc.
  unfold assertStatusCode in *.
  pose proof (toBe_Normal (status response) (num 200)) as Hs.
  destruct (Jest.toBe (status response) (num 200);;
            assertContentType response (Some (js "application/json")))
    as [[]|e] eqn:E.
  - destruct (proj1 Hb eq_refl) as [H1 H2].
    destruct (truthy flag) eqn:Ef.
    + pose proof (validateSchema_conforms (json response) productSchema h) as Hv.
      pose proof (validate_preserves productSchema (json response)
                    (Joi.with_abortEarly false Joi.defaults) h) as Hp.
      unfold validateSchema in *.
      destruct (Joi.validate productSchema (json response)
                  (Joi.with_abortEarly false Joi.defaults) h) as [h' res].
      cbn [fst snd] in *. split; [|exact Hp].
      destruct (Joi.error res) as [err|].
      * split; [discriminate|]. intros (_ & _ & H).
        apply Hv in H; [discriminate|reflexivity].
      * split; [|reflexivity]. intros _. split; [apply Hs, H1|].
        split; [apply Hc, H2|]. intros _. apply Hv. reflexivity.
    + cbn [fst snd]. split; [|auto]. split; [|reflexivity].
      intros _. split; [apply Hs, H1|]. split; [apply Hc, H2|]. discriminate.
  - cbn [fst snd]. split; [|auto]. split; [discriminate|].
    intros (H1 & H2 & _). apply Hs in H1. apply Hc in H2.
    discriminate (proj2 Hb (conj H1 H2)).
Qed.



(** X20. assertArrayNotEmpty with the minimum left out passes exactly for
    arrays with at least one element; with a minimum [q] it passes exactly
    for arrays of at least [q] elements, so a minimum of 0 or less admits
    the empty array; a minimum that is not a number never passes. *)
Theorem assertArrayNotEmpty_spec (h : heap) (arr : value) :
  (assertArrayNotEmpty h arr VUndefined = Normal tt
   <-> exists l x elems, arr = VRef l /\ h !! l = Some (CArray (x :: elems))) /\
  (forall q : Q,
     assertArrayNotEmpty h arr (VNum (Fin q)) = Normal tt
     <-> exists l elems,
           arr = VRef l /\ h !! l = Some (CArray elems) /\
           (q <= inject_Z (Z.of_nat (length elems)))%Q) /\
  (forall v, (forall n, v <> VNum n) -> v <> VUndefined ->
     assertArrayNotEmpty h arr v <> Normal tt).
Proof.
  assert (Hgen : forall m,
    assertArrayNotEmpty h arr m = Normal tt
    <-> exists l elems,
          arr = VRef l /\ h !! l = Some (CArray elems) /\
          Jest.toBeGreaterThanOrEqual (num (Z.of_nat (length elems)))
            (match m with VUndefined => num 1 | v => v end) = Normal tt).
  { intros m. unfold assertArrayNotEmpty, isArray.
    destruct arr as [| |b|n|s|l]; cbn;
      try (split; [discriminate|intros (l' & elems & H & _); discriminate]).
    destruct (h !! l) as [[props|elems|]|] eqn:E; cbn;
      try (split; [discriminate|
                   intros (l' & elems' & [= <-] & H & _); congruence]).
    split.
    - intros H. exists l, elems. auto.
    - intros (l' & elems' & [= <-] & H1 & H2).
      rewrite E in H1. injection H1 as <-. exact H2. }
  split; [|split].
  - rewrite Hgen. split.
    + intros (l & elems & -> & Hl & H). exists l.
      destruct elems as [|x elems]; [discriminate H|]. eauto.
    + intros (l & x & elems & -> & Hl). exists l, (x :: elems).
      split; [reflexivity|]. split; [exact Hl|].
      unfold Jest.toBeGreaterThanOrEqual, num, number_leb.
      assert (E : Qle_bool (inject_Z 1)
                    (inject_Z (Z.of_nat (length (x :: elems)))) = true).
      { apply Qle_bool_iff. rewrite <- Zle_Qle. cbn [length]. lia. }
      rewrite E. reflexivity.
  - intros q. rewrite Hgen. split.
    + intros (l & elems & -> & Hl & H). exists l, elems.
      split; [reflexivity|]. split; [exact Hl|].
      unfold Jest.toBeGreaterThanOrEqual, num, number_leb in H.
      destruct (Qle_bool q (inject_Z (Z.of_nat (length elems)))) eqn:E;
        [apply Qle_bool_iff, E|discriminate].
    + intros (l & elems & -> & Hl & H). exists l, elems.
      split; [reflexivity|]. split; [exact Hl|].
      unfold Jest.toBeGreaterThanOrEqual, num, number_leb.
      apply Qle_bool_iff in H. rewrite H. reflexivity.
  - intros v Hv Hu H. apply Hgen in H as (l & elems & _ & _ & H).
    destruct v as [| |b|n|s|l']; try discriminate H; try contradiction.
    exact (Hv n eq_refl).
Qed.

Lemma assertInRange_bounds (v : value) (lo hi : Q) :
  assertInRange v (VNum (Fin lo)) (VNum (Fin hi)) = Normal tt
  <-> exists q, v = VNum (Fin q) /\ (lo <= q)%Q /\ (q <= hi)%Q.
Proof.
  unfold assertInRange. rewrite bind_Normal.
  unfold Jest.toBeGreaterThanOrEqual, Jest.toBeLessThanOrEqual.
  destruct v as [| |b|[| | |q]|s|l]; cbn [number_leb];
    try (split; [intros [H1 H2]; discriminate
                |intros (q' & H & _); discriminate]).
  split.
  - intros [H1 H2]. exists q. split; [reflexivity|].
    destruct (Qle_bool lo q) eqn:E1; [|discriminate].
    destruct (Qle_bool q hi) eqn:E2; [|discriminate].
    split; apply Qle_bool_iff; assumption.
  - intros (q' & [= <-] & H1 & H2).
    apply Qle_bool_iff in H1, H2. rewrite H1, H2. auto.
Qed.

(** X21. assertInRange(v, lo, hi) with finite bounds passes exactly when
    [v] is a finite number with [lo <= v <= hi], both bounds included; NaN,
    the infinities and values that are not numbers (numeric strings among
    them) fail. *)
Theorem assertInRange_spec (v : value) (lo hi : Q) :
  (assertInRange v (VNum (Fin lo)) (VNum (Fin hi)) = Normal tt
   <-> exists q, v = VNum (Fin q) /\ (lo <= q)%Q /\ (q <= hi)%Q) /\
  assertInRange (VNum (Fin lo)) (VNum (Fin lo)) (VNum (Fin lo)) = Normal tt /\
  (forall s, throws (assertInRange (VStr s) (VNum (Fin lo)) (VNum (Fin hi)))) /\
  throws (assertInRange (VNum NaN) (VNum (Fin lo)) (VNum (Fin hi))).
Proof.
  split; [apply assertInRange_bounds|]. split; [|split].
  - apply assertInRange_bounds. exists lo. split; [reflexivity|].
    split; apply Qle_refl.
  - intros s. eexists. reflexivity.
  - eexists. reflexivity.
Qed.

(** X22. For a product the full product shape accepts, the range check of
    the tests, assertInRange(product.rating.rate, 0, 5), passes exactly when
    the rate is of type number: the shape also accepts a rate given as
    numeric text, which the range check rejects. *)
Theorem rating_rate_in_range (h : heap) (l lr : loc) (props rating : object) :
  h !! l = Some (CObject props) ->
  get props (js "rating") = VRef lr ->
  h !! lr = Some (CObject rating) ->
  Joi.error (snd (validateSchema (VRef l) productSchema h)) = None ->
  (assertInRange (get rating (js "rate")) (num 0) (num 5) = Normal tt
   <-> typeof h (get rating (js "rate")) = js "number").
Proof.
  intros Hl Hr Hlr Hok.
  destruct (productSchema_rating_checked h l props Hl
              ltac:(rewrite Hr; discriminate) Hok)
    as (lr' & rating' & rate & count & E1 & E2 & Hrate & H0 & H5 & _).
  rewrite Hr in E1. injection E1 as <-. rewrite Hlr in E2. injection E2 as <-.
  unfold num. change (inject_Z 0) with 0%Q. change (inject_Z 5) with 5%Q.
  rewrite assertInRange_bounds. split.
  - intros (q & -> & _). reflexivity.
  - intros Ht. destruct (get rating (js "rate")) as [| |b|n|s|l'] eqn:E;
      try discriminate Ht.
    + simpl in Hrate. injection Hrate as ->. exists rate. auto.
    + simpl in Ht. destruct (h !! l') as [[]|]; discriminate Ht.
Qed.

Lemma rating_rate_in_range_witness :
  assertInRange (get rating_of_product (js "rate")) (num 0) (num 5) = Normal tt
  <-> typeof with_rating (get rating_of_product (js "rate")) = js "number".
Proof.
  apply (rating_rate_in_range with_rating 1%positive 2%positive
           product_with_rating rating_of_product);
    [reflexivity | reflexivity | reflexivity | vm_compute; reflexivity].
Defined.


Lemma optional_text_checked (v : value) :
  snd (Joi.check_string Joi.collect_all [] Joi.optional v) = []
  <-> v = VUndefined \/ exists s, v = VStr s /\ s <> [].
Proof.
  destruct v as [| |b|n|s|l]; cbn; split; try discriminate; auto;
    try (intros [H|(s' & H & _)]; discriminate).
  - destruct s; [discriminate|]. intros _. right. eexists. split; [reflexivity|].
    discriminate.
  - intros [H|(s' & [= <-] & H)]; [discriminate|].
    destruct s; [contradiction|reflexivity].
Qed.

Lemma optional_number_checked (v : value) :
  snd (Joi.check_number Joi.collect_all [] Joi.optional v) = []
  <-> v = VUndefined \/
      exists q, Joi.coerce_number v = VNum (Fin q) /\ Joi.is_safe q = true.
Proof.
  unfold Joi.check_number.
  cbn [Joi.convert Joi.collect_all Joi.with_abortEarly Joi.defaults snd].
  destruct (Joi.coerce_number v) as [| |b|[| | |q]|s|l] eqn:E; cbn;
    try (split; [discriminate|
                 intros [->|(q' & H & _)]; discriminate]).
  - apply coerce_number_undefined in E as ->. split; auto.
  - destruct (Joi.is_safe q) eqn:Es; split; try discriminate; auto.
    + intros _. right. exists q. auto.
    + intros [->|(q' & [= <-] & H)]; [discriminate E|congruence].
Qed.

(** X24. For an object whose statusCode, if it is text, is no decimal
    literal or an integer of one to fifteen digits without a leading zero,
    the error shape accepts the object exactly when each of message and
    error is absent or a non-empty string and statusCode is absent or reads
    as a finite number of the safe range; keys other than these three are
    never a reason to reject, and the empty object passes. *)
Theorem errorSchema_spec (h : heap) (l : loc) (props : object) :
  h !! l = Some (CObject props) ->
  Spec.faithful_number (get props (js "statusCode")) ->
  (Joi.error (snd (validateSchema (VRef l) errorSchema h)) = None
   <-> (get props (js "message") = VUndefined \/
        exists s, get props (js "message") = VStr s /\ s <> []) /\
       (get props (js "error") = VUndefined \/
        exists s, get props (js "error") = VStr s /\ s <> []) /\
       (get props (js "statusCode") = VUndefined \/
        exists q,
          Joi.coerce_number (get props (js "statusCode")) = VNum (Fin q) /\
          Joi.is_safe q = true)).
Proof.
  intros Hl _. rewrite validateSchema_error.
  change errorSchema
    with (Joi.object_schema
            [(js "message", Joi.string_schema [] Joi.optional);
             (js "error", Joi.string_schema [] Joi.optional);
             (js "statusCode", Joi.number_schema [] Joi.optional)]
            (Some true) Joi.optional).
  rewrite (check_object_errors Joi.collect_all _ _ _ _ _ _ eq_refl Hl).
  cbn [Joi.forbids_unknown negb flat_map fst snd Joi.check].
  rewrite !app_nil_r.
  rewrite <- optional_text_checked, <- optional_text_checked,
    <- optional_number_checked.
  destruct (snd (Joi.check_string Joi.collect_all [] Joi.optional
                   (get props (js "message")))) as [|d1 e1];
    destruct (snd (Joi.check_string Joi.collect_all [] Joi.optional
                     (get props (js "error")))) as [|d2 e2];
    destruct (snd (Joi.check_number Joi.collect_all [] Joi.optional
                     (get props (js "statusCode")))) as [|d3 e3];
    cbn; split; try discriminate; auto; intros (H1 & H2 & H3); discriminate.
Qed.

Lemma errorSchema_spec_witness :
  Joi.error
    (snd (validateSchema sole errorSchema
            (alone [(js "status", str "error"); (js "code", num 404)])))
  = None.
Proof.
  apply (errorSchema_spec
           (alone [(js "status", str "error"); (js "code", num 404)])
           1%positive [(js "status", str "error"); (js "code", num 404)]
           eq_refl).
  - intros s H. discriminate H.
  - repeat split; left; reflexivity.
Defined.


Lemma assertArrayNotEmpty_passes (h : heap) (arr minLength : value) :
  assertArrayNotEmpty h arr minLength = Normal tt
  <-> exists l elems,
        arr = VRef l /\ h !! l = Some (CArray elems) /\
        Jest.toBeGreaterThanOrEqual (num (Z.of_nat (length elems)))
          (match minLength with VUndefined => num 1 | v => v end) = Normal tt.
Proof.
  unfold assertArrayNotEmpty, isArray.
  destruct arr as [| |b|n|s|l]; cbn;
    try (split; [discriminate|intros (l' & elems & H & _); discriminate]).
  destruct (h !! l) as [[props|elems|]|] eqn:E; cbn;
    try (split; [discriminate|
                 intros (l' & elems' & [= <-] & H & _); congruence]).
  split.
  - intros H. exists l, elems. auto.
  - intros (l' & elems' & [= <-] & H1 & H2).
    rewrite E in H1. injection H1 as <-. exact H2.
Qed.

(** X25. validateDeleteResponse passes exactly when the status is 200 and
    the content type contains 'application/json'. validateArrayResponse
    passes exactly when the status is 200 and the body is an array of at
    least the minimum number of elements (one when left out); it never
    looks at the content type. Every response that passes
    validateGetResponse passes validateDeleteResponse, and
    validateErrorResponse passes exactly when the status is the expected
    one. *)
Theorem response_validators_spec (h : heap) (response : response) :
  (validateDeleteResponse response = Normal tt
   <-> same_value_zero (status response) (num 200) = true /\
       exists pre post,
         headers_get response (js "content-type")
         = Some (pre ++ js "application/json" ++ post)) /\
  (validateArrayResponse h response VUndefined = Normal tt
   <-> same_value_zero (status response) (num 200) = true /\
       exists l x elems,
         json response = VRef l /\ h !! l = Some (CArray (x :: elems))) /\
  (forall q : Q,
     validateArrayResponse h response (VNum (Fin q)) = Normal tt
     <-> same_value_zero (status response) (num 200) = true /\
         exists l elems,
           json response = VRef l /\ h !! l = Some (CArray elems) /\
           (q <= inject_Z (Z.of_nat (length elems)))%Q) /\
  (forall validateProduct,
     snd (validateGetResponse response validateProduct h) = Normal tt ->
     validateDeleteResponse response = Normal tt) /\
  (forall expectedStatus,
     validateErrorResponse response expectedStatus = Normal tt
     <-> same_value_zero (status response) expectedStatus = true).
Proof.
  assert (Harr : forall m,
            validateArrayResponse h response m = Normal tt
            <-> same_value_zero (status response) (num 200) = true /\
                assertArrayNotEmpty h (json response) m = Normal tt).
  { intros m.
    change (validateArrayResponse h response m)
      with (assertStatusCode response (num 200);;
            assertArrayNotEmpty h (json response) m).
    rewrite bind_Normal. unfold assertStatusCode. rewrite toBe_Normal.
    reflexivity. }
  split; [|split; [|split; [|split]]].
  - unfold validateDeleteResponse. rewrite bind_Normal.
    unfold assertStatusCode. rewrite toBe_Normal.
    rewrite (assertContentType_structure response
               (Some (js "application/json"))).
    reflexivity.
  - rewrite Harr, assertArrayNotEmpty_passes. split.
    + intros (Hs & l & elems & E & Hl & H). split; [exact Hs|]. exists l.
      destruct elems as [|x elems]; [discriminate H|]. eauto.
    + intros (Hs & l & x & elems & E & Hl). split; [exact Hs|].
      exists l, (x :: elems). split; [exact E|]. split; [exact Hl|].
      unfold Jest.toBeGreaterThanOrEqual, num, number_leb.
      assert (Hle : Qle_bool (inject_Z 1)
                      (inject_Z (Z.of_nat (length (x :: elems)))) = true).
      { apply Qle_bool_iff. rewrite <- Zle_Qle. cbn [length]. lia. }
      rewrite Hle. reflexivity.
  - intros q. rewrite Harr, assertArrayNotEmpty_passes. split.
    + intros (Hs & l & elems & E & Hl & H). split; [exact Hs|].
      exists l, elems. split; [exact E|]. split; [exact Hl|].
      unfold Jest.toBeGreaterThanOrEqual, num, number_leb in H.
      destruct (Qle_bool q (inject_Z (Z.of_nat (length elems)))) eqn:Hq;
        [apply Qle_bool_iff, Hq|discriminate].
    + intros (Hs & l & elems & E & Hl & H). split; [exact Hs|].
      exists l, elems. split; [exact E|]. split; [exact Hl|].
      unfold Jest.toBeGreaterThanOrEqual, num, number_leb.
      apply Qle_bool_iff in H. rewrite H. reflexivity.
  - intros validateProduct. unfold validateGetResponse, validateDeleteResponse.
    destruct (assertStatusCode response (num 200);;
              assertContentType response (Some (js "application/json")))
      as [[]|e]; [reflexivity|discriminate].
  - intros expectedStatus. unfold validateErrorResponse, assertStatusCode.
    apply toBe_Normal.
Qed.

Lemma positive_not_zero (q : Q) :
  negb (Qle_bool q 0) = true <-> Qle_bool 0 q = true /\ ~ (q == 0)%Q.
Proof.
  rewrite negb_true_iff. split.
  - intros H. assert (Hq : (0 < q)%Q).
    { apply Qnot_le_lt. intros Hle. apply Qle_bool_iff in Hle. congruence. }
    split; [apply Qle_bool_iff; lra|lra].
  - intros [H1 H2]. apply Qle_bool_iff in H1.
    destruct (Qle_bool q 0) eqn:E; [|reflexivity].
    apply Qle_bool_iff in E. exfalso. apply H2. lra.
Qed.

(** X26. On an object without a rating key the full product shape and the
    shape without rating differ at the price alone: the full shape accepts
    it exactly when the shape without rating accepts it and the price is not
    zero. *)
Theorem product_shapes_without_rating (h : heap) (l : loc) (props : object) :
  h !! l = Some (CObject props) ->
  has_own props (js "rating") = false ->
  (Joi.error (snd (validateSchema (VRef l) productSchema h)) = None
   <-> Joi.error (snd (validateSchema (VRef l) productSchemaWithoutRating h))
       = None /\
       forall q, Joi.coerce_number (get props (js "price")) = VNum (Fin q) ->
                 ~ (q == 0)%Q).
Proof.
  intros Hl Hr. rewrite !validateSchema_conforms.
  rewrite productSchema_keys, productSchemaWithoutRating_keys. split.
  - intros Hc. destruct (conforms_object_inv _ _ _ _ _ _ Hl Hc) as [Hch Hk].
    destruct (conforms_number_inv h _ _
                (Hch (js "price") _ ltac:(simpl; tauto)))
      as (q & Hq & Hsafe & Hrules).
    pose proof (Hrules Joi.rule_positive (or_introl eq_refl)) as Hpos.
    cbn [Joi.number_rule_holds] in Hpos.
    apply positive_not_zero in Hpos as [H0 Hnz].
    split.
    + apply (conforms_object _ _ _ _ _ _ Hl).
      * intros k child Hin. simpl in Hin.
        destruct Hin as [[= <- <-]|[[= <- <-]|[[= <- <-]|[[= <- <-]|[[= <- <-]|
                         [[= <- <-]|[]]]]]]];
          try (apply Hch; simpl; tauto).
        apply (conforms_number _ _ _ _ q Hq Hsafe).
        intros r [<-|[]]. exact H0.
      * intros k Hin. specialize (Hk ltac:(discriminate) k Hin).
        simpl in Hk. simpl.
        destruct Hk as [H|[H|[H|[H|[H|[H|[H|[]]]]]]]]; auto 10.
        subst k. apply has_own_In in Hin. congruence.
    + intros q' Hq'. rewrite Hq in Hq'. injection Hq' as <-. exact Hnz.
  - intros [Hc Hnz].
    destruct (conforms_object_inv _ _ _ _ _ _ Hl Hc) as [Hch Hk].
    destruct (conforms_number_inv h _ _
                (Hch (js "price") _ ltac:(simpl; tauto)))
      as (q & Hq & Hsafe & Hrules).
    pose proof (Hrules (Joi.rule_min 0) (or_introl eq_refl)) as Hmin.
    cbn [Joi.number_rule_holds] in Hmin.
    apply (conforms_object _ _ _ _ _ _ Hl).
    + intros k child Hin. simpl in Hin.
      destruct Hin as [[= <- <-]|[[= <- <-]|[[= <- <-]|[[= <- <-]|[[= <- <-]|
                       [[= <- <-]|[[= <- <-]|[]]]]]]]];
        try (apply Hch; simpl; tauto).
      * apply (conforms_number _ _ _ _ q Hq Hsafe).
        intros r [<-|[]]. cbn [Joi.number_rule_holds].
        apply positive_not_zero. split; [exact Hmin|exact (Hnz q Hq)].
      * rewrite (get_absent _ _ Hr). apply ratingSchema_accepts_undefined.
    + intros k Hin. specialize (Hk ltac:(discriminate) k Hin).
      simpl in Hk. simpl. tauto.
Qed.

Lemma product_shapes_without_rating_witness :
  Joi.error
    (snd (validateSchema sole productSchemaWithoutRating
            (alone product_without_rating))) = None.
Proof.
  exact (proj1 (proj1 (product_shapes_without_rating
                         (alone product_without_rating) 1%positive
                         product_without_rating eq_refl eq_refl)
                  ltac:(vm_compute; reflexivity))).
Defined.

Lemma is_integer_inject_Z (n : Z) : Joi.is_integer (inject_Z n) = true.
Proof.
  unfold Joi.is_integer. rewrite Qfloor_Z. apply Qeq_bool_iff. reflexivity.
Qed.

(** X27. A payload the creation shape accepts, echoed with an id that is a
    positive safe integer, is accepted by the response shape without
    rating. *)
Theorem created_product_echo (payload : object) (id : Z) :
  accepted createProductSchema payload ->
  0 < id <= Joi.MAX_SAFE_INTEGER ->
  accepted productSchemaWithoutRating (set payload (js "id") (num id)).
Proof.
  intros Hacc Hid h l Hl. apply validateSchema_conforms.
  specialize (Hacc (alone payload) 1%positive eq_refl).
  apply validateSchema_conforms in Hacc.
  rewrite createProductSchema_keys in Hacc.
  destruct (conforms_object_inv (alone payload) _ _ _ 1%positive payload
              eq_refl Hacc) as [Hch Hk].
  specialize (Hk ltac:(discriminate)).
  rewrite productSchemaWithoutRating_keys.
  apply (conforms_object _ _ _ _ _ _ Hl).
  - intros k child Hin. simpl in Hin.
    destruct Hin as [[= <- <-]|[[= <- <-]|[[= <- <-]|[[= <- <-]|[[= <- <-]|
                     [[= <- <-]|[]]]]]]].
    + rewrite get_set_eq.
      apply (conforms_number _ _ _ _ (inject_Z id)); [reflexivity| |].
      * unfold Joi.is_safe. apply andb_true_intro.
        split; apply Qle_bool_iff; rewrite <- Zle_Qle;
          unfold Joi.MAX_SAFE_INTEGER in *; lia.
      * intros r [<-|[<-|[]]]; cbn [Joi.number_rule_holds].
        -- apply is_integer_inject_Z.
        -- apply negb_true_iff. destruct (Qle_bool (inject_Z id) 0) eqn:E;
             [|reflexivity].
           apply Qle_bool_iff in E. change 0%Q with (inject_Z 0) in E.
           rewrite <- Zle_Qle in E. lia.
    + rewrite get_set_ne by discriminate.
      destruct (conforms_string_inv _ _ _ (Hch (js "title") _ ltac:(simpl; tauto)))
        as (s & -> & Hs & Hrules).
      apply conforms_string; assumption.
    + rewrite get_set_ne by discriminate.
      destruct (conforms_number_inv _ _ _ (Hch (js "price") _ ltac:(simpl; tauto)))
        as (q & Hq & Hsafe & Hrules).
      apply (conforms_number _ _ _ _ q Hq Hsafe).
      intros r [<-|[]]. cbn [Joi.number_rule_holds].
      pose proof (Hrules Joi.rule_positive (or_introl eq_refl)) as Hpos.
      cbn [Joi.number_rule_holds] in Hpos.
      apply positive_not_zero in Hpos as [H0 _]. exact H0.
    + rewrite get_set_ne by discriminate.
      destruct (conforms_string_inv _ _ _
                  (Hch (js "description") _ ltac:(simpl; tauto)))
        as (s & -> & Hs & Hrules).
      apply conforms_string; assumption.
    + rewrite get_set_ne by discriminate.
      destruct (conforms_string_inv _ _ _
                  (Hch (js "category") _ ltac:(simpl; tauto)))
        as (s & -> & Hs & Hrules).
      apply conforms_string; assumption.
    + rewrite get_set_ne by discriminate.
      destruct (conforms_string_inv _ _ _
                  (Hch (js "image") _ ltac:(simpl; tauto)))
        as (s & -> & Hs & Hrules).
      apply conforms_string; assumption.
  - intros k Hin. apply set_keys in Hin as [Hin| ->]; [|simpl; tauto].
    specialize (Hk k Hin). simpl in Hk. simpl. tauto.
Qed.

Lemma created_product_echo_witness :
  accepted productSchemaWithoutRating
    (set (fst (generateProductData [] nines)) (js "id") (num 21)).
Proof.
  apply (created_product_echo (fst (generateProductData [] nines)) 21).
  - apply accepted_of_errors. intros h l Hl.
    rewrite (payload_errors [] nines h l nines_valid (NoDup_nil_2)
               no_override Hl).
    reflexivity.
  - unfold Joi.MAX_SAFE_INTEGER. lia.
Defined.

End ResponseValidatorFacts.

(** ** The client and the configuration *)
Module ApiClientFacts.

Import Environment ApiClient TestDataGenerator Fixtures.
Import TestDataGeneratorFacts.

Lemma own_profile_known (name : jsstring) (p : profile) :
  own_profile environments name = Some p ->
  In name [js "development"; js "test"; js "staging"; js "production"] /\
  baseURL p = js "https://fakestoreapi.com" /\
  In (timeout p) [10000; 8000; 5000].
Proof.
  unfold environments. cbn [own_profile].
  destruct (jsstring_eqb (js "development") name) eqn:E1;
    [apply jsstring_eqb_eq in E1 as <-; intros [= <-]; simpl; tauto|].
  destruct (jsstring_eqb (js "test") name) eqn:E2;
    [apply jsstring_eqb_eq in E2 as <-; intros [= <-]; simpl; tauto|].
  destruct (jsstring_eqb (js "staging") name) eqn:E3;
    [apply jsstring_eqb_eq in E3 as <-; intros [= <-]; simpl; tauto|].
  destruct (jsstring_eqb (js "production") name) eqn:E4;
    [apply jsstring_eqb_eq in E4 as <-; intros [= <-]; simpl; tauto|].
  discriminate.
Qed.

(** X23. Whenever the configuration is a profile, the environment is one
    of development, test, staging and production, and every operation of the
    client builds its request: the URL is https://fakestoreapi.com followed
    by the endpoint, whatever the profile, and the timeout is the profile's
    (10000, 8000 or 5000). *)
Theorem known_environment_requests (NODE_ENV : option jsstring) (p : profile)
    (m : method) (endpoint : jsstring) (b : option value) :
  config NODE_ENV = Profile p ->
  In (currentEnv NODE_ENV)
     [js "development"; js "test"; js "staging"; js "production"] /\
  call NODE_ENV m endpoint b
  = Normal {| verb := m;
              url := js "https://fakestoreapi.com" ++ endpoint;
              body := b;
              request_timeout := num (timeout p) |} /\
  In (timeout p) [10000; 8000; 5000].
Proof.
  intros H. unfold call, exported. rewrite H.
  unfold config, entry in H.
  destruct (own_profile environments (currentEnv NODE_ENV)) as [p'|] eqn:E.
  - injection H as ->.
    destruct (own_profile_known _ _ E) as (H1 & H2 & H3).
    split; [exact H1|]. split; [|exact H3].
    unfold constructor, send, buildUrl, read. cbn. rewrite H2. reflexivity.
  - destruct (existsb _ _); discriminate.
Qed.

Lemma known_environment_requests_witness :
  getProductById (Some (js "staging")) 7
  = Normal {| verb := GET;
              url := js "https://fakestoreapi.com" ++ productById 7;
              body := None;
              request_timeout := num 8000 |}.
Proof.
  exact (proj1 (proj2 (known_environment_requests (Some (js "staging"))
                         {| baseURL := js "https://fakestoreapi.com";
                            timeout := 8000; retryAttempts := 2;
                            logLevel := js "info" |}
                         GET (productById 7) None eq_refl))).
Defined.

(** X11. The boundary IDs of the generator are the valid range of the
    configuration; every valid ID lies within that range and every invalid
    ID lies above it. *)
Theorem product_ids_and_configured_range (r : random_source) :
  valid_source r ->
  getBoundaryProductIds = validProductRange /\
  exists lo hi,
    JS.get validProductRange (js "min") = num lo /\
    JS.get validProductRange (js "max") = num hi /\
    lo <= fst (getValidProductId r) <= hi /\
    hi < fst (getInvalidProductId r).
Proof.
  intros H. split; [reflexivity|]. exists 1, 20.
  pose proof (getValidProductId_range r H).
  pose proof (getInvalidProductId_range r H).
  repeat split; try reflexivity; lia.
Qed.

Lemma product_ids_and_configured_range_witness :
  valid_source nines /\ getBoundaryProductIds = validProductRange.
Proof.
  split; [exact nines_valid|].
  exact (proj1 (product_ids_and_configured_range nines nines_valid)).
Defined.

End ApiClientFacts.

(** ** The structure of a product *)
Module StructureFacts.

Import Assertions SchemaValidator ResponseValidator Fixtures.
Import TestDataGeneratorFacts JoiFacts SchemaValidatorFacts ResponseValidatorFacts.

Lemma toHaveProperty_Normal (h : heap) (proto : object) (v : value)
    (k : jsstring) :
  Jest.toHaveProperty h proto v k = Normal tt
  <-> exists l props,
        v = VRef l /\ h !! l = Some (CObject props) /\
        has_property proto props k = true.
Proof.
  unfold Jest.toHaveProperty.
  destruct v as [| |b|n|s|l];
    try (split; [discriminate|intros (l' & props & H & _); discriminate]).
  destruct (h !! l) as [[props|elems|]|] eqn:E;
    try (split; [discriminate|
                 intros (l' & props' & [= <-] & H & _); congruence]).
  destruct (has_property proto props k) eqn:Ep.
  - split; [|reflexivity]. intros _. exists l, props. auto.
  - split; [discriminate|]. intros (l' & props' & [= <-] & H & Hp).
    rewrite E in H. injection H as <-. congruence.
Qed.

Lemma member_defined (proto o : object) (k : jsstring) :
  member proto o k <> VUndefined -> has_property proto o k = true.
Proof.
  unfold member, has_property. destruct (has_own o k); [reflexivity|].
  intros H. destruct (has_own proto k) eqn:E; [reflexivity|].
  exfalso. apply H. apply get_absent. exact E.
Qed.

Lemma toBe_typeof (h : heap) (v : value) (type : String.string) :
  Jest.toBe (VStr (typeof h v)) (str type) = Normal tt
  <-> typeof h v = js type.
Proof.
  rewrite toBe_Normal. unfold str. cbn [same_value_zero strict_equal].
  apply jsstring_eqb_eq.
Qed.

Lemma typeof_defined (h : heap) (v : value) (t : jsstring) :
  typeof h v = t -> t <> js "undefined" -> v <> VUndefined.
Proof. intros H Ht ->. apply Ht. symmetry. exact H. Qed.

Section Structure.

Variables (h : heap) (proto : object) (l : loc) (props : object).
Hypothesis Hl : h !! l = Some (CObject props).

Lemma toHaveProperty_object (k : jsstring) :
  Jest.toHaveProperty h proto (VRef l) k
  = if has_property proto props k then Normal tt
    else Throw (JestAssertionError "toHaveProperty").
Proof using Hl. unfold Jest.toHaveProperty. rewrite Hl. reflexivity. Qed.

Lemma property_object (k : jsstring) :
  property h proto (VRef l) k = Normal (member proto props k).
Proof using Hl. unfold property. rewrite Hl. reflexivity. Qed.

Lemma expect_typeof_object (k : jsstring) (type : String.string) :
  expect_typeof h proto (VRef l) k type = Normal tt
  <-> typeof h (member proto props k) = js type.
Proof using Hl.
  unfold expect_typeof. rewrite property_object. cbn [mbind completion_bind].
  apply toBe_typeof.
Qed.

Lemma assertRequiredFields_object (fields : list jsstring) :
  assertRequiredFields h proto (VRef l) fields = Normal tt
  <-> forall k, In k fields -> member proto props k <> VUndefined.
Proof using Hl.
  unfold assertRequiredFields. rewrite forEach_Normal.
  split; intros H k Hk; specialize (H k Hk).
  - rewrite toHaveProperty_object, property_object in H.
    destruct (has_property proto props k); [|discriminate].
    cbn in H. unfold Jest.toBeDefined in H. intros E. rewrite E in H.
    discriminate.
  - rewrite toHaveProperty_object, property_object.
    rewrite (member_defined _ _ _ H). cbn. unfold Jest.toBeDefined.
    destruct (member proto props k); try reflexivity. contradiction.
Qed.

End Structure.

Lemma assertProductStructure_structure (h : heap) (proto : object)
    (product includeRating : value) :
  assertProductStructure h proto product includeRating = Normal tt
  <-> exists l props,
        product = VRef l /\ h !! l = Some (CObject props) /\
        typeof h (member proto props (js "id")) = js "number" /\
        typeof h (member proto props (js "title")) = js "string" /\
        typeof h (member proto props (js "price")) = js "number" /\
        typeof h (member proto props (js "description")) = js "string" /\
        typeof h (member proto props (js "category")) = js "string" /\
        typeof h (member proto props (js "image")) = js "string" /\
        (truthy (match includeRating with
                 | VUndefined => VBool true
                 | v => v
                 end) = true ->
         exists lr rating,
           member proto props (js "rating") = VRef lr /\
           h !! lr = Some (CObject rating) /\
           has_property proto rating (js "rate") = true /\
           has_property proto rating (js "count") = true).
Proof.
  unfold assertProductStructure.
  set (flag := match includeRating with VUndefined => VBool true | v => v end).
  set (fields := [js "id"; js "title"; js "price"; js "description";
                  js "category"; js "image"]
                 ++ (if truthy flag then [js "rating"] else [])).
  rewrite bind_Normal.
  assert (Hnot : forall v,
            (forall l props, v = VRef l -> h !! l <> Some (CObject props)) ->
            assertRequiredFields h proto v fields <> Normal tt).
  { intros v Hv H. unfold assertRequiredFields in H.
    pose proof (proj1 (forEach_Normal _ _) H (js "id")
                  ltac:(unfold fields; simpl; tauto)) as H1.
    apply bind_Normal in H1 as [H1 _].
    apply toHaveProperty_Normal in H1 as (l & props & -> & Hl & _).
    exact (Hv l props eq_refl Hl). }
  destruct product as [| |b|n|s|l];
    try (split; [intros [H _]; exfalso; revert H; apply Hnot; discriminate
                |intros (l' & props & H & _); discriminate]).
  destruct (h !! l) as [[props|elems|]|] eqn:Hl;
    try (split; [intros [H _]; exfalso; revert H; apply Hnot;
                 intros l' props' [= <-]; congruence
                |intros (l' & props' & [= <-] & H & _); congruence]).
  rewrite (assertRequiredFields_object h proto l props Hl).
  rewrite !bind_Normal, !(expect_typeof_object h proto l props Hl).
  assert (Hrating :
    (if truthy flag
     then expect_typeof h proto (VRef l) (js "rating") "object";;
          rating ← property h proto (VRef l) (js "rating");
          Jest.toHaveProperty h proto rating (js "rate");;
          Jest.toHaveProperty h proto rating (js "count")
     else Normal tt) = Normal tt
    <-> (truthy flag = true ->
         exists lr rating,
           member proto props (js "rating") = VRef lr /\
           h !! lr = Some (CObject rating) /\
           has_property proto rating (js "rate") = true /\
           has_property proto rating (js "count") = true)).
  { destruct (truthy flag); [|split; [discriminate|reflexivity]].
    rewrite bind_Normal, (expect_typeof_object h proto l props Hl).
    rewrite (property_object h proto l props Hl). cbn [mbind completion_bind].
    rewrite bind_Normal, !toHaveProperty_Normal. split.
    - intros (_ & (lr & rating & E & Hlr & Hrate) & (lr' & rating' & E' & Hlr' & Hcount)) _.
      rewrite E in E'. injection E' as <-. rewrite Hlr in Hlr'.
      injection Hlr' as <-. exists lr, rating. auto.
    - intros H. destruct (H eq_refl) as (lr & rating & E & Hlr & Hrate & Hcount).
      split; [|split]; try (exists lr, rating; auto).
      rewrite E. cbn [typeof]. rewrite Hlr. reflexivity. }
  rewrite Hrating. split.
  - intros (_ & H1 & H2 & H3 & H4 & H5 & H6 & H7).
    exists l, props. auto 10.
  - intros (l' & props' & [= <-] & Hl' & H1 & H2 & H3 & H4 & H5 & H6 & H7).
    rewrite Hl in Hl'. injection Hl' as <-.
    split; [|auto 10].
    intros k Hk. unfold fields in Hk. apply in_app_or in Hk as [Hk|Hk].
    + simpl in Hk.
      destruct Hk as [<-|[<-|[<-|[<-|[<-|[<-|[]]]]]]];
        eapply typeof_defined; try eassumption; discriminate.
    + destruct (truthy flag) eqn:Ef; [|destruct Hk].
      destruct Hk as [<-|[]].
      destruct (H7 eq_refl) as (lr & rating & -> & _). discriminate.
Qed.

(** X28. assertProductStructure(product, includeRating) passes exactly when
    the product is a plain object whose id and price are of type number,
    whose title, description, category and image are of type string and,
    unless includeRating is falsy (it is true when left out), whose rating
    is a plain object having the properties rate and count. Called without
    the flag it fails on every product whose rating is undefined. *)
Theorem assertProductStructure_spec (h : heap) (proto : object)
    (product includeRating : value) :
  (assertProductStructure h proto product includeRating = Normal tt
   <-> exists l props,
         product = VRef l /\ h !! l = Some (CObject props) /\
         typeof h (member proto props (js "id")) = js "number" /\
         typeof h (member proto props (js "title")) = js "string" /\
         typeof h (member proto props (js "price")) = js "number" /\
         typeof h (member proto props (js "description")) = js "string" /\
         typeof h (member proto props (js "category")) = js "string" /\
         typeof h (member proto props (js "image")) = js "string" /\
         (truthy (match includeRating with
                  | VUndefined => VBool true
                  | v => v
                  end) = true ->
          exists lr rating,
            member proto props (js "rating") = VRef lr /\
            h !! lr = Some (CObject rating) /\
            has_property proto rating (js "rate") = true /\
            has_property proto rating (js "count") = true)) /\
  (forall l props,
     h !! l = Some (CObject props) ->
     member proto props (js "rating") = VUndefined ->
     assertProductStructure h proto (VRef l) VUndefined <> Normal tt).
Proof.
  split; [apply assertProductStructure_structure|].
  intros l props Hl Hr H.
  apply assertProductStructure_structure in H
    as (l' & props' & [= <-] & Hl' & _ & _ & _ & _ & _ & _ & H).
  rewrite Hl in Hl'. injection Hl' as <-.
  destruct (H eq_refl) as (lr & rating & E & _). congruence.
Qed.


Lemma member_own (proto o : object) (k : jsstring) :
  get o k <> VUndefined -> member proto o k = get o k.
Proof.
  intros H. unfold member. destruct (has_own o k) eqn:E; [reflexivity|].
  exfalso. apply H. apply get_absent. exact E.
Qed.

Lemma has_property_own (proto o : object) (k : jsstring) :
  get o k <> VUndefined -> has_property proto o k = true.
Proof.
  intros H. unfold has_property. destruct (has_own o k) eqn:E; [reflexivity|].
  exfalso. apply H. apply get_absent. exact E.
Qed.

Lemma coerced_defined (v : value) (n : number) :
  Joi.coerce_number v = VNum n -> v <> VUndefined.
Proof. intros H ->. discriminate. Qed.

(** X29. For a product the full product shape accepts, with a rating when
    the rating is asked for, assertProductStructure passes exactly when id
    and price are of type number: the two checks differ only on numbers
    given as numeric text. *)
Theorem accepted_product_structure (h : heap) (proto : object) (l : loc)
    (props : object) (includeRating : value) :
  h !! l = Some (CObject props) ->
  Joi.error (snd (validateSchema (VRef l) productSchema h)) = None ->
  (truthy (match includeRating with
           | VUndefined => VBool true
           | v => v
           end) = true ->
   get props (js "rating") <> VUndefined) ->
  (assertProductStructure h proto (VRef l) includeRating = Normal tt
   <-> typeof h (get props (js "id")) = js "number" /\
       typeof h (get props (js "price")) = js "number").
Proof.
  intros Hl Hok Hrating.
  pose proof Hok as Hc. apply validateSchema_conforms in Hc.
  rewrite productSchema_keys in Hc.
  destruct (conforms_object_inv _ _ _ _ _ _ Hl Hc) as [Hch _].
  destruct (conforms_number_inv h _ _ (Hch (js "id") _ ltac:(simpl; tauto)))
    as (qi & Hid & _).
  destruct (conforms_number_inv h _ _ (Hch (js "price") _ ltac:(simpl; tauto)))
    as (qp & Hprice & _).
  destruct (conforms_string_inv h _ _ (Hch (js "title") _ ltac:(simpl; tauto)))
    as (s1 & Ht & _).
  destruct (conforms_string_inv h _ _
              (Hch (js "description") _ ltac:(simpl; tauto)))
    as (s2 & Hd & _).
  destruct (conforms_string_inv h _ _
              (Hch (js "category") _ ltac:(simpl; tauto)))
    as (s3 & Hcat & _).
  destruct (conforms_string_inv h _ _ (Hch (js "image") _ ltac:(simpl; tauto)))
    as (s4 & Hi & _).
  assert (Mid := member_own proto props (js "id") (coerced_defined _ _ Hid)).
  assert (Mprice := member_own proto props (js "price")
                      (coerced_defined _ _ Hprice)).
  assert (Mtitle : member proto props (js "title") = VStr s1)
    by (rewrite member_own; rewrite Ht; [reflexivity|discriminate]).
  assert (Mdesc : member proto props (js "description") = VStr s2)
    by (rewrite member_own; rewrite Hd; [reflexivity|discriminate]).
  assert (Mcat : member proto props (js "category") = VStr s3)
    by (rewrite member_own; rewrite Hcat; [reflexivity|discriminate]).
  assert (Mimg : member proto props (js "image") = VStr s4)
    by (rewrite member_own; rewrite Hi; [reflexivity|discriminate]).
  rewrite assertProductStructure_structure. split.
  - intros (l' & props' & [= <-] & Hl' & H1 & _ & H3 & _).
    rewrite Hl in Hl'. injection Hl' as <-.
    rewrite Mid in H1. rewrite Mprice in H3. auto.
  - intros [H1 H3]. exists l, props.
    rewrite Mid, Mprice, Mtitle, Mdesc, Mcat, Mimg.
    repeat (split; [first [reflexivity|assumption]|]).
    intros Hf. specialize (Hrating Hf).
    destruct (productSchema_rating_checked h l props Hl Hrating Hok)
      as (lr & rating & rate & count & E & Hlr & Hrate & _ & _ & Hcount & _).
    exists lr, rating.
    rewrite (member_own proto props (js "rating")) by exact Hrating.
    split; [exact E|]. split; [exact Hlr|].
    split; apply has_property_own; eapply coerced_defined; eassumption.
Qed.

Lemma accepted_product_structure_witness :
  assertProductStructure with_rating [] sole VUndefined = Normal tt.
Proof.
  apply (accepted_product_structure with_rating [] 1%positive
           product_with_rating VUndefined eq_refl
           ltac:(vm_compute; reflexivity)
           ltac:(intros _; discriminate)).
  split; reflexivity.
Defined.

Lemma toContain_item_Normal (items : list value) (v : value) :
  Jest.toContain_item items v = Normal tt
  <-> exists item, In item items /\ strict_equal v item = true.
Proof.
  unfold Jest.toContain_item.
  destruct (existsb (strict_equal v) items) eqn:E.
  - split; [|reflexivity]. intros _. apply existsb_exists. exact E.
  - split; [discriminate|]. intros H. apply existsb_exists in H. congruence.
Qed.

Lemma strict_equal_same (a b : value) :
  strict_equal a b = true -> same_value_zero a b = true.
Proof.
  destruct a as [| |x|[| | |p]|s|l], b as [| |y|[| | |q]|t|m]; simpl; auto.
Qed.

(** X30. validatePostResponse passes exactly when the status is 200 or 201
    (strict equality), the content type contains 'application/json' and the
    body is a plain object whose id is of type number; a response that
    passes it with status 200 passes validatePutResponse as well. *)
Theorem validatePostResponse_spec (h : heap) (proto : object)
    (response : response) :
  (validatePostResponse h proto response = Normal tt
   <-> (strict_equal (status response) (num 200) = true \/
        strict_equal (status response) (num 201) = true) /\
       (exists pre post,
          headers_get response (js "content-type")
          = Some (pre ++ js "application/json" ++ post)) /\
       exists l props,
         json response = VRef l /\ h !! l = Some (CObject props) /\
         typeof h (member proto props (js "id")) = js "number") /\
  (validatePostResponse h proto response = Normal tt ->
   strict_equal (status response) (num 200) = true ->
   validatePutResponse h proto response = Normal tt).
Proof.
  assert (Hpost :
    validatePostResponse h proto response = Normal tt
    <-> (strict_equal (status response) (num 200) = true \/
         strict_equal (status response) (num 201) = true) /\
        (exists pre post,
           headers_get response (js "content-type")
           = Some (pre ++ js "application/json" ++ post)) /\
        exists l props,
          json response = VRef l /\ h !! l = Some (CObject props) /\
          typeof h (member proto props (js "id")) = js "number").
  { unfold validatePostResponse. rewrite !bind_Normal.
    rewrite toContain_item_Normal, toHaveProperty_Normal.
    rewrite (assertContentType_structure response (Some (js "application/json"))).
    cbn [default]. split.
    - intros ((item & Hin & Hs) & Hc & (l & props & E & Hl & Hp) & Ht).
      split.
      { simpl in Hin. destruct Hin as [<-|[<-|[]]]; auto. }
      split; [exact Hc|]. exists l, props. split; [exact E|].
      split; [exact Hl|]. rewrite E in Ht.
      apply (expect_typeof_object h proto l props Hl) in Ht. exact Ht.
    - intros (Hs & Hc & (l & props & E & Hl & Ht)). split.
      { destruct Hs as [Hs|Hs]; eexists; (split; [|exact Hs]); simpl; tauto. }
      split; [exact Hc|]. split.
      + exists l, props. split; [exact E|]. split; [exact Hl|].
        apply member_defined. eapply typeof_defined; [exact Ht|discriminate].
      + rewrite E. apply (expect_typeof_object h proto l props Hl). exact Ht. }
  split; [exact Hpost|].
  intros H Hs. apply Hpost in H as (_ & Hc & (l & props & E & Hl & Ht)).
  unfold validatePutResponse. rewrite !bind_Normal. split; [|split].
  - unfold assertStatusCode. apply toBe_Normal, strict_equal_same, Hs.
  - apply (assertContentType_structure response (Some (js "application/json"))).
    exact Hc.
  - apply toHaveProperty_Normal. exists l, props. split; [exact E|].
    split; [exact Hl|]. apply member_defined.
    eapply typeof_defined; [exact Ht|discriminate].
Qed.

End StructureFacts.
